(** * Takeoff: room detection helpers

    A shallow embedding of the two computations of the floorplan sandbox:

    - [mockAnalyzeRooms], [getRoomColor] and [seededRandom] of
      [src/lib/analysis.ts];
    - [labelToRoomType], [toPngBuffer], [maskToBoundary] and the segment
      loop of [analyzePageWithHf] of the analyze route.

    Conventions of the embedding.

    - A JavaScript [number] that is always a finite double is a rational
      [Q]; every arithmetic operation is the exact rational operation
      followed by [round64], rounding to the nearest binary64 value with
      ties to even.  Decimal literals of the source ([0.45], [0.1], ...)
      are the doubles they denote, [lit q].  All quantities of the
      modelled code stay far below 2^1024, so [round64] has no overflow
      case.
    - Integer-valued numbers (the generator state, pixel coordinates, page
      and room indices) are [Z]; they stay below 2^53 in absolute value,
      where double arithmetic on integers is exact.  A page index is an
      integer.
    - Strings are [string]s of ASCII characters.
    - The closure returned by [seededRandom] captures a mutable variable;
      closure environments live in a [heap], and the code is written in a
      state monad over it.
    - [try]/[catch] is modelled with a [completion]: a normal value or a
      thrown exception. *)

From Stdlib Require Import ZArith QArith Qround Qpower Qabs Qminmax Lia Lqa.
From Stdlib Require Import String Ascii DecimalString.
From Stdlib Require DecimalPos DecimalZ Finite Sorted Qcanon.
From stdpp Require Import base list list_numbers gmap strings.

Open Scope Z_scope.

(* ================================================================= *)
(** * Binary64 arithmetic on rationals *)

Module F64.

#[local] Open Scope Q_scope.

(** Nearest integer, ties to even. *)
Definition rne (t : Q) : Z :=
  let f := Qfloor t in
  match Qcompare (t - inject_Z f) (1 # 2) with
  | Lt => f
  | Gt => (f + 1)%Z
  | Eq => if Z.even f then f else (f + 1)%Z
  end.

(** [ilog2 q] is the integer [e] with [2^e <= q < 2^(e+1)], for [0 < q]. *)
Definition ilog2 (q : Q) : Z :=
  let g := (Z.log2 (Qnum q) - Z.log2 (Zpos (Qden q)))%Z in
  if Qle_bool (2 ^ g) q then g else (g - 1)%Z.

(** Exponent of the unit in the last place of [q]: 53 bits of precision,
    subnormals below 2^-1022. *)
Definition expo (q : Q) : Z := Z.max (ilog2 q - 52) (-1074).

Definition round_pos (q : Q) : Q :=
  inject_Z (rne (q / 2 ^ expo q)) * 2 ^ expo q.

(** Round to nearest binary64, ties to even; the result is in lowest
    terms, so equal doubles are equal terms. *)
Definition round64 (q : Q) : Q :=
  let q := Qred q in
  Qred (match Qcompare q 0 with
        | Eq => 0
        | Gt => round_pos q
        | Lt => - round_pos (- q)
        end).

(** The finite doubles, the exponent range being unbounded above: an
    integer of fewer than 54 bits times a power of two not below 2^-1074. *)
Definition is_double (q : Q) : Prop :=
  exists m e : Z, (Z.abs m < 2 ^ 53)%Z /\ (-1074 <= e)%Z /\ q == inject_Z m * 2 ^ e.

(** The double denoted by a decimal literal. *)
Definition lit (q : Q) : Q := round64 q.

Definition fadd (a b : Q) : Q := round64 (a + b).
Definition fsub (a b : Q) : Q := round64 (a - b).
Definition fmul (a b : Q) : Q := round64 (a * b).
(** Only ever applied to a non-zero divisor in the modelled code. *)
Definition fdiv (a b : Q) : Q := round64 (a / b).

(** [Math.floor], [Math.max], [Math.min] on finite numbers; max and min
    return one of their arguments, unrounded. *)
Definition Math_floor (a : Q) : Z := Qfloor a.
Definition Math_max (a b : Q) : Q := Qmax a b.
Definition Math_min (a b : Q) : Q := Qmin a b.

(** [Number(x.toFixed(2))]: [toFixed] picks the integer [n] with [n/100]
    nearest to the exact value of [x], the larger one on a tie, after
    taking the sign off; [Number] reads the decimal string back as the
    nearest double. *)
Definition toFixed2 (a : Q) : Q :=
  let n := Qfloor (100 * Qabs a + (1 # 2)) in
  round64 ((if Qle_bool 0 a then n else (- n)%Z) # 100).

(** A number that may also be [NaN]. *)
Inductive number : Type :=
| Num (q : Q)
| NaN.

Definition nmul (a b : number) : number :=
  match a, b with
  | Num x, Num y => Num (fmul x y)
  | _, _ => NaN
  end.

Definition nmin (a b : number) : number :=
  match a, b with
  | Num x, Num y => Num (Math_min x y)
  | _, _ => NaN
  end.

Definition ntoFixed2 (a : number) : number :=
  match a with
  | Num x => Num (toFixed2 x)
  | NaN => NaN
  end.

End F64.

Export F64.

(* ================================================================= *)
(** * Strings *)

Module Str.

#[local] Open Scope string_scope.

Definition is_upper (c : ascii) : bool :=
  let n := nat_of_ascii c in (65 <=? n)%nat && (n <=? 90)%nat.
Definition is_lower (c : ascii) : bool :=
  let n := nat_of_ascii c in (97 <=? n)%nat && (n <=? 122)%nat.
Definition is_digit (c : ascii) : bool :=
  let n := nat_of_ascii c in (48 <=? n)%nat && (n <=? 57)%nat.

(** [\w] is [[A-Za-z0-9_]]. *)
Definition is_word (c : ascii) : bool :=
  is_upper c || is_lower c || is_digit c || (nat_of_ascii c =? 95)%nat.

(** [\s] on ASCII: tab, line feed, vertical tab, form feed, carriage
    return and space. *)
Definition is_space (c : ascii) : bool :=
  let n := nat_of_ascii c in ((9 <=? n)%nat && (n <=? 13)%nat) || (n =? 32)%nat.

Definition lower_char (c : ascii) : ascii :=
  if is_upper c then ascii_of_nat (nat_of_ascii c + 32) else c.
Definition upper_char (c : ascii) : ascii :=
  if is_lower c then ascii_of_nat (nat_of_ascii c - 32) else c.

Fixpoint toLowerCase (s : string) : string :=
  match s with
  | EmptyString => EmptyString
  | String c s' => String (lower_char c) (toLowerCase s')
  end.

(** [s.startsWith(p)] *)
Definition startsWith (s p : string) : bool := String.prefix p s.

(** [s.includes(sub)] *)
Fixpoint includes (s sub : string) : bool :=
  if startsWith s sub then true
  else match s with
       | EmptyString => false
       | String _ s' => includes s' sub
       end.

(** [label.replace(/(^|\s)\w/g, (match) => match.toUpperCase())]: a word
    character is upper-cased when it opens the string or follows a
    whitespace character.  [boundary] tells whether the previous position
    is the start of the string or a whitespace character. *)
Fixpoint titleCaseFrom (boundary : bool) (s : string) : string :=
  match s with
  | EmptyString => EmptyString
  | String c s' =>
      String (if boundary && is_word c then upper_char c else c)
             (titleCaseFrom (is_space c) s')
  end.

Definition titleCase (s : string) : string := titleCaseFrom true s.

(** The text of an integer in a template string. *)
Definition of_Z (z : Z) : string := NilZero.string_of_int (Z.to_int z).

(** [s.split(",")[1]]: the text between the first and the second comma,
    absent when [s] has no comma. *)
Fixpoint upto_comma (s : string) : string :=
  match s with
  | EmptyString => EmptyString
  | String c s' => if Ascii.eqb c "," then EmptyString else String c (upto_comma s')
  end.

Fixpoint split_comma_1 (s : string) : option string :=
  match s with
  | EmptyString => None
  | String c s' => if Ascii.eqb c "," then Some (upto_comma s') else split_comma_1 s'
  end.

End Str.

(* ================================================================= *)
(** * Data model *)

Inductive ConstructionType : Type := residential | commercial.

Record RoomTypeDefinition : Type := mkDef {
  def_label : string;
  def_color : string
}.

Record RoomBoundary : Type := mkBoundary {
  b_x : Q;
  b_y : Q;
  b_width : Q;
  b_height : Q
}.

Record RoomDetection : Type := mkRoom {
  rd_id : string;
  rd_label : string;
  rd_type : string;
  rd_confidence : number;
  rd_boundary : RoomBoundary;
  rd_color : string;
  rd_manual : option bool
}.

Open Scope string_scope.

Definition baseRoomTypes : list RoomTypeDefinition :=
  [ mkDef "Living Room" "#F97316";
    mkDef "Kitchen" "#0EA5E9";
    mkDef "Bedroom" "#A855F7";
    mkDef "Bathroom" "#10B981";
    mkDef "Circulation" "#F59E0B";
    mkDef "Storage" "#6B7280";
    mkDef "Mechanical" "#14B8A6";
    mkDef "Workspace" "#EF4444" ].

Definition residentialBias : gmap string Q :=
  {[ "Living Room" := lit (11 # 10);
     "Kitchen" := lit (105 # 100);
     "Bedroom" := lit (12 # 10);
     "Bathroom" := lit (115 # 100) ]}.

Definition commercialBias : gmap string Q :=
  {[ "Workspace" := lit (13 # 10);
     "Mechanical" := lit (11 # 10);
     "Storage" := lit (105 # 100);
     "Circulation" := lit (108 # 100) ]}.

Definition randomRoomNames : list string :=
  [ "Suite"; "Studio"; "Flex Space"; "Utility";
    "Lobby"; "Conference"; "Breakroom"; "Core" ].

(** Property names every object literal inherits from [Object.prototype];
    reading one of them from a bias table yields a function or an object,
    which is not nullish and multiplies to [NaN]. *)
Definition Object_prototype_keys : list string :=
  [ "constructor"; "hasOwnProperty"; "isPrototypeOf";
    "propertyIsEnumerable"; "toLocaleString"; "toString"; "valueOf";
    "__proto__"; "__defineGetter__"; "__defineSetter__";
    "__lookupGetter__"; "__lookupSetter__" ].

(** [biasMap[key] ?? 1], as a factor of a product. *)
Definition bias_of (biasMap : gmap string Q) (key : string) : number :=
  match biasMap !! key with
  | Some b => Num b
  | None =>
      if existsb (String.eqb key) Object_prototype_keys then NaN else Num 1%Q
  end.

(* ================================================================= *)
(** * Room colors *)

Definition getRoomColor (type : string) (customTypes : list RoomTypeDefinition)
  : string :=
  let has_label := fun def : RoomTypeDefinition => String.eqb (def_label def) type in
  let match_ :=
    match List.find has_label baseRoomTypes with
    | Some def => Some def
    | None => List.find has_label customTypes
    end in
  match match_ with
  | Some def => def_color def
  | None => "#94A3B8"
  end.

Close Scope string_scope.

(* ================================================================= *)
(** * The seeded generator *)

(** The environments of the closures made by [seededRandom]: cell [i]
    holds the captured variable [value] of the [i]-th closure. *)
Abbreviation heap := (list Z) (only parsing).

(** A closure of [seededRandom] is the address of its environment. *)
Abbreviation closure := nat (only parsing).

Definition Eff (A : Type) : Type := heap -> A * heap.

Definition ret {A} (a : A) : Eff A := fun h => (a, h).

Definition bind {A B} (m : Eff A) (k : A -> Eff B) : Eff B :=
  fun h => let (a, h') := m h in k a h'.

Declare Scope eff_scope.
Delimit Scope eff_scope with eff.
Notation "x <- m ;; k" := (bind m (fun x => k))
  (at level 100, m at next level, right associativity) : eff_scope.

Open Scope eff_scope.

Fixpoint mapM {A B} (f : A -> Eff B) (l : list A) : Eff (list B) :=
  match l with
  | [] => ret []
  | a :: l' => b <- f a ;; bs <- mapM f l' ;; ret (b :: bs)
  end.

(** [seededRandom(seed)]: fold the seed and return a closure over it.
    [%] is the remainder with the sign of the dividend, [Z.rem]; a seed
    above zero is folded into [1, 2147483646]. *)
Definition seededRandom (seed : Z) : Eff closure :=
  fun h =>
    let value := Z.rem seed 2147483647 in
    let value := if value <=? 0 then value + 2147483646 else value in
    (length h, h ++ [value]).

(** A call [rand()] of the closure; a closure always has its cell, the
    last case is for totality. *)
Definition call (rand : closure) : Eff Q :=
  fun h =>
    match h !! rand with
    | Some value =>
        let value := Z.rem (value * 16807) 2147483647 in
        (fdiv (inject_Z (value - 1)) 2147483646, <[rand := value]> h)
    | None => (0%Q, h)
    end.

(** The generator as a function of its state: the next state, and the
    number drawn on the way to it. *)
Definition step (value : Z) : Z := Z.rem (value * 16807) 2147483647.

Definition draw (value : Z) : Q :=
  fdiv (inject_Z (step value - 1)) 2147483646.

(* ================================================================= *)
(** * The mock detector *)

(** [definitions[typeIndex] ?? definitions[0]]; [definitions] starts with
    the base types, so [definitions[0]] is the first of them. *)
Definition select_definition (definitions : list RoomTypeDefinition)
  (typeIndex : Z) : RoomTypeDefinition :=
  let first := List.hd (mkDef "Living Room" "#F97316")%string definitions in
  if typeIndex <? 0 then first
  else default first (definitions !! Z.to_nat typeIndex).

(** The callback of [Array.from({ length: roomCount }).map]. *)
Definition mockRoom (rand : closure) (pageIndex : Z)
  (classification : ConstructionType) (customTypes : list RoomTypeDefinition)
  (definitions : list RoomTypeDefinition) (idx : nat) : Eff RoomDetection :=
  r <- call rand ;;
  let typeIndex := Math_floor (fmul r (inject_Z (Z.of_nat (length definitions)))) in
  let selectedType := select_definition definitions typeIndex in
  let biasMap :=
    match classification with
    | residential => residentialBias
    | commercial => commercialBias
    end in
  r <- call rand ;;
  let confidenceBase := fadd (lit (65 # 100)) (fmul r (lit (3 # 10))) in
  let bias := bias_of biasMap (def_label selectedType) in
  let confidence := nmin (Num (lit (99 # 100))) (nmul (Num confidenceBase) bias) in
  r <- call rand ;;
  let width := fadd (lit (25 # 100)) (fmul r (lit (45 # 100))) in
  r <- call rand ;;
  let height := fadd (lit (2 # 10)) (fmul r (lit (4 # 10))) in
  r <- call rand ;;
  let x := fmul r (fsub 1 width) in
  r <- call rand ;;
  let y := fmul r (fsub 1 height) in
  ret {| rd_id :=
           ("room-" ++ Str.of_Z pageIndex ++ "-" ++ Str.of_Z (Z.of_nat idx))%string;
         rd_label :=
           default (def_label selectedType)
             (randomRoomNames !! (idx mod length randomRoomNames)%nat);
         rd_type := def_label selectedType;
         rd_confidence := ntoFixed2 confidence;
         rd_boundary := mkBoundary x y width height;
         rd_color := getRoomColor (def_label selectedType) customTypes;
         rd_manual := None |}.

Definition mockAnalyzeRooms (pageIndex : Z) (classification : ConstructionType)
  (customTypes : list RoomTypeDefinition) : Eff (list RoomDetection) :=
  rand <- seededRandom (pageIndex + 1) ;;
  r <- call rand ;;
  let roomCount := Z.max 3 (Math_floor (fmul r 6)) in
  let definitions := baseRoomTypes ++ customTypes in
  mapM (mockRoom rand pageIndex classification customTypes definitions)
       (seq 0 (Z.to_nat roomCount)).

Close Scope eff_scope.

(** A boundary lies within the page and has the size the mock detector
    draws. *)
Definition mock_boundary_ok (b : RoomBoundary) : Prop :=
  (0 <= b_x b /\ 0 <= b_y b /\
   b_x b + b_width b <= 1 /\ b_y b + b_height b <= 1 /\
   (25 # 100 <= b_width b /\ b_width b < 70 # 100) /\
   (20 # 100 <= b_height b /\ b_height b < 60 # 100))%Q.

(* ================================================================= *)
(** * Labels of the segmentation model *)

Definition labelToRoomType (label : string) : string :=
  let normalized := Str.toLowerCase label in
  if Str.includes normalized "living" then "Living Room"
  else if Str.includes normalized "kitchen" then "Kitchen"
  else if Str.includes normalized "bed" then "Bedroom"
  else if Str.includes normalized "bath" || Str.includes normalized "rest"
    then "Bathroom"
  else if Str.includes normalized "storage" || Str.includes normalized "closet"
    then "Storage"
  else if Str.includes normalized "mechanical" || Str.includes normalized "utility"
    then "Mechanical"
  else if Str.includes normalized "office" || Str.includes normalized "workspace"
    then "Workspace"
  else if Str.includes normalized "corridor" || Str.includes normalized "hall"
    then "Circulation"
  else Str.titleCase label.

(** The keyword rules in the order they are tried, as a table. *)
Definition labelRules : list (list string * string) :=
  [ (["living"], "Living Room");
    (["kitchen"], "Kitchen");
    (["bed"], "Bedroom");
    (["bath"; "rest"], "Bathroom");
    (["storage"; "closet"], "Storage");
    (["mechanical"; "utility"], "Mechanical");
    (["office"; "workspace"], "Workspace");
    (["corridor"; "hall"], "Circulation") ]%string.

Definition rule_matches (normalized : string) (rule : list string * string) : bool :=
  existsb (Str.includes normalized) (fst rule).

(** The mapping as the rule table reads: the type of the first rule one of
    whose keywords occurs in the lower-cased label, else the label in
    title case. *)
Definition labelByRules (label : string) : string :=
  match List.find (rule_matches (Str.toLowerCase label)) labelRules with
  | Some rule => snd rule
  | None => Str.titleCase label
  end.






(* ================================================================= *)
(** * Mask to boundary *)

(** What a thrown exception carries. *)
Definition exn : Type := string.

Inductive completion (A : Type) : Type :=
| Normal (a : A)
| Throw (e : exn).
Arguments Normal {A} a.
Arguments Throw {A} e.

Definition cbind {A B} (m : completion A) (k : A -> completion B) : completion B :=
  match m with
  | Normal a => k a
  | Throw e => Throw e
  end.

(** [try { body } catch (error) { handler }] *)
Definition try_catch {A} (body : completion A) (handler : exn -> completion A)
  : completion A :=
  match body with
  | Normal a => Normal a
  | Throw e => handler e
  end.

(** A [Buffer] is a sequence of bytes. *)
Abbreviation Buffer := (list Z) (only parsing).

(** The decoded image of [pngjs]: [data] holds four bytes per pixel, row
    by row, the last of the four being the alpha channel. *)
Record PNG : Type := mkPNG {
  png_width : Z;
  png_height : Z;
  png_data : Buffer
}.

(** The four mutable locals of the scan. *)
Record Box : Type := mkBox {
  minX : Z;
  minY : Z;
  maxX : Z;
  maxY : Z
}.

(** [data[pixelIndex] > 0]; reading outside the buffer gives [undefined],
    which compares false. *)
Definition positive_at (data : Buffer) (pixelIndex : Z) : bool :=
  if pixelIndex <? 0 then false
  else match data !! Z.to_nat pixelIndex with
       | Some a => 0 <? a
       | None => false
       end.

(** The body of the inner loop. *)
Definition visit (png : PNG) (y : Z) (box : Box) (x : Z) : Box :=
  let pixelIndex := (y * png_width png + x) * 4 + 3 in
  if positive_at (png_data png) pixelIndex then
    {| minX := if x <? minX box then x else minX box;
       minY := if y <? minY box then y else minY box;
       maxX := if maxX box <? x then x else maxX box;
       maxY := if maxY box <? y then y else maxY box |}
  else box.

(** The initial values of the locals. *)
Definition initialBox (png : PNG) : Box :=
  {| minX := png_width png; minY := png_height png; maxX := -1; maxY := -1 |}.

(** The two nested loops. *)
Definition scan (png : PNG) : Box :=
  fold_left
    (fun box y => fold_left (visit png y) (seqZ 0 (png_width png)) box)
    (seqZ 0 (png_height png))
    (initialBox png).

(** The pixels in the order the loops visit them, as (column, row). *)
Definition pixels (png : PNG) : list (Z * Z) :=
  flat_map (fun y => map (fun x => (x, y)) (seqZ 0 (png_width png)))
           (seqZ 0 (png_height png)).

(** The alpha channel of the pixel at column [x] and row [y] is greater
    than zero. *)
Definition alpha_positive (png : PNG) (x y : Z) : bool :=
  positive_at (png_data png) ((y * png_width png + x) * 4 + 3).

(** The pixel at column [x] and row [y] lies in the image and its alpha
    channel is greater than zero. *)
Definition opaque (png : PNG) (x y : Z) : Prop :=
  0 <= x < png_width png /\ 0 <= y < png_height png /\
  alpha_positive png x y = true.

(** What the locals hold once the pixels of [seen] have been visited:
    the box holds the opaque pixels seen, and either none was seen and
    the locals are as they started, or each side of the box touches an
    opaque pixel seen. *)
Definition scanned (png : PNG) (seen : list (Z * Z)) (box : Box) : Prop :=
  (forall x y, In (x, y) seen -> alpha_positive png x y = true ->
     minX box <= x <= maxX box /\ minY box <= y <= maxY box) /\
  (((forall x y, In (x, y) seen -> alpha_positive png x y = false) /\
    box = initialBox png) \/
   ((exists y, In (minX box, y) seen /\ alpha_positive png (minX box) y = true) /\
    (exists y, In (maxX box, y) seen /\ alpha_positive png (maxX box) y = true) /\
    (exists x, In (x, minY box) seen /\ alpha_positive png x (minY box) = true) /\
    (exists x, In (x, maxY box) seen /\ alpha_positive png x (maxY box) = true))).

(** [box] is the tightest box around the opaque pixels: it holds them
    all, and each of its four sides touches one. *)
Definition tight (png : PNG) (box : Box) : Prop :=
  (forall x y, opaque png x y ->
     minX box <= x <= maxX box /\ minY box <= y <= maxY box) /\
  (exists y, opaque png (minX box) y) /\
  (exists y, opaque png (maxX box) y) /\
  (exists x, opaque png x (minY box)) /\
  (exists x, opaque png x (maxY box)).

(** The boundary the extractor builds from the box of the scan. *)
Definition boundaryOf (png : PNG) (box : Box) : RoomBoundary :=
  {| b_x := fdiv (inject_Z (minX box)) (inject_Z (png_width png));
     b_y := fdiv (inject_Z (minY box)) (inject_Z (png_height png));
     b_width :=
       Math_max (fdiv (inject_Z (maxX box - minX box)) (inject_Z (png_width png)))
                (lit (5 # 100));
     b_height :=
       Math_max (fdiv (inject_Z (maxY box - minY box)) (inject_Z (png_height png)))
                (lit (5 # 100)) |}.

(** Clamping and rounding to two decimals on exact rationals, the tie
    going up. *)
Definition clamp (lo hi q : Q) : Q := Qmin (Qmax q lo) hi.

Definition round2 (q : Q) : Q := Qfloor (100 * q + (1 # 2)) # 100.

(** [Number(Math.min(Math.max(score, 0.1), 0.99).toFixed(2))] *)
Definition clampConfidence (score : Q) : Q :=
  toFixed2 (Math_min (Math_max score (lit (1 # 10))) (lit (99 # 100))).

Section Extractor.

(** The two library calls of the extractor: [PNG.sync.read], which
    returns the decoded image or throws, and [Buffer.from(_, "base64")]. *)
Variable PNG_sync_read : Buffer -> completion PNG.
Variable Buffer_from_base64 : string -> Buffer.

(** The score is a finite number: it is a field of the JSON answer of the
    remote model.  The handler logs the error and returns [null]. *)
Definition maskToBoundary (maskBuffer : Buffer) (label : string) (score : Q)
  (pageIndex idx : Z) (customTypes : list RoomTypeDefinition)
  : completion (option RoomDetection) :=
  try_catch
    (cbind (PNG_sync_read maskBuffer) (fun png =>
       let width := png_width png in
       let height := png_height png in
       let box := scan png in
       if (maxX box =? -1) || (maxY box =? -1) then Normal None
       else
         let roomType := labelToRoomType label in
         Normal (Some
           {| rd_id :=
                ("hf-room-" ++ Str.of_Z pageIndex ++ "-" ++ Str.of_Z idx)%string;
              rd_label := roomType;
              rd_type := roomType;
              rd_confidence := Num (clampConfidence score);
              rd_boundary :=
                {| b_x := fdiv (inject_Z (minX box)) (inject_Z width);
                   b_y := fdiv (inject_Z (minY box)) (inject_Z height);
                   b_width :=
                     Math_max (fdiv (inject_Z (maxX box - minX box)) (inject_Z width))
                              (lit (5 # 100));
                   b_height :=
                     Math_max (fdiv (inject_Z (maxY box - minY box)) (inject_Z height))
                              (lit (5 # 100)) |};
              rd_color := getRoomColor roomType customTypes;
              rd_manual := None |})))
    (fun error => Normal None).

Definition toPngBuffer (mask : string) : option Buffer :=
  if String.eqb mask "" then None
  else if Str.startsWith mask "data:image/png;base64," then
    Some (Buffer_from_base64 (default ""%string (Str.split_comma_1 mask)))
  else Some (Buffer_from_base64 mask).

(** A segment of the answer of the remote model; an absent field is
    [None]. *)
Record Segment : Type := mkSegment {
  seg_mask : option string;
  seg_label : option string;
  seg_score : option Q
}.

(** The loop of [analyzePageWithHf] over the segments of the answer, from
    index [idx] with the detections collected so far. *)
Fixpoint analyzeSegments (segments : list Segment) (idx : Z) (pageIndex : Z)
  (customTypes : list RoomTypeDefinition) (detections : list RoomDetection)
  : completion (list RoomDetection) :=
  match segments with
  | [] => Normal detections
  | segment :: rest =>
      let continue := analyzeSegments rest (idx + 1) pageIndex customTypes in
      match seg_mask segment with
      | None => continue detections
      | Some mask =>
          match toPngBuffer mask with
          | None => continue detections
          | Some maskBuffer =>
              if (length maskBuffer =? 0)%nat then continue detections
              else
                cbind
                  (maskToBoundary maskBuffer
                     (default ("Region " ++ Str.of_Z (idx + 1))%string
                              (seg_label segment))
                     (default (lit (1 # 2)) (seg_score segment))
                     pageIndex idx customTypes)
                  (fun detection =>
                     match detection with
                     | Some d => continue (detections ++ [d])
                     | None => continue detections
                     end)
          end
      end
  end.

End Extractor.

(** A stand-in for the base64 decoder in examples: the character codes
    of the text. *)
Definition bytes_of (text : string) : Buffer :=
  map (fun c => Z.of_nat (nat_of_ascii c)) (list_ascii_of_string text).

(** A stand-in for the decoder in examples: an uncompressed image, its
    width and height followed by its RGBA bytes; anything else is refused. *)
Definition read_raw (buffer : Buffer) : completion PNG :=
  match buffer with
  | w :: h :: data =>
      if (0 <? w) && (0 <? h) && (Z.of_nat (length data) =? 4 * w * h)
      then Normal (mkPNG w h data)
      else Throw "Invalid file signature"%string
  | _ => Throw "Invalid file signature"%string
  end.

(** An uncompressed mask of [w] by [h] pixels for examples, opaque where
    [on] holds. *)
Definition raw_mask (w h : Z) (on : Z -> Z -> bool) : Buffer :=
  w :: h ::
  flat_map (fun p => [0; 0; 0; if on (fst p) (snd p) then 255 else 0])
           (pixels (mkPNG w h [])).

(* ================================================================= *)
(** * The generator and the mock detector as functions of the state *)

(** [n] calls of the closure in a row, the numbers drawn in order. *)
Fixpoint draws (rand : closure) (n : nat) : Eff (list Q) :=
  match n with
  | O => ret []
  | S n' => bind (call rand) (fun r => bind (draws rand n') (fun rs => ret (r :: rs)))
  end.

(** The value the seed is folded to. *)
Definition foldSeed (seed : Z) : Z :=
  let value := Z.rem seed 2147483647 in
  if value <=? 0 then value + 2147483646 else value.

(** The room the callback makes when the generator is in state [value],
    and the rooms made for the indices [idxs] from that state on. *)
Definition roomFrom (pageIndex : Z) (classification : ConstructionType)
  (customTypes definitions : list RoomTypeDefinition) (idx : nat) (value : Z)
  : RoomDetection :=
  fst (mockRoom 0 pageIndex classification customTypes definitions idx [value]).

Fixpoint roomsFrom (pageIndex : Z) (classification : ConstructionType)
  (customTypes definitions : list RoomTypeDefinition) (idxs : list nat) (value : Z)
  : list RoomDetection :=
  match idxs with
  | [] => []
  | idx :: rest =>
      roomFrom pageIndex classification customTypes definitions idx value
      :: roomsFrom pageIndex classification customTypes definitions rest
           (Nat.iter 6 step value)
  end.

(** The text of the identifier of room [idx] of page [pageIndex]. *)
Definition roomId (pageIndex : Z) (idx : nat) : string :=
  ("room-" ++ Str.of_Z pageIndex ++ "-" ++ Str.of_Z (Z.of_nat idx))%string.

(** The number of rooms of a page. *)
Definition roomCountOf (pageIndex : Z) : nat :=
  Z.to_nat (Z.max 3 (Math_floor (fmul (draw (foldSeed (pageIndex + 1))) 6))).

(** The text of the identifier of the detection of segment [idx] of page
    [pageIndex]. *)
Definition hfRoomId (pageIndex idx : Z) : string :=
  ("hf-room-" ++ Str.of_Z pageIndex ++ "-" ++ Str.of_Z idx)%string.

(* ================================================================= *)
(** * The analyzer of a page *)

Section Analyzer.

Variable PNG_sync_read : Buffer -> completion PNG.
Variable Buffer_from_base64 : string -> Buffer.

(** [inference.imageSegmentation]: the answer of the remote model, [None]
    when it is no array; the call may reject. *)
Variable imageSegmentation : Buffer -> completion (option (list Segment)).

(** [HF_TOKEN], the access token of the environment, [None] when neither
    variable is set. *)
Variable HF_TOKEN : option string.

(** A text is truthy unless it is empty. *)
Definition truthy (text : option string) : bool :=
  match text with
  | Some text => negb (String.eqb text "")
  | None => false
  end.

(** [inference], here whether the client of the remote model was built:
    [HF_TOKEN ? new HfInference(HF_TOKEN) : null]. *)
Definition inference : bool := truthy HF_TOKEN.

Definition analyzePageWithHf (thumbnailDataUrl : string) (pageIndex : Z)
  (customTypes : list RoomTypeDefinition) : completion (list RoomDetection) :=
  if negb inference then Normal []
  else
    match Str.split_comma_1 thumbnailDataUrl with
    | None => Normal []
    | Some base64 =>
        if String.eqb base64 "" then Normal []
        else
          cbind (imageSegmentation (Buffer_from_base64 base64)) (fun segments =>
            match segments with
            | None => Normal []
            | Some segments =>
                analyzeSegments PNG_sync_read Buffer_from_base64 segments 0
                  pageIndex customTypes []
            end)
    end.

End Analyzer.

(* ================================================================= *)
(** * The mock detector on the numbers of a request *)

(** [a % b] on finite numbers, [b] not zero: the remainder of the division
    truncated towards zero, which is exact in doubles. *)
Definition frem (a b : Q) : Q :=
  let q := (a / b)%Q in
  Qred (a - b * inject_Z (Z.quot (Qnum q) (Zpos (Qden q))))%Q.

(** A page index that comes from the body of a request is any finite
    double.  The generator and the detector are read here with the
    arithmetic of doubles throughout: the cells of the heap hold doubles,
    the sum [pageIndex + 1] and the sum and the product that update
    [value] are rounded. *)
Module Doubles.

Definition Eff (A : Type) : Type := list Q -> A * list Q.

Definition ret {A} (a : A) : Eff A := fun h => (a, h).

Definition bind {A B} (m : Eff A) (k : A -> Eff B) : Eff B :=
  fun h => let (a, h') := m h in k a h'.

Declare Scope doubles_scope.
Delimit Scope doubles_scope with doubles.
Notation "x <- m ;; k" := (bind m (fun x => k))
  (at level 100, m at next level, right associativity) : doubles_scope.

#[local] Open Scope doubles_scope.

Fixpoint mapM {A B} (f : A -> Eff B) (l : list A) : Eff (list B) :=
  match l with
  | [] => ret []
  | a :: l' => b <- f a ;; bs <- mapM f l' ;; ret (b :: bs)
  end.

Definition seededRandom (seed : Q) : Eff closure :=
  fun h =>
    let value := frem seed 2147483647 in
    let value := if Qle_bool value 0 then fadd value 2147483646 else value in
    (length h, h ++ [value]).

Definition call (rand : closure) : Eff Q :=
  fun h =>
    match h !! rand with
    | Some value =>
        let value := frem (fmul value 16807) 2147483647 in
        (fdiv (fsub value 1) 2147483646, <[rand := value]> h)
    | None => (0%Q, h)
    end.

Section Detector.

(** [String(pageIndex)], as the template of the identifier forms it. *)
Variable Number_toString : Q -> string.

Definition mockRoom (rand : closure) (pageIndex : Q)
  (classification : ConstructionType) (customTypes : list RoomTypeDefinition)
  (definitions : list RoomTypeDefinition) (idx : nat) : Eff RoomDetection :=
  r <- call rand ;;
  let typeIndex := Math_floor (fmul r (inject_Z (Z.of_nat (length definitions)))) in
  let selectedType := select_definition definitions typeIndex in
  let biasMap :=
    match classification with
    | residential => residentialBias
    | commercial => commercialBias
    end in
  r <- call rand ;;
  let confidenceBase := fadd (lit (65 # 100)) (fmul r (lit (3 # 10))) in
  let bias := bias_of biasMap (def_label selectedType) in
  let confidence := nmin (Num (lit (99 # 100))) (nmul (Num confidenceBase) bias) in
  r <- call rand ;;
  let width := fadd (lit (25 # 100)) (fmul r (lit (45 # 100))) in
  r <- call rand ;;
  let height := fadd (lit (2 # 10)) (fmul r (lit (4 # 10))) in
  r <- call rand ;;
  let x := fmul r (fsub 1 width) in
  r <- call rand ;;
  let y := fmul r (fsub 1 height) in
  ret {| rd_id :=
           ("room-" ++ Number_toString pageIndex ++ "-"
              ++ Str.of_Z (Z.of_nat idx))%string;
         rd_label :=
           default (def_label selectedType)
             (randomRoomNames !! (idx mod length randomRoomNames)%nat);
         rd_type := def_label selectedType;
         rd_confidence := ntoFixed2 confidence;
         rd_boundary := mkBoundary x y width height;
         rd_color := getRoomColor (def_label selectedType) customTypes;
         rd_manual := None |}.

Definition mockAnalyzeRooms (pageIndex : Q) (classification : ConstructionType)
  (customTypes : list RoomTypeDefinition) : Eff (list RoomDetection) :=
  rand <- seededRandom (fadd pageIndex 1) ;;
  r <- call rand ;;
  let roomCount := Z.max 3 (Math_floor (fmul r 6)) in
  let definitions := baseRoomTypes ++ customTypes in
  mapM (mockRoom rand pageIndex classification customTypes definitions)
       (seq 0 (Z.to_nat roomCount)).

End Detector.

End Doubles.

(** A stand-in for [String] on numbers in examples: the digits of a whole
    number, and of the whole part of any other. *)
Definition digits_of (pageIndex : Q) : string := Str.of_Z (Qfloor pageIndex).

(* ================================================================= *)
(** * The route [/api/analysis] *)

(** [text.trim()] on ASCII. *)
Fixpoint trimStart (text : string) : string :=
  match text with
  | EmptyString => EmptyString
  | String c rest => if Str.is_space c then trimStart rest else text
  end.

Fixpoint trimEnd (text : string) : string :=
  match text with
  | EmptyString => EmptyString
  | String c rest =>
      match trimEnd rest with
      | EmptyString => if Str.is_space c then EmptyString else String c EmptyString
      | kept => String c kept
      end
  end.

Definition trim (text : string) : string := trimEnd (trimStart text).

Module AnalysisRoute.

(** The field [pageIndex] of the body: absent or no number, an infinity
    (a literal beyond the doubles), or a finite number, whole or not. *)
Inductive PageIndexField : Type :=
| NotNumber
| Infinite (negative : bool)
| Index (pageIndex : Q).

(** An entry of [customRoomTypes]: each field is [None] when it is absent
    or no text. *)
Record RoomTypeEntry : Type := mkEntry {
  ent_label : option string;
  ent_color : option string
}.

(** The field [customRoomTypes]: absent or [null], a value that is no
    array, or an array; an entry of the array that is no object is
    [None]. *)
Inductive CustomTypesField : Type :=
| Absent
| NotArray
| Entries (entries : list (option RoomTypeEntry)).

(** The field [classification] is [None] when it is neither of the two
    texts. *)
Record AnalysisRequest : Type := mkAnalysisRequest {
  bd_pageIndex : PageIndexField;
  bd_classification : option ConstructionType;
  bd_customRoomTypes : CustomTypesField
}.

Inductive ResponseBody : Type :=
| MessageBody (message : string)
| RoomsBody (rooms : list RoomDetection).

Record Response : Type := mkResponse {
  resp_status : Z;
  resp_body : ResponseBody
}.

(** The predicate of [body.customRoomTypes?.filter] and the entries it
    keeps. *)
Definition validEntry (entry : option RoomTypeEntry) : option RoomTypeDefinition :=
  match entry with
  | Some (mkEntry (Some label) (Some color)) =>
      if (0 <? String.length (trim label))%nat then Some (mkDef label color) else None
  | _ => None
  end.

Definition filterEntries (entries : list (option RoomTypeEntry))
  : list RoomTypeDefinition :=
  omap validEntry entries.

Section Route.

Variable Number_toString : Q -> string.

(** The handler.  [request_json] is the outcome of [request.json()];
    calling [filter] on a value that is no array throws as well. *)
Definition POST (request_json : completion AnalysisRequest)
  : Doubles.Eff Response :=
  match request_json with
  | Throw error =>
      Doubles.ret
        (mkResponse 500 (MessageBody "Unable to process analysis request"))
  | Normal body =>
      match bd_pageIndex body with
      | NotNumber | Infinite _ =>
          Doubles.ret
            (mkResponse 400 (MessageBody "pageIndex must be a positive number"))
      | Index pageIndex =>
          if negb (Qle_bool 0 pageIndex) then
            Doubles.ret
            (mkResponse 400 (MessageBody "pageIndex must be a positive number"))
          else
            match bd_classification body with
            | None =>
                Doubles.ret (mkResponse 400
                       (MessageBody "classification must be residential or commercial"))
            | Some classification =>
                match bd_customRoomTypes body with
                | NotArray =>
                    Doubles.ret (mkResponse 500
                           (MessageBody "Unable to process analysis request"))
                | Absent =>
                    Doubles.bind
                      (Doubles.mockAnalyzeRooms Number_toString pageIndex
                         classification [])
                      (fun rooms => Doubles.ret (mkResponse 200 (RoomsBody rooms)))
                | Entries entries =>
                    Doubles.bind
                      (Doubles.mockAnalyzeRooms Number_toString pageIndex
                         classification (filterEntries entries))
                      (fun rooms => Doubles.ret (mkResponse 200 (RoomsBody rooms)))
                end
            end
      end
  end.

End Route.

End AnalysisRoute.

(* ================================================================= *)
(** * The page: its state and the handlers that update it *)

(** [Math.round]: the nearest whole number, a tie going up. *)
Definition Math_round (a : Q) : Z := Qfloor (a + (1 # 2)).

Module Home.

Inductive PageStatus : Type := idle | processing | processed.

Record PagePreview : Type := mkPagePreview {
  pv_id : string;
  pv_index : Z;
  pv_thumbnail : string;
  pv_width : Z;
  pv_height : Z;
  pv_status : PageStatus;
  pv_selected : bool;
  pv_rooms : list RoomDetection
}.

(** [Partial<RoomDetection>]: a field is [None] when the object has no
    such key. *)
Record PartialRoom : Type := mkPartialRoom {
  pr_id : option string;
  pr_label : option string;
  pr_type : option string;
  pr_confidence : option number;
  pr_boundary : option RoomBoundary;
  pr_color : option string;
  pr_manual : option bool
}.

(** The part of the state of the component the handlers below read and
    write. *)
Record State : Type := mkState {
  pages : list PagePreview;
  selectedPageId : option string;
  customRoomTypes : list RoomTypeDefinition;
  newRoomType : RoomTypeDefinition;
  logEntries : list string
}.

Definition maxLogEntries : nat := 5.

(** The updater [pushLog] hands to [setLogEntries]. *)
Definition pushLog (message : string) (prev : list string) : list string :=
  let next := message :: prev in
  take maxLogEntries next.

Definition togglePageSelection (pageId : string) (s : State) : State :=
  {| pages :=
       map (fun page =>
              if String.eqb (pv_id page) pageId then
                {| pv_id := pv_id page;
                   pv_index := pv_index page;
                   pv_thumbnail := pv_thumbnail page;
                   pv_width := pv_width page;
                   pv_height := pv_height page;
                   pv_status := pv_status page;
                   pv_selected := negb (pv_selected page);
                   pv_rooms := pv_rooms page |}
              else page)
           (pages s);
     selectedPageId := Some pageId;
     customRoomTypes := customRoomTypes s;
     newRoomType := newRoomType s;
     logEntries := logEntries s |}.

(** [{ ...room, ...data, manual: true }] *)
Definition overrideRoom (room : RoomDetection) (data : PartialRoom)
  : RoomDetection :=
  {| rd_id := default (rd_id room) (pr_id data);
     rd_label := default (rd_label room) (pr_label data);
     rd_type := default (rd_type room) (pr_type data);
     rd_confidence := default (rd_confidence room) (pr_confidence data);
     rd_boundary := default (rd_boundary room) (pr_boundary data);
     rd_color := default (rd_color room) (pr_color data);
     rd_manual := Some true |}.

Definition updateRoom (roomId : string) (data : PartialRoom) (s : State) : State :=
  {| pages :=
       map (fun page =>
              if negb (bool_decide (Some (pv_id page) = selectedPageId s)) then page
              else
                {| pv_id := pv_id page;
                   pv_index := pv_index page;
                   pv_thumbnail := pv_thumbnail page;
                   pv_width := pv_width page;
                   pv_height := pv_height page;
                   pv_status := pv_status page;
                   pv_selected := pv_selected page;
                   pv_rooms :=
                     map (fun room =>
                            if String.eqb (rd_id room) roomId
                            then overrideRoom room data else room)
                         (pv_rooms page) |})
           (pages s);
     selectedPageId := selectedPageId s;
     customRoomTypes := customRoomTypes s;
     newRoomType := newRoomType s;
     logEntries := logEntries s |}.

Definition addCustomRoomType (s : State) : State :=
  if String.eqb (trim (def_label (newRoomType s))) "" then s
  else
    {| pages := pages s;
       selectedPageId := selectedPageId s;
       customRoomTypes :=
         customRoomTypes s
         ++ [mkDef (trim (def_label (newRoomType s))) (def_color (newRoomType s))];
       newRoomType := mkDef "" (def_color (newRoomType s));
       logEntries :=
         pushLog ("Added custom room type: " ++ trim (def_label (newRoomType s)))%string
                 (logEntries s) |}.

(** The percentage shown for a room:
    [Math.round(room.confidence * 100)]. *)
Definition confidencePercent (confidence : Q) : Z :=
  Math_round (fmul confidence 100).

End Home.


(* ================================================================= *)
(** * Facts about rounding *)

Section Rounding.

#[local] Open Scope Q_scope.

(** The nearest integer is the floor or the integer above it, within one
    half of the number, and grows with it. *)
Lemma rne_floor (t : Q) : (Qfloor t <= rne t <= Qfloor t + 1)%Z.
Proof.
  unfold rne. destruct (Qcompare _ _); [destruct (Z.even _)|..]; lia.
Qed.

Lemma rne_near (t : Q) : t - (1#2) <= inject_Z (rne t) <= t + (1#2).
Proof.
  unfold rne.
  pose proof (Qfloor_le t) as Hlo. pose proof (Qlt_floor t) as Hhi.
  rewrite inject_Z_plus in Hhi. change (inject_Z 1) with 1 in Hhi.
  destruct (Qcompare_spec (t - inject_Z (Qfloor t)) (1#2)) as [He|Hl|Hg].
  - destruct (Z.even _); rewrite ?inject_Z_plus; change (inject_Z 1) with 1; lra.
  - lra.
  - rewrite inject_Z_plus. change (inject_Z 1) with 1. lra.
Qed.

Lemma rne_mono (s t : Q) : s <= t -> (rne s <= rne t)%Z.
Proof.
  intros Hst. pose proof (Qfloor_resp_le _ _ Hst) as Hf.
  destruct (Z.eq_dec (Qfloor s) (Qfloor t)) as [E|NE].
  - unfold rne. rewrite E.
    destruct (Qcompare_spec (s - inject_Z (Qfloor t)) (1#2));
      destruct (Qcompare_spec (t - inject_Z (Qfloor t)) (1#2));
      try destruct (Z.even _); try lia; exfalso; lra.
  - pose proof (rne_floor s). pose proof (rne_floor t). lia.
Qed.

(** An integer is its own nearest integer. *)
Lemma rne_inject (n : Z) : rne (inject_Z n) = n.
Proof.
  unfold rne. rewrite Qfloor_Z.
  destruct (Qcompare_spec (inject_Z n - inject_Z n) (1#2)) as [He|Hl|Hg];
    try reflexivity; exfalso; lra.
Qed.

(** Powers of two. *)
Lemma pow2_pos (e : Z) : 0 < 2 ^ e.
Proof. apply Qpower_0_lt. reflexivity. Qed.

Lemma pow2_succ (e : Z) : 2 ^ (e + 1) == 2 * 2 ^ e.
Proof. rewrite Qpower_plus by discriminate. change (2 ^ 1) with 2. ring. Qed.

Lemma pow2_le (a b : Z) : (a <= b)%Z -> 2 ^ a <= 2 ^ b.
Proof. intros. apply Qpower_le_compat_l; [assumption|]. discriminate. Qed.

Lemma pow2_lt_inv (a b : Z) : 2 ^ a < 2 ^ b -> (a < b)%Z.
Proof.
  intros H. destruct (Z_lt_le_dec a b) as [|Hle]; [assumption|].
  apply pow2_le in Hle. lra.
Qed.

Lemma pow2_inject (n : Z) : (0 <= n)%Z -> inject_Z (2 ^ n) == 2 ^ n.
Proof. intros. rewrite Zpower_Qpower by assumption. reflexivity. Qed.

(** [ilog2] is the binary logarithm rounded down. *)
Lemma ilog2_spec (q : Q) : 0 < q -> 2 ^ ilog2 q <= q < 2 ^ (ilog2 q + 1).
Proof.
  intros Hq. destruct q as [a b]. unfold ilog2. cbn [Qnum Qden].
  assert (Ha : (0 < a)%Z) by (unfold Qlt in Hq; cbn in Hq; lia).
  set (la := Z.log2 a). set (lb := Z.log2 (Z.pos b)).
  destruct (Z.log2_spec a Ha) as [Ha1 Ha2]. fold la in Ha1, Ha2.
  destruct (Z.log2_spec (Z.pos b) (Pos2Z.is_pos b)) as [Hb1 Hb2]. fold lb in Hb1, Hb2.
  assert (Hla : (0 <= la)%Z) by apply Z.log2_nonneg.
  assert (Hlb : (0 <= lb)%Z) by apply Z.log2_nonneg.
  assert (Qa1 : 2 ^ la <= inject_Z a)
    by (rewrite <- pow2_inject by assumption; rewrite <- Zle_Qle; assumption).
  assert (Qa2 : inject_Z a < 2 ^ (la + 1))
    by (rewrite <- pow2_inject by lia; rewrite <- Zlt_Qlt; lia).
  assert (Qb1 : 2 ^ lb <= inject_Z (Z.pos b))
    by (rewrite <- pow2_inject by assumption; rewrite <- Zle_Qle; assumption).
  assert (Qb2 : inject_Z (Z.pos b) < 2 ^ (lb + 1))
    by (rewrite <- pow2_inject by lia; rewrite <- Zlt_Qlt; lia).
  rewrite pow2_succ in Qa2, Qb2.
  assert (Hq' : a # b == inject_Z a / inject_Z (Z.pos b)) by apply Qmake_Qdiv.
  assert (Hbpos : 0 < inject_Z (Z.pos b)) by (change 0 with (inject_Z 0); rewrite <- Zlt_Qlt; lia).
  assert (Hmul : (a # b) * inject_Z (Z.pos b) == inject_Z a)
    by (rewrite Hq'; field; lra).
  pose proof (pow2_pos la) as Pla. pose proof (pow2_pos lb) as Plb.
  assert (Hg : 2 ^ (la - lb) * 2 ^ lb == 2 ^ la).
  { rewrite <- Qpower_plus by discriminate. replace (la - lb + lb)%Z with la by lia. reflexivity. }
  pose proof (pow2_pos (la - lb)) as Pg.
  assert (Hup : a # b < 2 * 2 ^ (la - lb)).
  { apply Qnot_le_lt. intros Hc.
    assert (2 * 2 ^ (la - lb) * 2 ^ lb <= (a # b) * inject_Z (Z.pos b)) by nra.
    nra. }
  assert (Hdn : 2 ^ (la - lb) < 2 * (a # b)).
  { apply Qnot_le_lt. intros Hc.
    assert (2 * (a # b) * inject_Z (Z.pos b) <= 2 ^ (la - lb) * (2 * 2 ^ lb)) by nra.
    nra. }
  destruct (Qle_bool (2 ^ (la - lb)) (a # b)) eqn:Hb.
  - apply Qle_bool_iff in Hb. rewrite pow2_succ. split; assumption.
  - assert (Hlt : a # b < 2 ^ (la - lb)).
    { apply Qnot_le_lt. intros Hc. apply Qle_bool_iff in Hc. congruence. }
    replace (la - lb - 1 + 1)%Z with (la - lb)%Z by lia.
    split; [|assumption].
    assert (E : 2 ^ (la - lb) == 2 * 2 ^ (la - lb - 1)).
    { rewrite <- pow2_succ. replace (la - lb - 1 + 1)%Z with (la - lb)%Z by lia. reflexivity. }
    lra.
Qed.

Lemma ilog2_mono (p q : Q) : 0 < p -> p <= q -> (ilog2 p <= ilog2 q)%Z.
Proof.
  intros Hp Hpq.
  destruct (ilog2_spec p Hp) as [P1 _].
  destruct (ilog2_spec q) as [_ Q2]; [lra|].
  assert (H : 2 ^ ilog2 p < 2 ^ (ilog2 q + 1)) by lra.
  apply pow2_lt_inv in H. lia.
Qed.

(** Rounding a positive number: the error is at most half a unit in the
    last place, the result stays in the binade of the number or reaches
    the next power of two, and grows with the number. *)
Lemma round_pos_eq (q : Q) : round_pos q = inject_Z (rne (q / 2 ^ expo q)) * 2 ^ expo q.
Proof. reflexivity. Qed.

Lemma scaled_mul (q : Q) (e : Z) : q / 2 ^ e * 2 ^ e == q.
Proof. pose proof (pow2_pos e). field. lra. Qed.

Lemma round_pos_err (q : Q) :
  q - 2 ^ expo q * (1#2) <= round_pos q <= q + 2 ^ expo q * (1#2).
Proof.
  rewrite round_pos_eq. set (e := expo q).
  pose proof (rne_near (q / 2 ^ e)) as [H1 H2].
  pose proof (pow2_pos e) as P. pose proof (scaled_mul q e) as S.
  set (t := q / 2 ^ e) in *. set (m := inject_Z (rne t)) in *.
  split; nra.
Qed.

Lemma round_pos_lower (q : Q) : 0 < q -> (-1074 < ilog2 q - 52)%Z ->
  2 ^ (expo q + 52) <= round_pos q.
Proof.
  intros Hq He. rewrite round_pos_eq.
  assert (E : expo q = (ilog2 q - 52)%Z) by (unfold expo; lia).
  destruct (ilog2_spec q Hq) as [L _].
  set (e := expo q) in *.
  assert (Hs : 2 ^ 52 <= q / 2 ^ e).
  { pose proof (pow2_pos e). apply Qle_shift_div_l; [assumption|].
    rewrite <- Qpower_plus by discriminate.
    replace (52 + e)%Z with (ilog2 q) by lia. assumption. }
  apply rne_mono in Hs.
  change (2 ^ 52) with (inject_Z (2 ^ 52)) in Hs. rewrite rne_inject in Hs.
  rewrite Zle_Qle in Hs.
  rewrite Qpower_plus by discriminate. rewrite (Qmult_comm (2 ^ e)).
  apply Qmult_le_compat_r; [|apply Qlt_le_weak, pow2_pos].
  exact Hs.
Qed.

Lemma round_pos_upper (q : Q) : 0 < q -> round_pos q <= 2 ^ (expo q + 53).
Proof.
  intros Hq. rewrite round_pos_eq.
  assert (E : (ilog2 q - 52 <= expo q)%Z) by (unfold expo; lia).
  destruct (ilog2_spec q Hq) as [_ U].
  set (e := expo q) in *.
  assert (Hs : q / 2 ^ e <= 2 ^ 53).
  { pose proof (pow2_pos e). apply Qle_shift_div_r; [assumption|].
    rewrite <- Qpower_plus by discriminate.
    assert (2 ^ (ilog2 q + 1) <= 2 ^ (53 + e)) by (apply pow2_le; lia). lra. }
  apply rne_mono in Hs.
  change (2 ^ 53) with (inject_Z (2 ^ 53)) in Hs. rewrite rne_inject in Hs.
  rewrite Zle_Qle in Hs.
  rewrite Qpower_plus by discriminate. rewrite (Qmult_comm (2 ^ e)).
  apply Qmult_le_compat_r; [|apply Qlt_le_weak, pow2_pos].
  exact Hs.
Qed.

Lemma round_pos_mono (p q : Q) : 0 < p -> p <= q -> round_pos p <= round_pos q.
Proof.
  intros Hp Hpq.
  assert (Hq : 0 < q) by lra.
  pose proof (ilog2_mono p q Hp Hpq) as Hl.
  destruct (Z.eq_dec (expo p) (expo q)) as [E|NE].
  - rewrite !round_pos_eq, E.
    apply Qmult_le_compat_r; [|apply Qlt_le_weak, pow2_pos].
    rewrite <- Zle_Qle. apply rne_mono.
    apply Qmult_le_compat_r; [assumption|].
    apply Qlt_le_weak, Qinv_lt_0_compat, pow2_pos.
  - assert (Hlt : (expo p < expo q)%Z) by (unfold expo in *; lia).
    assert (Hn : (-1074 < ilog2 q - 52)%Z) by (unfold expo in *; lia).
    pose proof (round_pos_upper p Hp) as U.
    pose proof (round_pos_lower q Hq Hn) as L.
    assert (2 ^ (expo p + 53) <= 2 ^ (expo q + 52)) by (apply pow2_le; lia).
    lra.
Qed.

Lemma round_pos_nonneg (q : Q) : 0 < q -> 0 <= round_pos q.
Proof.
  intros Hq. rewrite round_pos_eq.
  apply Qmult_le_0_compat; [|apply Qlt_le_weak, pow2_pos].
  assert (H : (rne (inject_Z 0) <= rne (q / 2 ^ expo q))%Z).
  { apply rne_mono. pose proof (pow2_pos (expo q)).
    apply Qle_shift_div_l; [assumption|]. change (inject_Z 0) with 0. lra. }
  rewrite rne_inject in H. rewrite Zle_Qle in H. exact H.
Qed.

(** [round64] does not depend on how the rational is written, and is the
    rounding of positive numbers extended by symmetry. *)
Lemma round64_comp (p q : Q) : p == q -> round64 p = round64 q.
Proof. intros H. unfold round64. rewrite (Qred_complete _ _ H). reflexivity. Qed.

Lemma round64_pos (q : Q) : 0 < q -> round64 q == round_pos (Qred q).
Proof.
  intros Hq. unfold round64. cbv zeta.
  pose proof (Qred_correct q) as Hr.
  destruct (Qcompare_spec (Qred q) 0) as [E|L|G];
    rewrite Qred_correct; try reflexivity; exfalso; lra.
Qed.

Lemma round64_neg (q : Q) : q < 0 -> round64 q == - round_pos (- Qred q).
Proof.
  intros Hq. unfold round64. cbv zeta.
  pose proof (Qred_correct q) as Hr.
  destruct (Qcompare_spec (Qred q) 0) as [E|L|G];
    rewrite Qred_correct; try reflexivity; exfalso; lra.
Qed.

Lemma round64_0 (q : Q) : q == 0 -> round64 q = 0.
Proof. intros H. rewrite (round64_comp q 0 H). reflexivity. Qed.

(** Rounding is monotone. *)
Lemma round64_mono (p q : Q) : p <= q -> round64 p <= round64 q.
Proof.
  intros Hpq.
  pose proof (Qred_correct p) as Rp. pose proof (Qred_correct q) as Rq.
  assert (Hneg : forall r, r <= 0 -> round64 r <= 0).
  { intros r Hr. pose proof (Qred_correct r) as Rr.
    destruct (Qeq_dec r 0) as [E|N].
    - rewrite (round64_0 r E). lra.
    - rewrite (round64_neg r) by lra.
      pose proof (round_pos_nonneg (- Qred r) ltac:(lra)). lra. }
  assert (Hpos : forall r, 0 < r -> 0 <= round64 r).
  { intros r Hr. pose proof (Qred_correct r) as Rr.
    rewrite (round64_pos r Hr). apply round_pos_nonneg. lra. }
  destruct (Qlt_le_dec 0 p) as [Hp|Hp].
  - rewrite (round64_pos p), (round64_pos q) by lra.
    apply round_pos_mono; lra.
  - destruct (Qlt_le_dec 0 q) as [Hq|Hq].
    + pose proof (Hneg p Hp). pose proof (Hpos q Hq). lra.
    + destruct (Qeq_dec q 0) as [E|N].
      * rewrite (round64_0 q E). apply Hneg. assumption.
      * rewrite (round64_neg p), (round64_neg q) by lra.
        apply Qopp_le_compat. apply round_pos_mono; lra.
Qed.

(** Below 2 the rounding error is at most 2^-53. *)
Lemma round64_err_unit (q : Q) : 0 <= q -> q < 2 ->
  q - (1 # 9007199254740992) <= round64 q <= q + (1 # 9007199254740992).
Proof.
  intros H0 H2. pose proof (Qred_correct q) as Rq.
  destruct (Qeq_dec q 0) as [E|N].
  - rewrite (round64_0 q E). lra.
  - assert (Hq : 0 < q) by lra.
    rewrite (round64_pos q Hq).
    pose proof (round_pos_err (Qred q)) as Herr.
    assert (Hq' : 0 < Qred q) by lra.
    destruct (ilog2_spec (Qred q) Hq') as [L _].
    assert (Hl : (ilog2 (Qred q) < 1)%Z).
    { apply pow2_lt_inv. change (2 ^ 1) with 2. lra. }
    assert (He : 2 ^ expo (Qred q) <= 2 ^ (-52)) by (apply pow2_le; unfold expo; lia).
    change (2 ^ (-52)) with (1 # 4503599627370496) in He.
    pose proof (pow2_pos (expo (Qred q))).
    lra.
Qed.

(** [round64] is a rounding to nearest: it leaves doubles as they are,
    returns doubles, and no double is nearer to the rounded number. *)
Lemma rne_comp (s t : Q) : s == t -> rne s = rne t.
Proof.
  intros E. unfold rne. rewrite (Qfloor_comp _ _ E).
  assert (E' : s - inject_Z (Qfloor t) == t - inject_Z (Qfloor t)) by (rewrite E; reflexivity).
  rewrite (Qcompare_comp _ _ E' _ _ (Qeq_refl (1 # 2))). reflexivity.
Qed.

Lemma rne_nearest (t : Q) (n : Z) :
  Qabs (inject_Z (rne t) - t) <= Qabs (inject_Z n - t).
Proof.
  destruct (rne_near t) as [N1 N2].
  destruct (Z.lt_total n (rne t)) as [L|[E|G]].
  - assert (H : inject_Z n + 1 <= inject_Z (rne t)).
    { change 1 with (inject_Z 1). rewrite <- inject_Z_plus, <- Zle_Qle. lia. }
    apply (Qabs_case (inject_Z (rne t) - t)); intros;
      apply (Qabs_case (inject_Z n - t)); intros; lra.
  - subst n. apply Qle_refl.
  - assert (H : inject_Z (rne t) + 1 <= inject_Z n).
    { change 1 with (inject_Z 1). rewrite <- inject_Z_plus, <- Zle_Qle. lia. }
    apply (Qabs_case (inject_Z (rne t) - t)); intros;
      apply (Qabs_case (inject_Z n - t)); intros; lra.
Qed.

Lemma pow2_split (a b : Z) : 2 ^ (a + b) == 2 ^ a * 2 ^ b.
Proof. apply Qpower_plus. discriminate. Qed.

Lemma pow2_inject_mul (m d : Z) (x : Z) :
  (0 <= d)%Z -> inject_Z (m * 2 ^ d) * 2 ^ x == inject_Z m * 2 ^ (d + x).
Proof.
  intros Hd. rewrite inject_Z_mult, pow2_inject by assumption.
  rewrite pow2_split. ring.
Qed.

(** No multiple of the unit in the last place is nearer than the result. *)
Lemma round_pos_nearest_multiple (q : Q) (n : Z) :
  Qabs (round_pos q - q) <= Qabs (inject_Z n * 2 ^ expo q - q).
Proof.
  rewrite round_pos_eq. set (u := 2 ^ expo q).
  assert (Hu : 0 < u) by apply pow2_pos.
  set (t := q / u).
  assert (Hq : q == t * u) by (unfold t; field; lra).
  pose proof (rne_nearest t n) as Hn.
  assert (E1 : inject_Z (rne t) * u - q == (inject_Z (rne t) - t) * u)
    by (rewrite Hq at 1; ring).
  assert (E2 : inject_Z n * u - q == (inject_Z n - t) * u)
    by (rewrite Hq at 1; ring).
  rewrite E1, E2, !Qabs_Qmult, (Qabs_pos u) by lra.
  apply Qmult_le_compat_r; [exact Hn|lra].
Qed.

Lemma round_pos_nearest (q d : Q) :
  0 < q -> is_double d -> Qabs (round_pos q - q) <= Qabs (d - q).
Proof.
  intros Hq [m [e [Hm [He Hd]]]].
  destruct (Z_le_gt_dec (expo q) e) as [Hx|Hx].
  - (* [d] is a multiple of the unit in the last place of [q] *)
    pose proof (round_pos_nearest_multiple q (m * 2 ^ (e - expo q))) as Hn.
    rewrite pow2_inject_mul in Hn by lia.
    replace (e - expo q + expo q)%Z with e in Hn by lia.
    rewrite Hd. exact Hn.
  - (* [d] lies below the binade of [q], whose lower end is a multiple *)
    assert (Ek : expo q = (ilog2 q - 52)%Z) by (unfold expo in *; lia).
    destruct (ilog2_spec q Hq) as [Lq _].
    pose proof (round_pos_nearest_multiple q (2 ^ 52)) as Hn.
    change (inject_Z (2 ^ 52)) with (2 ^ 52) in Hn.
    rewrite <- pow2_split, Ek in Hn.
    replace (52 + (ilog2 q - 52))%Z with (ilog2 q) in Hn by lia.
    assert (Hd' : Qabs d < 2 ^ ilog2 q).
    { rewrite Hd, Qabs_Qmult, (Qabs_pos (2 ^ e)) by (apply Qlt_le_weak, pow2_pos).
      assert (Hm' : Qabs (inject_Z m) <= 2 ^ 53 - 1).
      { change (2 ^ 53 - 1) with (inject_Z (2 ^ 53 - 1)).
        apply Qabs_Qle_condition. rewrite <- inject_Z_opp, <- !Zle_Qle. lia. }
      assert (Hp : 2 ^ 53 * 2 ^ e <= 2 ^ ilog2 q)
        by (rewrite <- pow2_split; apply pow2_le; lia).
      pose proof (pow2_pos e).
      assert (Qabs (inject_Z m) * 2 ^ e <= (2 ^ 53 - 1) * 2 ^ e)
        by (apply Qmult_le_compat_r; lra).
      change (2 ^ 53) with 9007199254740992 in *. lra. }
    revert Hn Hd'.
    apply (Qabs_case (round_pos q - q)); intros;
      apply (Qabs_case (d - q)); intros; revert Hn Hd';
      apply (Qabs_case (2 ^ ilog2 q - q)); intros; revert Hd';
      apply (Qabs_case d); intros; lra.
Qed.

Lemma is_double_opp (d : Q) : is_double d -> is_double (- d).
Proof.
  intros [m [e [Hm [He Hd]]]]. exists (- m)%Z, e.
  split; [lia|]. split; [exact He|]. rewrite Hd, inject_Z_opp. ring.
Qed.

(** No double is nearer to [q] than [round64 q]. *)
Lemma round64_nearest (q d : Q) :
  is_double d -> Qabs (round64 q - q) <= Qabs (d - q).
Proof.
  intros Hd. pose proof (Qred_correct q) as Rq.
  destruct (Q_dec q 0) as [[Hneg|Hpos]|Hz].
  - rewrite (round64_neg q Hneg).
    pose proof (round_pos_nearest (- Qred q) (- d) ltac:(lra) (is_double_opp d Hd)) as Hn.
    assert (E1 : - round_pos (- Qred q) - q == - (round_pos (- Qred q) - - Qred q)) by lra.
    assert (E2 : d - q == - (- d - - Qred q)) by lra.
    rewrite E1, E2, !Qabs_opp. exact Hn.
  - rewrite (round64_pos q Hpos).
    pose proof (round_pos_nearest (Qred q) d ltac:(lra) Hd) as Hn.
    assert (E1 : round_pos (Qred q) - q == round_pos (Qred q) - Qred q) by lra.
    assert (E2 : d - q == d - Qred q) by lra.
    rewrite E1, E2. exact Hn.
  - rewrite (round64_0 q Hz).
    assert (E : 0 - q == 0) by lra.
    rewrite E. apply Qabs_nonneg.
Qed.

(** The result is a double. *)
Lemma round_pos_is_double (q : Q) : 0 < q -> is_double (round_pos q).
Proof.
  intros Hq. rewrite round_pos_eq.
  assert (Hx : (-1074 <= expo q)%Z) by (unfold expo; lia).
  assert (Hlo : (0 <= rne (q / 2 ^ expo q))%Z).
  { rewrite <- (rne_inject 0). apply rne_mono.
    pose proof (pow2_pos (expo q)).
    apply Qle_shift_div_l; [assumption|]. change (inject_Z 0) with 0. lra. }
  assert (Hhi : (rne (q / 2 ^ expo q) <= 2 ^ 53)%Z).
  { rewrite <- (rne_inject (2 ^ 53)). apply rne_mono.
    destruct (ilog2_spec q Hq) as [_ U]. pose proof (pow2_pos (expo q)).
    apply Qle_shift_div_r; [assumption|].
    change (inject_Z (2 ^ 53)) with (2 ^ 53). rewrite <- pow2_split.
    assert (2 ^ (ilog2 q + 1) <= 2 ^ (53 + expo q)) by (apply pow2_le; unfold expo; lia).
    lra. }
  destruct (Z.eq_dec (rne (q / 2 ^ expo q)) (2 ^ 53)%Z) as [E|N].
  - exists (2 ^ 52)%Z, (expo q + 1)%Z. split; [reflexivity|]. split; [lia|].
    rewrite E, pow2_succ. change (inject_Z (2 ^ 53)) with (2 * inject_Z (2 ^ 52)). ring.
  - exists (rne (q / 2 ^ expo q)), (expo q). split; [lia|]. split; [lia|reflexivity].
Qed.

Lemma round64_is_double (q : Q) : is_double (round64 q).
Proof.
  pose proof (Qred_correct q) as Rq.
  destruct (Q_dec q 0) as [[Hneg|Hpos]|Hz].
  - destruct (is_double_opp _ (round_pos_is_double (- Qred q) ltac:(lra)))
      as [m [e [Hm [He Hd]]]].
    exists m, e. split; [exact Hm|]. split; [exact He|].
    rewrite (round64_neg q Hneg). exact Hd.
  - destruct (round_pos_is_double (Qred q) ltac:(lra)) as [m [e [Hm [He Hd]]]].
    exists m, e. split; [exact Hm|]. split; [exact He|].
    rewrite (round64_pos q Hpos). exact Hd.
  - exists 0%Z, 0%Z. split; [reflexivity|]. split; [lia|].
    rewrite (round64_0 q Hz). reflexivity.
Qed.

(** A double is rounded to itself. *)
Lemma round64_exact (q : Q) : is_double q -> round64 q == q.
Proof.
  intros Hd.
  pose proof (round64_nearest q q Hd) as Hn.
  assert (E : q - q == 0) by ring.
  rewrite E in Hn. change (Qabs 0) with 0 in Hn.
  pose proof (Qabs_nonneg (round64 q - q)) as H0.
  revert Hn H0. apply (Qabs_case (round64 q - q)); intros; lra.
Qed.

(** A number that is not negative rounds to one. *)
Lemma round64_nonneg (q : Q) : 0 <= q -> 0 <= round64 q.
Proof.
  intros H. apply round64_mono in H. rewrite (round64_0 0) in H by reflexivity.
  exact H.
Qed.

End Rounding.

(* ================================================================= *)
(** * Facts about the generator *)

Section Generator.

(** A seed from a page index that is not negative is folded into
    [1, 2147483646]; any seed is folded into [0, 2147483646]. *)
Lemma seed_normalised (seed : Z) :
  0 <= (if Z.rem seed 2147483647 <=? 0
        then Z.rem seed 2147483647 + 2147483646
        else Z.rem seed 2147483647) < 2147483647.
Proof.
  pose proof (Z.rem_bound_abs seed 2147483647 ltac:(lia)) as Hb.
  change (Z.abs 2147483647) with 2147483647 in Hb.
  destruct (Z.leb_spec (Z.rem seed 2147483647) 0); lia.
Qed.

Lemma seed_normalised_pos (seed : Z) :
  0 < seed ->
  1 <= (if Z.rem seed 2147483647 <=? 0
        then Z.rem seed 2147483647 + 2147483646
        else Z.rem seed 2147483647) < 2147483647.
Proof.
  intros Hs.
  pose proof (Z.rem_bound_pos seed 2147483647 ltac:(lia) ltac:(lia)) as Hb.
  destruct (Z.leb_spec (Z.rem seed 2147483647) 0); lia.
Qed.

Lemma step_bounded (value : Z) :
  0 <= value < 2147483647 -> 0 <= step value < 2147483647.
Proof.
  intros Hv. unfold step.
  apply Z.rem_bound_pos; lia.
Qed.

(** The modulus is prime to the multiplier, so a step from a non-zero
    state never reaches zero. *)
Lemma step_in_range (value : Z) :
  1 <= value < 2147483647 -> 1 <= step value < 2147483647.
Proof.
  intros Hv. unfold step. rewrite Z.rem_mod_nonneg by lia.
  pose proof (Z.mod_pos_bound (value * 16807) 2147483647 ltac:(lia)) as Hb.
  assert (Hnz : (value * 16807) mod 2147483647 <> 0).
  { intros Hz. apply Z.mod_divide in Hz; [|lia].
    rewrite Z.mul_comm in Hz.
    apply Z.gauss in Hz; [|reflexivity].
    destruct Hz as [k Hk]. nia. }
  lia.
Qed.

(** The product formed by a step is an exact double. *)
Lemma step_exact (value : Z) :
  0 <= value < 2147483647 -> 0 <= value * 16807 < 2 ^ 53.
Proof. intros Hv. split; lia. Qed.

#[local] Open Scope Q_scope.

(** A draw is at most 1 - 2^-32. *)
Lemma draw_upper (value : Z) :
  (0 <= value < 2147483647)%Z -> draw value <= 4294967295 # 4294967296.
Proof.
  intros Hv. apply step_bounded in Hv. unfold draw, fdiv.
  assert (H1 : inject_Z (step value - 1) <= 2147483645)
    by (change 2147483645 with (inject_Z 2147483645); rewrite <- Zle_Qle; lia).
  assert (Hq : inject_Z (step value - 1) / 2147483646 <= 2147483645 # 2147483646).
  { apply Qle_shift_div_r; [reflexivity|]. lra. }
  apply round64_mono in Hq.
  assert (Hc : round64 (2147483645 # 2147483646) <= 4294967295 # 4294967296)
    by (apply Qle_bool_iff; vm_compute; reflexivity).
  lra.
Qed.

(** From a non-zero state, a draw is not negative. *)
Lemma draw_lower (value : Z) :
  (1 <= value < 2147483647)%Z -> 0 <= draw value.
Proof.
  intros Hv. apply step_in_range in Hv. unfold draw, fdiv.
  assert (H0 : 0 <= inject_Z (step value - 1))
    by (change 0 with (inject_Z 0); rewrite <- Zle_Qle; lia).
  apply round64_nonneg. apply Qle_shift_div_l; [reflexivity|]. lra.
Qed.

End Generator.

(* ================================================================= *)
(** * Facts about the mock detector *)

Section MockArithmetic.

#[local] Open Scope Q_scope.

(** Products and sums are monotone in a factor and in a term. *)
Lemma fmul_le_r (a b c : Q) : 0 <= c -> a <= b -> fmul a c <= fmul b c.
Proof.
  intros Hc Hab. unfold fmul. apply round64_mono.
  apply Qmult_le_compat_r; assumption.
Qed.

Lemma fadd_le_r (a b c : Q) : a <= b -> fadd c a <= fadd c b.
Proof. intros Hab. unfold fadd. apply round64_mono. lra. Qed.

Lemma fmul_nonneg (a b : Q) : 0 <= a -> 0 <= b -> 0 <= fmul a b.
Proof.
  intros Ha Hb. unfold fmul. apply round64_nonneg.
  apply Qmult_le_0_compat; assumption.
Qed.

(** [0.25 + rand() * 0.45] *)
Lemma width_range (r : Q) :
  0 <= r <= 4294967295 # 4294967296 ->
  25 # 100 <= fadd (lit (25 # 100)) (fmul r (lit (45 # 100))) < 70 # 100.
Proof.
  intros [Hr0 Hr1].
  assert (Hc : 0 <= lit (45 # 100)) by (apply Qle_bool_iff; vm_compute; reflexivity).
  pose proof (fmul_nonneg r _ Hr0 Hc) as Hlo.
  pose proof (fmul_le_r r _ _ Hc Hr1) as Hhi.
  apply (fadd_le_r _ _ (lit (25 # 100))) in Hlo, Hhi.
  assert (L : 25 # 100 <= fadd (lit (25 # 100)) 0)
    by (apply Qle_bool_iff; vm_compute; reflexivity).
  assert (U : fadd (lit (25 # 100))
                (fmul (4294967295 # 4294967296) (lit (45 # 100))) < 70 # 100)
    by (apply Qlt_alt; vm_compute; reflexivity).
  split; lra.
Qed.

(** [0.2 + rand() * 0.4] *)
Lemma height_range (r : Q) :
  0 <= r <= 4294967295 # 4294967296 ->
  20 # 100 <= fadd (lit (2 # 10)) (fmul r (lit (4 # 10))) < 60 # 100.
Proof.
  intros [Hr0 Hr1].
  assert (Hc : 0 <= lit (4 # 10)) by (apply Qle_bool_iff; vm_compute; reflexivity).
  pose proof (fmul_nonneg r _ Hr0 Hc) as Hlo.
  pose proof (fmul_le_r r _ _ Hc Hr1) as Hhi.
  apply (fadd_le_r _ _ (lit (2 # 10))) in Hlo, Hhi.
  assert (L : 20 # 100 <= fadd (lit (2 # 10)) 0)
    by (apply Qle_bool_iff; vm_compute; reflexivity).
  assert (U : fadd (lit (2 # 10))
                (fmul (4294967295 # 4294967296) (lit (4 # 10))) < 60 # 100)
    by (apply Qlt_alt; vm_compute; reflexivity).
  split; lra.
Qed.

(** [rand() * (1 - size)] places a box of that size within the page: the
    two roundings lose at most 2^-52, the draw leaves 2^-32 of the free
    space unused. *)
Lemma place_fits (r size : Q) :
  0 <= r <= 4294967295 # 4294967296 ->
  20 # 100 <= size <= 70 # 100 ->
  0 <= fmul r (fsub 1 size) /\ fmul r (fsub 1 size) + size <= 1.
Proof.
  intros [Hr0 Hr1] [Hs0 Hs1].
  unfold fmul, fsub.
  pose proof (round64_err_unit (1 - size) ltac:(lra) ltac:(lra)) as [D1 D2].
  set (d := round64 (1 - size)) in *.
  assert (Hd0 : 0 <= d) by lra.
  assert (Hd1 : d <= 1) by lra.
  assert (Hrd0 : 0 <= r * d) by (apply Qmult_le_0_compat; assumption).
  assert (Hrd1 : r * d <= (4294967295 # 4294967296) * d)
    by (apply Qmult_le_compat_r; assumption).
  pose proof (round64_err_unit (r * d) Hrd0 ltac:(lra)) as [X1 X2].
  split.
  - apply round64_nonneg. assumption.
  - lra.
Qed.

(** Widths and heights are sizes [place_fits] applies to. *)
Lemma width_is_size (s : Q) : 25 # 100 <= s < 70 # 100 -> 20 # 100 <= s <= 70 # 100.
Proof. intros [? ?]. split; lra. Qed.

Lemma height_is_size (s : Q) : 20 # 100 <= s < 60 # 100 -> 20 # 100 <= s <= 70 # 100.
Proof. intros [? ?]. split; lra. Qed.

End MockArithmetic.

Section MockFrame.

(** A call of the closure at the end of the heap draws from its cell and
    steps it. *)
Lemma call_frame (h0 : heap) (value : Z) :
  call (length h0) (h0 ++ [value]) = (draw value, h0 ++ [step value]).
Proof.
  unfold call. rewrite list_lookup_middle by reflexivity.
  rewrite insert_app_r_alt by lia. rewrite Nat.sub_diag. reflexivity.
Qed.

(** The ranges of the state are kept along any number of steps. *)
Lemma iter_step_bounded (n : nat) (value : Z) :
  0 <= value < 2147483647 -> 0 <= Nat.iter n step value < 2147483647.
Proof.
  intros Hv. induction n as [|n IH]; [exact Hv|].
  cbn [Nat.iter]. apply step_bounded. exact IH.
Qed.

Lemma iter_step_in_range (n : nat) (value : Z) :
  1 <= value < 2147483647 -> 1 <= Nat.iter n step value < 2147483647.
Proof.
  intros Hv. induction n as [|n IH]; [exact Hv|].
  cbn [Nat.iter]. apply step_in_range. exact IH.
Qed.

(** From a non-zero state a draw is in [0, 1 - 2^-32]. *)
Lemma draw_unit (value : Z) :
  1 <= value < 2147483647 -> (0 <= draw value <= 4294967295 # 4294967296)%Q.
Proof.
  intros Hv. split; [apply draw_lower; exact Hv|apply draw_upper; lia].
Qed.

(** A room is a function of the indices and of the state of the
    generator; making it advances the generator by six steps and leaves
    the rest of the heap alone. *)
Lemma mockRoom_frame (pageIndex : Z) (classification : ConstructionType)
  (customTypes definitions : list RoomTypeDefinition) (idx : nat) (value : Z) :
  exists room : RoomDetection,
    (forall h0 : heap,
       mockRoom (length h0) pageIndex classification customTypes definitions idx
         (h0 ++ [value]) = (room, h0 ++ [Nat.iter 6 step value])) /\
    (1 <= value < 2147483647 -> mock_boundary_ok (rd_boundary room)).
Proof.
  eexists. split.
  - intros h0. unfold mockRoom, bind, ret.
    do 6 (rewrite call_frame; cbv beta iota).
    reflexivity.
  - intros Hv. cbv beta zeta. cbn [rd_boundary].
    pose proof (draw_unit _ (iter_step_in_range 2 value Hv)) as R3.
    pose proof (draw_unit _ (iter_step_in_range 3 value Hv)) as R4.
    pose proof (draw_unit _ (iter_step_in_range 4 value Hv)) as R5.
    pose proof (draw_unit _ (iter_step_in_range 5 value Hv)) as R6.
    cbn [Nat.iter] in R3, R4, R5, R6.
    pose proof (width_range _ R3) as W.
    pose proof (height_range _ R4) as H.
    pose proof (place_fits _ _ R5 (width_is_size _ W)) as [X0 X1].
    pose proof (place_fits _ _ R6 (height_is_size _ H)) as [Y0 Y1].
    unfold mock_boundary_ok. cbn [b_x b_y b_width b_height].
    repeat split; try assumption; try apply W; apply H.
Qed.

End MockFrame.

Section MockRooms.

Variables (pageIndex : Z) (classification : ConstructionType).
Variables (customTypes definitions : list RoomTypeDefinition).

(** The rooms of a run are a function of the state of the generator: the
    run advances it by six steps a room and leaves the rest of the heap
    alone. *)
Lemma mockRooms_frame (idxs : list nat) (value : Z) :
  exists rooms : list RoomDetection,
    length rooms = length idxs /\
    (forall h0 : heap,
       mapM (mockRoom (length h0) pageIndex classification customTypes definitions)
         idxs (h0 ++ [value])
       = (rooms, h0 ++ [Nat.iter (6 * length idxs) step value])) /\
    (1 <= value < 2147483647 ->
     Forall (fun room => mock_boundary_ok (rd_boundary room)) rooms).
Proof.
  revert value. induction idxs as [|idx idxs IH]; intros value.
  - exists []. split; [reflexivity|].
    split; [intros h0; reflexivity|intros _; constructor].
  - destruct (mockRoom_frame pageIndex classification customTypes definitions
                idx value) as [room [Hroom Hok]].
    destruct (IH (Nat.iter 6 step value)) as [rooms [Hlen [Hrooms Hoks]]].
    exists (room :: rooms). split; [|split].
    + cbn [length]. rewrite Hlen. reflexivity.
    + intros h0. cbn [mapM]. unfold bind at 1. rewrite Hroom.
      unfold bind at 1. rewrite Hrooms. unfold ret.
      replace (6 * length (idx :: idxs))%nat with (6 * length idxs + 6)%nat
        by (cbn [length]; lia).
      rewrite Nat.iter_add. reflexivity.
    + intros Hv. constructor; [apply Hok; exact Hv|].
      apply Hoks. apply iter_step_in_range. exact Hv.
Qed.

End MockRooms.

(** [Math.max(3, Math.floor(rand() * 6))] is 3, 4 or 5. *)
Lemma roomCount_range (value : Z) :
  0 <= value < 2147483647 ->
  3 <= Z.max 3 (Math_floor (fmul (draw value) 6)) <= 5.
Proof.
  intros Hv. split; [lia|].
  apply draw_upper in Hv.
  assert (H6 : (0 <= 6)%Q) by discriminate.
  pose proof (fmul_le_r _ _ 6 H6 Hv) as Hm.
  apply Qfloor_resp_le in Hm. unfold Math_floor.
  assert (Hc : Qfloor (fmul (4294967295 # 4294967296) 6) = 5)
    by (vm_compute; reflexivity).
  lia.
Qed.

(** A run of the mock detector allocates one generator, which nothing
    else refers to, and returns rooms that depend on the arguments only. *)
Lemma mockAnalyzeRooms_frame (pageIndex : Z) (classification : ConstructionType)
  (customTypes : list RoomTypeDefinition) :
  exists (rooms : list RoomDetection) (value : Z),
    (forall h : heap,
       mockAnalyzeRooms pageIndex classification customTypes h
       = (rooms, h ++ [value])) /\
    (3 <= length rooms <= 5)%nat /\
    (0 <= pageIndex ->
     Forall (fun room => mock_boundary_ok (rd_boundary room)) rooms).
Proof.
  set (seed := pageIndex + 1).
  set (value0 := if Z.rem seed 2147483647 <=? 0
                 then Z.rem seed 2147483647 + 2147483646
                 else Z.rem seed 2147483647).
  pose proof (seed_normalised seed) as Hv0. fold value0 in Hv0.
  pose proof (roomCount_range value0 Hv0) as Hcount.
  set (roomCount := Z.max 3 (Math_floor (fmul (draw value0) 6))) in *.
  destruct (mockRooms_frame pageIndex classification customTypes
              (baseRoomTypes ++ customTypes)
              (seq 0 (Z.to_nat roomCount)) (step value0))
    as [rooms [Hlen [Hrooms Hoks]]].
  rewrite length_seq in Hlen.
  exists rooms. eexists. split; [|split].
  - intros h. unfold mockAnalyzeRooms. unfold bind at 1.
    unfold seededRandom. fold seed. cbv zeta. fold value0.
    unfold bind at 1. rewrite call_frame. fold roomCount. cbv zeta.
    rewrite Hrooms. reflexivity.
  - lia.
  - intros Hp. apply Hoks. apply step_in_range.
    pose proof (seed_normalised_pos seed ltac:(lia)) as H. exact H.
Qed.

(** C1.  [mockAnalyzeRooms] is deterministic and has no side effect: for
    every page index, classification and list of custom types, the list
    of rooms it returns is the same from any two heaps, in particular
    when it is called twice in a row, and the call leaves every cell of
    the heap as it was, adding only the cell of its own generator. *)
Theorem mockAnalyzeRooms_deterministic (pageIndex : Z)
  (classification : ConstructionType) (customTypes : list RoomTypeDefinition)
  (h1 h2 : heap) :
  fst (mockAnalyzeRooms pageIndex classification customTypes h1)
  = fst (mockAnalyzeRooms pageIndex classification customTypes h2)
  /\ (let (first, h) := mockAnalyzeRooms pageIndex classification customTypes h1 in
      let (second, _) := mockAnalyzeRooms pageIndex classification customTypes h in
      first = second)
  /\ (exists value : Z,
        snd (mockAnalyzeRooms pageIndex classification customTypes h1)
        = h1 ++ [value]).
Proof.
  destruct (mockAnalyzeRooms_frame pageIndex classification customTypes)
    as [rooms [value [Hrun _]]].
  rewrite !Hrun. cbn [fst snd]. rewrite ?Hrun.
  split; [reflexivity|]. split; [reflexivity|]. exists value. reflexivity.
Qed.

(** C5.  For every page index, classification and list of custom types,
    the number of rooms returned by [mockAnalyzeRooms] is between 3 and 8. *)
Theorem mockAnalyzeRooms_count (pageIndex : Z)
  (classification : ConstructionType) (customTypes : list RoomTypeDefinition)
  (h : heap) :
  (3 <= length (fst (mockAnalyzeRooms pageIndex classification customTypes h)) <= 8)%nat.
Proof.
  destruct (mockAnalyzeRooms_frame pageIndex classification customTypes)
    as [rooms [value [Hrun [Hlen _]]]].
  rewrite Hrun. cbn [fst]. lia.
Qed.

(** C4.  For every page index that is not negative, every classification
    and list of custom types, every boundary returned by
    [mockAnalyzeRooms] has [0 <= x], [0 <= y], [x + width <= 1],
    [y + height <= 1], a width in [0.25, 0.70) and a height in
    [0.20, 0.60). *)
Theorem mockAnalyzeRooms_boundaries (pageIndex : Z)
  (classification : ConstructionType) (customTypes : list RoomTypeDefinition)
  (h : heap) (room : RoomDetection) :
  0 <= pageIndex ->
  In room (fst (mockAnalyzeRooms pageIndex classification customTypes h)) ->
  let b := rd_boundary room in
  (0 <= b_x b /\ 0 <= b_y b /\
   b_x b + b_width b <= 1 /\ b_y b + b_height b <= 1 /\
   (25 # 100 <= b_width b /\ b_width b < 70 # 100) /\
   (20 # 100 <= b_height b /\ b_height b < 60 # 100))%Q.
Proof.
  intros Hp Hin.
  destruct (mockAnalyzeRooms_frame pageIndex classification customTypes)
    as [rooms [value [Hrun [_ Hok]]]].
  rewrite Hrun in Hin. cbn [fst] in Hin.
  specialize (Hok Hp). rewrite List.Forall_forall in Hok.
  exact (Hok room Hin).
Qed.

(** The first page of a residential plan without custom types. *)
Example mockAnalyzeRooms_page0 :
  map (fun room => (rd_id room, rd_label room, rd_type room,
                    rd_confidence room, rd_color room))
      (fst (mockAnalyzeRooms 0 residential [] []))
  = [ ("room-0-0", "Suite", "Kitchen", Num (lit (92 # 100)), "#0EA5E9");
      ("room-0-1", "Studio", "Storage", Num (lit (85 # 100)), "#6B7280");
      ("room-0-2", "Flex Space", "Living Room", Num (lit (73 # 100)), "#F97316")
    ]%string.
Proof. vm_compute. reflexivity. Qed.

(** A custom type named after a member of [Object.prototype] has no
    numeric bias: its confidence is [NaN]. *)
Example mockAnalyzeRooms_inherited_bias :
  map rd_confidence
      (List.filter (fun room => String.eqb (rd_type room) "constructor")
                   (fst (mockAnalyzeRooms 6 residential
                           [mkDef "constructor" "#123456"] [])))
  = [NaN].
Proof. vm_compute. reflexivity. Qed.

Lemma mockAnalyzeRooms_boundaries_witness :
  length (fst (mockAnalyzeRooms 0 residential [] [])) = 3%nat /\
  Forall (fun room =>
            let b := rd_boundary room in
            (0 <= b_x b /\ 0 <= b_y b /\
             b_x b + b_width b <= 1 /\ b_y b + b_height b <= 1 /\
             (25 # 100 <= b_width b /\ b_width b < 70 # 100) /\
             (20 # 100 <= b_height b /\ b_height b < 60 # 100))%Q)
         (fst (mockAnalyzeRooms 0 residential [] [])).
Proof.
  split; [vm_compute; reflexivity|].
  apply List.Forall_forall. intros room Hin.
  apply (mockAnalyzeRooms_boundaries 0 residential [] [] room); [lia|exact Hin].
Defined.

(* ================================================================= *)
(** * Facts about the scan *)

Section Scan.

Variable png : PNG.

Let W := png_width png.
Let H := png_height png.
Let init := initialBox png.
#[local] Abbreviation pos := (alpha_positive png).

(** The loops visit the pixels of the image. *)
Lemma in_pixels (x y : Z) : In (x, y) (pixels png) <-> 0 <= x < W /\ 0 <= y < H.
Proof.
  unfold pixels. rewrite in_flat_map. split.
  - intros [y' [Hy Hx]]. apply in_map_iff in Hx. destruct Hx as [x' [E Hx]].
    inversion E; subst x' y'.
    apply list_elem_of_In, elem_of_seqZ in Hy.
    apply list_elem_of_In, elem_of_seqZ in Hx. subst W H. lia.
  - intros [Hx Hy]. exists y. split.
    + apply list_elem_of_In, elem_of_seqZ. subst H. lia.
    + apply in_map_iff. exists x. split; [reflexivity|].
      apply list_elem_of_In, elem_of_seqZ. subst W. lia.
Qed.

(** The nested loops visit [pixels png] from left to right. *)
Lemma scan_pixels :
  scan png = fold_left (fun box p => visit png (snd p) box (fst p)) (pixels png) init.
Proof.
  unfold scan, pixels. fold W H init. generalize init.
  induction (seqZ 0 H) as [|y rows IH]; intros box; [reflexivity|].
  cbn [fold_left flat_map]. rewrite fold_left_app, <- IH. f_equal.
  clear IH. revert box.
  induction (seqZ 0 W) as [|x cols IHc]; intros box; [reflexivity|].
  cbn [fold_left map]. rewrite <- IHc. reflexivity.
Qed.

(** A visit widens the box to an opaque pixel and passes a transparent
    one. *)
Lemma visit_pos (x y : Z) (box : Box) :
  pos x y = true ->
  visit png y box x =
  {| minX := Z.min x (minX box); minY := Z.min y (minY box);
     maxX := Z.max (maxX box) x; maxY := Z.max (maxY box) y |}.
Proof.
  intros Hp. unfold visit. unfold alpha_positive in Hp. rewrite Hp.
  f_equal.
  - destruct (Z.ltb_spec x (minX box)); lia.
  - destruct (Z.ltb_spec y (minY box)); lia.
  - destruct (Z.ltb_spec (maxX box) x); lia.
  - destruct (Z.ltb_spec (maxY box) y); lia.
Qed.

Lemma visit_neg (x y : Z) (box : Box) : pos x y = false -> visit png y box x = box.
Proof. intros Hp. unfold visit. unfold alpha_positive in Hp. rewrite Hp. reflexivity. Qed.

(** [scanned] holds along the loops. *)
Lemma scanned_step (seen : list (Z * Z)) (box : Box) (x y : Z) :
  0 <= x < W -> 0 <= y < H ->
  scanned png seen box -> scanned png (seen ++ [(x, y)]) (visit png y box x).
Proof.
  intros Hx Hy [Hin Hcase].
  destruct (pos x y) eqn:Hp.
  - rewrite (visit_pos x y box Hp). split.
    + intros x' y' Hi Hp'. cbn [minX minY maxX maxY].
      apply in_app_or in Hi. destruct Hi as [Hi|[E|[]]].
      * specialize (Hin x' y' Hi Hp'). lia.
      * inversion E; subst x' y'. lia.
    + right. cbn [minX minY maxX maxY].
      destruct Hcase as [[Hnone ->]|[[y1 [I1 P1]] [[y2 [I2 P2]] [[x3 [I3 P3]] [x4 [I4 P4]]]]]].
      * unfold init, initialBox. fold W H. cbn [minX minY maxX maxY].
        rewrite (Z.min_l x W), (Z.min_l y H), (Z.max_r (-1) x), (Z.max_r (-1) y) by lia.
        repeat split; eexists; (split; [apply in_or_app; right; left; reflexivity|exact Hp]).
      * repeat split.
        -- destruct (Z.min_spec x (minX box)) as [[_ ->]|[_ ->]].
           ++ exists y. split; [apply in_or_app; right; left; reflexivity|exact Hp].
           ++ exists y1. split; [apply in_or_app; left; exact I1|exact P1].
        -- destruct (Z.max_spec (maxX box) x) as [[_ ->]|[_ ->]].
           ++ exists y. split; [apply in_or_app; right; left; reflexivity|exact Hp].
           ++ exists y2. split; [apply in_or_app; left; exact I2|exact P2].
        -- destruct (Z.min_spec y (minY box)) as [[_ ->]|[_ ->]].
           ++ exists x. split; [apply in_or_app; right; left; reflexivity|exact Hp].
           ++ exists x3. split; [apply in_or_app; left; exact I3|exact P3].
        -- destruct (Z.max_spec (maxY box) y) as [[_ ->]|[_ ->]].
           ++ exists x. split; [apply in_or_app; right; left; reflexivity|exact Hp].
           ++ exists x4. split; [apply in_or_app; left; exact I4|exact P4].
  - rewrite (visit_neg x y box Hp). split.
    + intros x' y' Hi Hp'. apply in_app_or in Hi. destruct Hi as [Hi|[E|[]]].
      * exact (Hin x' y' Hi Hp').
      * inversion E; subst x' y'. congruence.
    + destruct Hcase as [[Hnone ->]|[[y1 [I1 P1]] [[y2 [I2 P2]] [[x3 [I3 P3]] [x4 [I4 P4]]]]]].
      * left. split; [|reflexivity]. intros x' y' Hi.
        apply in_app_or in Hi. destruct Hi as [Hi|[E|[]]].
        -- exact (Hnone x' y' Hi).
        -- inversion E; subst x' y'. exact Hp.
      * right. repeat split; eexists; (split; [apply in_or_app; left; eassumption|assumption]).
Qed.

Lemma scanned_fold (rest seen : list (Z * Z)) (box : Box) :
  (forall x y, In (x, y) rest -> 0 <= x < W /\ 0 <= y < H) ->
  scanned png seen box ->
  scanned png (seen ++ rest)
          (fold_left (fun box p => visit png (snd p) box (fst p)) rest box).
Proof.
  revert seen box. induction rest as [|[x y] rest IH]; intros seen box Hr Hs.
  - rewrite app_nil_r. exact Hs.
  - cbn [fold_left fst snd].
    replace (seen ++ (x, y) :: rest) with ((seen ++ [(x, y)]) ++ rest)
      by (rewrite <- app_assoc; reflexivity).
    destruct (Hr x y (or_introl eq_refl)) as [Hx Hy].
    apply IH.
    + intros x' y' Hi. apply Hr. right. exact Hi.
    + apply scanned_step; assumption.
Qed.

Lemma scanned_all : scanned png (pixels png) (scan png).
Proof.
  rewrite scan_pixels.
  apply (scanned_fold (pixels png) [] init).
  - intros x y Hi. apply in_pixels. exact Hi.
  - split; [intros x y []|]. left. split; [intros x y []|reflexivity].
Qed.

(** The opaque pixels are the visited pixels of positive alpha. *)
Lemma opaque_pos (x y : Z) : opaque png x y <-> In (x, y) (pixels png) /\ pos x y = true.
Proof.
  unfold opaque. fold W H. rewrite in_pixels. tauto.
Qed.

(** With an opaque pixel in the image, the scan ends on the tightest box
    around the opaque pixels. *)
Lemma scan_tight : (exists x y, opaque png x y) -> tight png (scan png).
Proof.
  intros [x0 [y0 Ho]]. apply opaque_pos in Ho. destruct Ho as [Hi0 Hp0].
  destruct scanned_all as [Hin Hcase].
  destruct Hcase as [[Hnone _]|[[y1 [I1 P1]] [[y2 [I2 P2]] [[x3 [I3 P3]] [x4 [I4 P4]]]]]].
  - specialize (Hnone x0 y0 Hi0). congruence.
  - split; [|repeat split].
    + intros x y Ho. apply opaque_pos in Ho. destruct Ho. apply Hin; assumption.
    + exists y1. apply opaque_pos. split; assumption.
    + exists y2. apply opaque_pos. split; assumption.
    + exists x3. apply opaque_pos. split; assumption.
    + exists x4. apply opaque_pos. split; assumption.
Qed.

(** Without one, the locals keep their initial values. *)
Lemma scan_empty : (forall x y, ~ opaque png x y) -> scan png = init.
Proof.
  intros Hno. destruct scanned_all as [_ Hcase].
  destruct Hcase as [[_ E]|[[y1 [I1 P1]] _]]; [exact E|].
  exfalso. apply (Hno (minX (scan png)) y1). apply opaque_pos. split; assumption.
Qed.

(** A tight box is not the initial one: the test for an empty mask fails. *)
Lemma tight_found (box : Box) :
  tight png box -> (maxX box =? -1) || (maxY box =? -1) = false.
Proof.
  intros [Hall [[y1 Ho] _]].
  pose proof (Hall _ _ Ho) as Hb. destruct Ho as [Hx [Hy _]].
  apply orb_false_iff. split; apply Z.eqb_neq; lia.
Qed.

End Scan.

(* ================================================================= *)
(** * Facts about the confidence *)

Section Confidence.

#[local] Open Scope Q_scope.

(** The floor of a number between two consecutive integers. *)
Lemma Qfloor_unique (t : Q) (n : Z) :
  inject_Z n <= t -> t < inject_Z (n + 1) -> Qfloor t = n.
Proof.
  intros Hlo Hhi.
  pose proof (Qfloor_le t) as F1. pose proof (Qlt_floor t) as F2.
  assert (A : (n < Qfloor t + 1)%Z) by (rewrite Zlt_Qlt; lra).
  assert (B : (Qfloor t < n + 1)%Z) by (rewrite Zlt_Qlt; lra).
  lia.
Qed.

(** The doubles [0.1] and [0.99]. *)
Lemma lit_010 : lit (1 # 10) = 3602879701896397 # 36028797018963968.
Proof. vm_compute. reflexivity. Qed.

Lemma lit_099 : lit (99 # 100) = 4458563631096791 # 4503599627370496.
Proof. vm_compute. reflexivity. Qed.

(** The confidence is the score clamped to [0.10, 0.99] and rounded to
    two decimals, as a double: the doubles [0.1] and [0.99] the code
    clamps to round to the same hundredths as the exact bounds do. *)
Lemma clampConfidence_spec (score : Q) :
  clampConfidence score = lit (round2 (clamp (10 # 100) (99 # 100) score)).
Proof.
  unfold clampConfidence. rewrite lit_010, lit_099.
  unfold toFixed2, round2, clamp, Math_min, Math_max, lit.
  set (c01 := 3602879701896397 # 36028797018963968).
  set (c99 := 4458563631096791 # 4503599627370496).
  set (v := Qmin (Qmax score c01) c99).
  set (v' := Qmin (Qmax score (10 # 100)) (99 # 100)).
  assert (Hv : c01 <= v <= c99).
  { unfold v. split.
    - apply Q.min_glb; [apply Q.le_max_r|]. unfold c01, c99. lra.
    - apply Q.le_min_r. }
  assert (Hpos : Qle_bool 0 v = true) by (apply Qle_bool_iff; unfold c01 in Hv; lra).
  rewrite Hpos. f_equal. f_equal.
  rewrite (Qabs_pos v) by (unfold c01 in Hv; lra).
  destruct (Qlt_le_dec score c01) as [L1|L1].
  - assert (Ev : v == c01).
    { unfold v. rewrite (Q.max_r score c01) by lra.
      apply Q.min_l. unfold c01, c99. lra. }
    rewrite Ev.
    transitivity 10%Z; [reflexivity|symmetry].
    destruct (Qlt_le_dec score (10 # 100)) as [L0|L0].
    + assert (Ev' : v' == 10 # 100).
      { unfold v'. rewrite (Q.max_r score (10 # 100)) by lra.
        apply Q.min_l. lra. }
      rewrite Ev'. reflexivity.
    + assert (Ev' : v' == score).
      { unfold v'. rewrite (Q.max_l score (10 # 100)) by lra.
        apply Q.min_l. unfold c01 in L1. lra. }
      rewrite Ev'. apply Qfloor_unique.
      * change (inject_Z 10) with 10. lra.
      * change (inject_Z (10 + 1)) with 11. unfold c01 in L1. lra.
  - destruct (Qlt_le_dec c99 score) as [L2|L2].
    + assert (Ev : v == c99).
      { unfold v. rewrite (Q.max_l score c01) by lra. apply Q.min_r. lra. }
      rewrite Ev.
      transitivity 99%Z; [reflexivity|symmetry].
      destruct (Qlt_le_dec score (99 # 100)) as [L3|L3].
      * assert (Ev' : v' == score).
        { unfold v'. rewrite (Q.max_l score (10 # 100)) by (unfold c01 in L1; lra).
          apply Q.min_l. lra. }
        rewrite Ev'. apply Qfloor_unique.
        -- change (inject_Z 99) with 99. unfold c99 in L2. lra.
        -- change (inject_Z (99 + 1)) with 100. lra.
      * assert (Ev' : v' == 99 # 100).
        { unfold v'. rewrite (Q.max_l score (10 # 100)) by (unfold c01 in L1; lra).
          apply Q.min_r. lra. }
        rewrite Ev'. reflexivity.
    + assert (Ev : v == score).
      { unfold v. rewrite (Q.max_l score c01) by lra. apply Q.min_l. lra. }
      assert (Ev' : v' == score).
      { unfold v'. rewrite (Q.max_l score (10 # 100)) by (unfold c01 in L1; lra).
        apply Q.min_l. unfold c99 in L2. lra. }
      rewrite Ev, Ev'. reflexivity.
Qed.

(** The confidence does not depend on how the score is written. *)
Lemma clampConfidence_comp (s s' : Q) : s == s' -> clampConfidence s = clampConfidence s'.
Proof.
  intros E. rewrite !clampConfidence_spec. unfold round2, clamp.
  rewrite E. reflexivity.
Qed.

End Confidence.

(* ================================================================= *)
(** * Facts about the extractor *)

Section ExtractorFacts.

Variable PNG_sync_read : Buffer -> completion PNG.
Variable Buffer_from_base64 : string -> Buffer.

#[local] Abbreviation extract := (maskToBoundary PNG_sync_read).

(** On a decoded image with an opaque pixel the extractor returns a
    detection, built from the box of the scan. *)
Lemma maskToBoundary_found (maskBuffer : Buffer) (png : PNG) (label : string)
  (score : Q) (pageIndex idx : Z) (customTypes : list RoomTypeDefinition) :
  PNG_sync_read maskBuffer = Normal png ->
  (exists x y, opaque png x y) ->
  extract maskBuffer label score pageIndex idx customTypes
  = Normal (Some
      {| rd_id := ("hf-room-" ++ Str.of_Z pageIndex ++ "-" ++ Str.of_Z idx)%string;
         rd_label := labelToRoomType label;
         rd_type := labelToRoomType label;
         rd_confidence := Num (clampConfidence score);
         rd_boundary := boundaryOf png (scan png);
         rd_color := getRoomColor (labelToRoomType label) customTypes;
         rd_manual := None |}).
Proof.
  intros Hread Hex. unfold maskToBoundary. rewrite Hread.
  cbn [cbind try_catch]. cbv zeta.
  rewrite (tight_found png _ (scan_tight png Hex)). reflexivity.
Qed.

(** On a decoded image without one it returns [null]. *)
Lemma maskToBoundary_empty (maskBuffer : Buffer) (png : PNG) (label : string)
  (score : Q) (pageIndex idx : Z) (customTypes : list RoomTypeDefinition) :
  PNG_sync_read maskBuffer = Normal png ->
  (forall x y, ~ opaque png x y) ->
  extract maskBuffer label score pageIndex idx customTypes = Normal None.
Proof.
  intros Hread Hno. unfold maskToBoundary. rewrite Hread.
  cbn [cbind try_catch]. cbv zeta.
  rewrite (scan_empty png Hno). reflexivity.
Qed.

(** When the decoder throws, the handler returns [null]. *)
Lemma maskToBoundary_undecodable (maskBuffer : Buffer) (e : exn) (label : string)
  (score : Q) (pageIndex idx : Z) (customTypes : list RoomTypeDefinition) :
  PNG_sync_read maskBuffer = Throw e ->
  extract maskBuffer label score pageIndex idx customTypes = Normal None.
Proof.
  intros Hread. unfold maskToBoundary. rewrite Hread. reflexivity.
Qed.

(** It never throws. *)
Lemma maskToBoundary_returns (maskBuffer : Buffer) (label : string)
  (score : Q) (pageIndex idx : Z) (customTypes : list RoomTypeDefinition) :
  exists result : option RoomDetection,
    extract maskBuffer label score pageIndex idx customTypes = Normal result.
Proof.
  unfold maskToBoundary.
  destruct (PNG_sync_read maskBuffer) as [png|e]; cbn [cbind try_catch]; cbv zeta.
  - destruct (_ || _); eexists; reflexivity.
  - eexists; reflexivity.
Qed.

(** A detection can only come from a decoded image with an opaque pixel. *)
Lemma maskToBoundary_some (maskBuffer : Buffer) (label : string)
  (score : Q) (pageIndex idx : Z) (customTypes : list RoomTypeDefinition)
  (d : RoomDetection) :
  extract maskBuffer label score pageIndex idx customTypes = Normal (Some d) ->
  rd_confidence d = Num (clampConfidence score).
Proof.
  unfold maskToBoundary.
  destruct (PNG_sync_read maskBuffer) as [png|e]; cbn [cbind try_catch]; cbv zeta.
  - destruct (_ || _); intros E; inversion E. reflexivity.
  - intros E; inversion E.
Qed.


(** The segment loop never throws either. *)
Lemma analyzeSegments_returns (segments : list Segment) :
  forall (idx pageIndex : Z) (customTypes : list RoomTypeDefinition)
         (detections : list RoomDetection),
  exists found : list RoomDetection,
    analyzeSegments PNG_sync_read Buffer_from_base64 segments idx pageIndex
      customTypes detections = Normal found.
Proof.
  induction segments as [|segment rest IH]; intros idx pageIndex customTypes detections.
  - exists detections. reflexivity.
  - cbn [analyzeSegments]. cbv zeta.
    destruct (seg_mask segment) as [mask|]; [|apply IH].
    destruct (toPngBuffer Buffer_from_base64 mask) as [maskBuffer|]; [|apply IH].
    destruct (length maskBuffer =? 0)%nat; [apply IH|].
    match goal with
    | |- context [maskToBoundary _ ?b ?l ?s ?p ?i ?c] =>
        destruct (maskToBoundary_returns b l s p i c) as [[d|] ->]
    end; cbn [cbind]; apply IH.
Qed.

(** The loop over a list in two parts is the loop over the first part
    followed by the loop over the second. *)
Lemma analyzeSegments_app (before after : list Segment) :
  forall (idx pageIndex : Z) (customTypes : list RoomTypeDefinition)
         (detections : list RoomDetection),
    analyzeSegments PNG_sync_read Buffer_from_base64 (before ++ after) idx
      pageIndex customTypes detections
    = cbind (analyzeSegments PNG_sync_read Buffer_from_base64 before idx
               pageIndex customTypes detections)
            (analyzeSegments PNG_sync_read Buffer_from_base64 after
               (idx + Z.of_nat (length before)) pageIndex customTypes).
Proof.
  induction before as [|segment rest IH]; intros idx pageIndex customTypes detections.
  - cbn [app length cbind analyzeSegments]. rewrite Z.add_0_r. reflexivity.
  - cbn [app analyzeSegments]. cbv zeta.
    replace (idx + Z.of_nat (length (segment :: rest)))
      with (idx + 1 + Z.of_nat (length rest)) by (cbn [length]; lia).
    destruct (seg_mask segment) as [mask|]; [|apply IH].
    destruct (toPngBuffer Buffer_from_base64 mask) as [maskBuffer|]; [|apply IH].
    destruct (length maskBuffer =? 0)%nat; [apply IH|].
    match goal with
    | |- context [maskToBoundary _ ?b ?l ?s ?p ?i ?c] =>
        destruct (maskToBoundary_returns b l s p i c) as [[d|] ->]
    end; cbn [cbind]; apply IH.
Qed.

(** A segment whose mask does not decode is passed over. *)
Lemma analyzeSegments_skip (segment : Segment) (rest : list Segment)
  (mask : string) (maskBuffer : Buffer) (e : exn)
  (idx pageIndex : Z) (customTypes : list RoomTypeDefinition)
  (detections : list RoomDetection) :
  seg_mask segment = Some mask ->
  toPngBuffer Buffer_from_base64 mask = Some maskBuffer ->
  PNG_sync_read maskBuffer = Throw e ->
  analyzeSegments PNG_sync_read Buffer_from_base64 (segment :: rest) idx
    pageIndex customTypes detections
  = analyzeSegments PNG_sync_read Buffer_from_base64 rest (idx + 1)
      pageIndex customTypes detections.
Proof.
  intros Hmask Hbuf Hread. cbn [analyzeSegments]. cbv zeta.
  rewrite Hmask, Hbuf.
  destruct (length maskBuffer =? 0)%nat; [reflexivity|].
  rewrite (maskToBoundary_undecodable _ e) by exact Hread.
  reflexivity.
Qed.

(** There is one tight box. *)
Lemma tight_unique (png : PNG) (b1 b2 : Box) : tight png b1 -> tight png b2 -> b1 = b2.
Proof.
  intros [A1 [[y1 L1] [[y2 R1] [[x3 T1] [x4 B1]]]]]
         [A2 [[y1' L2] [[y2' R2] [[x3' T2] [x4' B2]]]]].
  pose proof (A1 _ _ L2). pose proof (A1 _ _ R2).
  pose proof (A1 _ _ T2). pose proof (A1 _ _ B2).
  pose proof (A2 _ _ L1). pose proof (A2 _ _ R1).
  pose proof (A2 _ _ T1). pose proof (A2 _ _ B1).
  destruct b1, b2. cbn [minX minY maxX maxY] in *. f_equal; lia.
Qed.

(** The box of a single opaque pixel is that pixel. *)
Lemma tight_single (png : PNG) (box : Box) (px py : Z) :
  (forall x y, opaque png x y -> x = px /\ y = py) ->
  tight png box ->
  box = {| minX := px; minY := py; maxX := px; maxY := py |}.
Proof.
  intros Hone [_ [[y1 L] [[y2 R] [[x3 T] [x4 B]]]]].
  apply Hone in L, R, T, B. destruct box. cbn [minX minY maxX maxY] in *.
  f_equal; lia.
Qed.

(** Quotients by the width or height: of zero, and of growing numbers. *)
Lemma fdiv_0 (w : Z) : fdiv (inject_Z 0) (inject_Z w) = 0%Q.
Proof. unfold fdiv. apply round64_0. unfold Qdiv. ring. Qed.

Lemma fdiv_mono (a b w : Z) :
  0 < w -> a <= b -> (fdiv (inject_Z a) (inject_Z w) <= fdiv (inject_Z b) (inject_Z w))%Q.
Proof.
  intros Hw Hab. unfold fdiv. apply round64_mono.
  apply Qmult_le_compat_r.
  - rewrite <- Zle_Qle. exact Hab.
  - apply Qlt_le_weak, Qinv_lt_0_compat.
    change 0%Q with (inject_Z 0). rewrite <- Zlt_Qlt. exact Hw.
Qed.

(** C2, as amended.  For every mask that decodes and has a pixel of alpha
    greater than zero, the extractor returns a detection whose boundary
    is built from the tightest box of pixel coordinates, normalised by
    the size of the image: with [minX], [minY], [maxX], [maxY] the least
    and greatest coordinates of the pixels of positive alpha,
    [x = minX / width], [y = minY / height], and the width and the height
    are the distances [(maxX - minX) / width] and [(maxY - minY) / height]
    between the first and the last such column and row, raised to 0.05
    when smaller.  The box so reaches from its origin to the near edge of
    every such pixel, and need not hold the last such column and row
    themselves. *)
Theorem maskToBoundary_tightest_box (maskBuffer : Buffer) (png : PNG)
  (label : string) (score : Q) (pageIndex idx : Z)
  (customTypes : list RoomTypeDefinition) :
  PNG_sync_read maskBuffer = Normal png ->
  (exists x y, opaque png x y) ->
  exists (d : RoomDetection) (box : Box),
    extract maskBuffer label score pageIndex idx customTypes = Normal (Some d) /\
    tight png box /\
    (forall box', tight png box' -> box' = box) /\
    b_x (rd_boundary d) = fdiv (inject_Z (minX box)) (inject_Z (png_width png)) /\
    b_y (rd_boundary d) = fdiv (inject_Z (minY box)) (inject_Z (png_height png)) /\
    b_width (rd_boundary d)
    = Math_max (fdiv (inject_Z (maxX box - minX box)) (inject_Z (png_width png)))
               (lit (5 # 100)) /\
    b_height (rd_boundary d)
    = Math_max (fdiv (inject_Z (maxY box - minY box)) (inject_Z (png_height png)))
               (lit (5 # 100)) /\
    (forall x y, opaque png x y ->
       (fdiv (inject_Z (x - minX box)) (inject_Z (png_width png))
        <= b_width (rd_boundary d))%Q /\
       (fdiv (inject_Z (y - minY box)) (inject_Z (png_height png))
        <= b_height (rd_boundary d))%Q) /\
    (5 # 100 <= b_width (rd_boundary d))%Q /\
    (5 # 100 <= b_height (rd_boundary d))%Q.
Proof.
  intros Hread Hex.
  pose proof (scan_tight png Hex) as Ht.
  eexists. exists (scan png).
  split; [apply maskToBoundary_found; eassumption|].
  split; [exact Ht|].
  split; [intros box' Ht'; apply (tight_unique png); assumption|].
  cbn [rd_boundary boundaryOf b_x b_y b_width b_height].
  do 4 (split; [reflexivity|]).
  assert (Hfloor : (5 # 100 <= lit (5 # 100))%Q)
    by (apply Qle_bool_iff; vm_compute; reflexivity).
  split; [|split].
  - intros x y Ho. destruct Ht as [Hall _].
    pose proof (Hall x y Ho) as [Hx Hy]. destruct Ho as [Wx [Hy' _]].
    split.
    + eapply Qle_trans; [|apply Q.le_max_l]. apply fdiv_mono; lia.
    + eapply Qle_trans; [|apply Q.le_max_l]. apply fdiv_mono; lia.
  - eapply Qle_trans; [exact Hfloor|apply Q.le_max_r].
  - eapply Qle_trans; [exact Hfloor|apply Q.le_max_r].
Qed.

(** The detection made from a mask with a single opaque pixel. *)
Lemma maskToBoundary_single (maskBuffer : Buffer) (png : PNG)
  (label : string) (score : Q) (pageIndex idx : Z)
  (customTypes : list RoomTypeDefinition) (px py : Z) :
  PNG_sync_read maskBuffer = Normal png ->
  opaque png px py ->
  (forall x y, opaque png x y -> x = px /\ y = py) ->
  exists d : RoomDetection,
    extract maskBuffer label score pageIndex idx customTypes = Normal (Some d) /\
    rd_boundary d
    = {| b_x := fdiv (inject_Z px) (inject_Z (png_width png));
         b_y := fdiv (inject_Z py) (inject_Z (png_height png));
         b_width := lit (5 # 100);
         b_height := lit (5 # 100) |}.
Proof.
  intros Hread Ho Hone.
  assert (Hex : exists x y, opaque png x y) by (exists px, py; exact Ho).
  eexists. split; [apply maskToBoundary_found; eassumption|].
  cbn [rd_boundary]. unfold boundaryOf.
  rewrite (tight_single png (scan png) px py Hone (scan_tight png Hex)).
  cbn [minX minY maxX maxY]. rewrite !Z.sub_diag, !fdiv_0.
  reflexivity.
Qed.

(** C3.  For every mask that decodes to an image with exactly one pixel
    of alpha greater than zero, at column [px] and row [py], the
    extractor returns a boundary with [x = px / width] and
    [y = py / height], left as they are, and a width and a height of at
    least 0.05: both are the double 0.05. *)
Theorem maskToBoundary_single_pixel (maskBuffer : Buffer) (png : PNG)
  (label : string) (score : Q) (pageIndex idx : Z)
  (customTypes : list RoomTypeDefinition) (px py : Z) :
  PNG_sync_read maskBuffer = Normal png ->
  opaque png px py ->
  (forall x y, opaque png x y -> x = px /\ y = py) ->
  exists d : RoomDetection,
    extract maskBuffer label score pageIndex idx customTypes = Normal (Some d) /\
    b_x (rd_boundary d) = fdiv (inject_Z px) (inject_Z (png_width png)) /\
    b_y (rd_boundary d) = fdiv (inject_Z py) (inject_Z (png_height png)) /\
    (5 # 100 <= b_width (rd_boundary d))%Q /\
    (5 # 100 <= b_height (rd_boundary d))%Q /\
    b_width (rd_boundary d) = lit (5 # 100) /\
    b_height (rd_boundary d) = lit (5 # 100).
Proof.
  intros Hread Ho Hone.
  destruct (maskToBoundary_single maskBuffer png label score pageIndex idx
              customTypes px py Hread Ho Hone) as [d [Hd Hb]].
  exists d. split; [exact Hd|]. rewrite Hb. cbn [b_x b_y b_width b_height].
  assert (Hfloor : (5 # 100 <= lit (5 # 100))%Q)
    by (apply Qle_bool_iff; vm_compute; reflexivity).
  repeat split; try reflexivity; exact Hfloor.
Qed.

(** C9.  The floor of 0.05 is applied to the width and the height, not to
    the place of the box, and the sum is not brought back under 1: for a
    mask that decodes to an image at least 21 pixels wide whose only
    opaque pixel is in the last column, the boundary returned has
    [x = (width - 1) / width], a width of 0.05 and [x + width > 1]. *)
Theorem maskToBoundary_overflows (maskBuffer : Buffer) (png : PNG)
  (label : string) (score : Q) (pageIndex idx : Z)
  (customTypes : list RoomTypeDefinition) (py : Z) :
  PNG_sync_read maskBuffer = Normal png ->
  21 <= png_width png ->
  opaque png (png_width png - 1) py ->
  (forall x y, opaque png x y -> x = png_width png - 1 /\ y = py) ->
  exists d : RoomDetection,
    extract maskBuffer label score pageIndex idx customTypes = Normal (Some d) /\
    b_x (rd_boundary d)
    = fdiv (inject_Z (png_width png - 1)) (inject_Z (png_width png)) /\
    b_width (rd_boundary d) = lit (5 # 100) /\
    (1 < b_x (rd_boundary d) + b_width (rd_boundary d))%Q.
Proof.
  intros Hread Hw Ho Hone.
  destruct (maskToBoundary_single maskBuffer png label score pageIndex idx
              customTypes _ py Hread Ho Hone) as [d [Hd Hb]].
  exists d. split; [exact Hd|]. rewrite Hb. cbn [b_x b_width].
  split; [reflexivity|]. split; [reflexivity|].
  set (w := png_width png) in *.
  assert (Hq : (20 # 21 <= inject_Z (w - 1) / inject_Z w)%Q).
  { assert (Hwq : (21 <= inject_Z w)%Q)
      by (change 21%Q with (inject_Z 21); rewrite <- Zle_Qle; exact Hw).
    apply Qle_shift_div_l; [lra|].
    unfold Z.sub. rewrite inject_Z_plus, inject_Z_opp.
    change (inject_Z 1) with 1%Q. lra. }
  apply round64_mono in Hq. fold (fdiv (inject_Z (w - 1)) (inject_Z w)) in Hq.
  assert (Hc : (1 < round64 (20 # 21) + lit (5 # 100))%Q)
    by (apply Qlt_alt; vm_compute; reflexivity).
  lra.
Qed.

(** C8.  For every score, the confidence of a detection of the extractor
    is the score clamped to [0.10, 0.99] and rounded to two decimals, as
    a double; a score of 1.5 gives 0.99 and a score of 0 gives 0.10. *)
Theorem maskToBoundary_confidence (maskBuffer : Buffer)
  (label : string) (score : Q) (pageIndex idx : Z)
  (customTypes : list RoomTypeDefinition) (d : RoomDetection) :
  extract maskBuffer label score pageIndex idx customTypes = Normal (Some d) ->
  rd_confidence d = Num (lit (round2 (clamp (10 # 100) (99 # 100) score))) /\
  ((score == 15 # 10)%Q -> rd_confidence d = Num (lit (99 # 100))) /\
  ((score == 0)%Q -> rd_confidence d = Num (lit (10 # 100))).
Proof.
  intros Hd. apply maskToBoundary_some in Hd. rewrite Hd.
  split; [rewrite clampConfidence_spec; reflexivity|].
  split; intros E; rewrite (clampConfidence_comp _ _ E); vm_compute; reflexivity.
Qed.

(** C6.  The extractor fails closed: it returns [null] for a buffer the
    decoder refuses and for an image without a pixel of alpha greater
    than zero, it never throws, and a segment whose mask does not decode
    is passed over by the loop, which goes on with the segments after it. *)
Theorem maskToBoundary_fails_closed :
  (forall maskBuffer e label score pageIndex idx customTypes,
     PNG_sync_read maskBuffer = Throw e ->
     extract maskBuffer label score pageIndex idx customTypes = Normal None) /\
  (forall maskBuffer png label score pageIndex idx customTypes,
     PNG_sync_read maskBuffer = Normal png ->
     (forall x y, ~ opaque png x y) ->
     extract maskBuffer label score pageIndex idx customTypes = Normal None) /\
  (forall maskBuffer label score pageIndex idx customTypes,
     exists result,
       extract maskBuffer label score pageIndex idx customTypes = Normal result) /\
  (forall before segment after mask maskBuffer e pageIndex customTypes,
     seg_mask segment = Some mask ->
     toPngBuffer Buffer_from_base64 mask = Some maskBuffer ->
     PNG_sync_read maskBuffer = Throw e ->
     exists found,
       analyzeSegments PNG_sync_read Buffer_from_base64 before 0 pageIndex
         customTypes [] = Normal found /\
       analyzeSegments PNG_sync_read Buffer_from_base64
         (before ++ segment :: after) 0 pageIndex customTypes []
       = analyzeSegments PNG_sync_read Buffer_from_base64 after
           (Z.of_nat (length before) + 1) pageIndex customTypes found).
Proof.
  split; [|split; [|split]].
  - intros. eapply maskToBoundary_undecodable; eassumption.
  - intros. eapply maskToBoundary_empty; eassumption.
  - intros. apply maskToBoundary_returns.
  - intros before segment after mask maskBuffer e pageIndex customTypes
           Hmask Hbuf Hread.
    destruct (analyzeSegments_returns before 0 pageIndex customTypes [])
      as [found Hfound].
    exists found. split; [exact Hfound|].
    rewrite analyzeSegments_app, Hfound. cbn [cbind].
    rewrite (analyzeSegments_skip segment after mask maskBuffer e) by assumption.
    rewrite Z.add_0_l. reflexivity.
Qed.

End ExtractorFacts.

(* ================================================================= *)
(** * Facts about labels and colors *)

Section Labels.

#[local] Open Scope string_scope.

(** [startsWith] is the test for a prefix. *)
Lemma startsWith_spec (s p : string) :
  Str.startsWith s p = true <-> exists post, s = p ++ post.
Proof.
  unfold Str.startsWith. revert s. induction p as [|c p IH]; intros s.
  - split; [intros _; exists s; reflexivity|].
    intros _. destruct s; reflexivity.
  - destruct s as [|c' s]; cbn.
    + split; [discriminate|]. intros [post E]. discriminate E.
    + destruct (Ascii.ascii_dec c c') as [->|N].
      * rewrite IH. split; intros [post E]; exists post.
        -- rewrite E. reflexivity.
        -- inversion E. reflexivity.
      * split; [discriminate|]. intros [post E]. inversion E. congruence.
Qed.


(** The chain of tests is the rule table read from the top. *)
Lemma labelToRoomType_table (label : string) :
  labelToRoomType label = labelByRules label.
Proof.
  unfold labelToRoomType, labelByRules, labelRules, rule_matches.
  cbn [List.find existsb fst snd].
  set (n := Str.toLowerCase label).
  repeat match goal with
         | |- context [Str.includes n ?k] => destruct (Str.includes n k)
         end; reflexivity.
Qed.

(** [find] finds nothing where the test fails everywhere. *)
Lemma find_none_all {A} (f : A -> bool) (l : list A) :
  (forall a, In a l -> f a = false) -> List.find f l = None.
Proof.
  induction l as [|a l IH]; intros Hall; [reflexivity|].
  cbn [List.find]. rewrite (Hall a (or_introl eq_refl)).
  apply IH. intros b Hb. apply Hall. right. exact Hb.
Qed.





(** No definition is found for a key that is no label. *)
Lemma find_none_label (type : string) (defs : list RoomTypeDefinition) :
  (forall def, In def defs -> def_label def <> type) ->
  List.find (fun def => String.eqb (def_label def) type) defs = None.
Proof.
  intros Hno. apply find_none_all. intros def Hin.
  apply String.eqb_neq. apply Hno. exact Hin.
Qed.

(** The color of a key that is the label of a base type is the color of
    that base type, whatever the custom types. *)
Lemma getRoomColor_base (def : RoomTypeDefinition)
  (customTypes : list RoomTypeDefinition) :
  In def baseRoomTypes ->
  getRoomColor (def_label def) customTypes = def_color def.
Proof.
  intros Hin. unfold baseRoomTypes in Hin. cbn [In] in Hin.
  repeat (destruct Hin as [<-|Hin]; [reflexivity|]). destruct Hin.
Qed.

(** No base type is gray. *)
Lemma base_not_gray (def : RoomTypeDefinition) :
  In def baseRoomTypes -> def_color def <> "#94A3B8".
Proof.
  intros Hin. unfold baseRoomTypes in Hin. cbn [In] in Hin.
  repeat (destruct Hin as [<-|Hin]; [discriminate|]). destruct Hin.
Qed.

(** The color of a key that is no base label is the color of the first
    custom type with that label, and gray when there is none. *)
Lemma getRoomColor_custom (type : string) (customTypes : list RoomTypeDefinition) :
  (forall def, In def baseRoomTypes -> def_label def <> type) ->
  getRoomColor type customTypes
  = match List.find (fun def => String.eqb (def_label def) type) customTypes with
    | Some def => def_color def
    | None => "#94A3B8"
    end.
Proof.
  intros Hno. unfold getRoomColor. cbv zeta.
  rewrite (find_none_label type baseRoomTypes Hno). reflexivity.
Qed.

(** C10, as amended.  [getRoomColor] gives the base palette precedence: a
    key that is the label of a base type gets the color of that type,
    also when a custom type has the same label and another color.  The
    gray "#94A3B8" is returned whenever the key is neither a base label
    nor a custom label; when it is returned, the key is no base label,
    and is a custom label only if a custom type with that label is
    itself gray. *)
Theorem getRoomColor_precedence :
  (forall def customTypes,
     In def baseRoomTypes ->
     getRoomColor (def_label def) customTypes = def_color def) /\
  (forall type customTypes,
     (forall def, In def baseRoomTypes -> def_label def <> type) ->
     (forall def, In def customTypes -> def_label def <> type) ->
     getRoomColor type customTypes = "#94A3B8") /\
  (forall type customTypes,
     getRoomColor type customTypes = "#94A3B8" ->
     (forall def, In def baseRoomTypes -> def_label def <> type) /\
     ((forall def, In def customTypes -> def_label def <> type) \/
      (exists def, In def customTypes /\ def_label def = type /\
                   def_color def = "#94A3B8"))).
Proof.
  split; [exact getRoomColor_base|]. split.
  - intros type customTypes Hb Hc. rewrite (getRoomColor_custom _ _ Hb).
    rewrite (find_none_label type customTypes Hc). reflexivity.
  - intros type customTypes Hg.
    assert (Hb : forall def, In def baseRoomTypes -> def_label def <> type).
    { intros def Hin E. subst type. rewrite (getRoomColor_base _ _ Hin) in Hg.
      exact (base_not_gray def Hin Hg). }
    split; [exact Hb|].
    rewrite (getRoomColor_custom _ _ Hb) in Hg.
    destruct (List.find _ customTypes) as [def|] eqn:F.
    + right. exists def. apply List.find_some in F. destruct F as [Hin Heq].
      apply String.eqb_eq in Heq. repeat split; assumption.
    + left. intros def Hin E.
      pose proof (List.find_none _ _ F def Hin) as Hn. cbv beta in Hn.
      apply String.eqb_neq in Hn. contradiction.
Qed.

(** C10, as stated, fails: a custom type may itself be gray, and then
    gray is returned for a key that is a custom label. *)
Lemma getRoomColor_gray_custom :
  getRoomColor "Den" [mkDef "Den" "#94A3B8"] = "#94A3B8" /\
  (exists def, In def [mkDef "Den" "#94A3B8"] /\ def_label def = "Den").
Proof.
  split; [reflexivity|]. exists (mkDef "Den" "#94A3B8").
  split; [left; reflexivity|reflexivity].
Qed.

End Labels.

(* ================================================================= *)
(** * The extractor on example masks *)

Section Examples.

(** A test on every pixel of the image settles a property of the opaque
    ones. *)
Lemma opaque_checked (png : PNG) (ok : Z -> Z -> bool) :
  forallb (fun p => implb (alpha_positive png (fst p) (snd p)) (ok (fst p) (snd p)))
          (pixels png) = true ->
  forall x y, opaque png x y -> ok x y = true.
Proof.
  intros Hall x y Ho. apply opaque_pos in Ho. destruct Ho as [Hin Hp].
  rewrite forallb_forall in Hall. specialize (Hall (x, y) Hin).
  cbn [fst snd] in Hall. rewrite Hp in Hall. exact Hall.
Qed.

Lemma nowhere_opaque (png : PNG) :
  forallb (fun p => negb (alpha_positive png (fst p) (snd p))) (pixels png) = true ->
  forall x y, ~ opaque png x y.
Proof.
  intros Hall x y Ho. apply opaque_pos in Ho. destruct Ho as [Hin Hp].
  rewrite forallb_forall in Hall. specialize (Hall (x, y) Hin).
  cbn [fst snd] in Hall. rewrite Hp in Hall. discriminate Hall.
Qed.

Lemma only_opaque (png : PNG) (px py : Z) :
  forallb (fun p => implb (alpha_positive png (fst p) (snd p))
                          ((fst p =? px) && (snd p =? py)))
          (pixels png) = true ->
  forall x y, opaque png x y -> x = px /\ y = py.
Proof.
  intros Hall x y Ho.
  apply (opaque_checked png (fun x y => (x =? px) && (y =? py)) Hall) in Ho.
  apply andb_true_iff in Ho. destruct Ho as [Hx Hy].
  apply Z.eqb_eq in Hx, Hy. split; assumption.
Qed.

End Examples.

(** A mask of 4 by 3 pixels, opaque at (1, 0) and (2, 2). *)
Lemma maskToBoundary_tightest_box_witness :
  exists d : RoomDetection,
    maskToBoundary read_raw
      (raw_mask 4 3 (fun x y => (x =? 1) && (y =? 0) || (x =? 2) && (y =? 2)))
      "bedroom 2" (87 # 100) 0 0 [] = Normal (Some d) /\
    rd_boundary d = mkBoundary (1 # 4) 0 (1 # 4) (6004799503160661 # 9007199254740992).
Proof.
  set (on := fun x y => (x =? 1) && (y =? 0) || (x =? 2) && (y =? 2)).
  destruct (maskToBoundary_tightest_box read_raw (raw_mask 4 3 on)
              (mkPNG 4 3 (drop 2 (raw_mask 4 3 on)))
              "bedroom 2" (87 # 100) 0 0 [])
    as [d [box [Hd _]]].
  - vm_compute. reflexivity.
  - exists 1, 0. unfold opaque. cbn [png_width png_height].
    split; [lia|]. split; [lia|]. vm_compute. reflexivity.
  - exists d. split; [exact Hd|].
    vm_compute in Hd. inversion Hd. reflexivity.
Defined.

(** A mask of 4 by 3 pixels, opaque at (2, 1) only. *)
Lemma maskToBoundary_single_pixel_witness :
  exists d : RoomDetection,
    maskToBoundary read_raw (raw_mask 4 3 (fun x y => (x =? 2) && (y =? 1)))
      "Server Room" (1 # 2) 0 0 [] = Normal (Some d) /\
    b_x (rd_boundary d) = (1 # 2)%Q /\
    b_width (rd_boundary d) = lit (5 # 100).
Proof.
  set (on := fun x y => (x =? 2) && (y =? 1)).
  destruct (maskToBoundary_single_pixel read_raw (raw_mask 4 3 on)
              (mkPNG 4 3 (drop 2 (raw_mask 4 3 on)))
              "Server Room" (1 # 2) 0 0 [] 2 1)
    as [d [Hd [Hx [_ [_ [_ [Hw _]]]]]]].
  - vm_compute. reflexivity.
  - unfold opaque. cbn [png_width png_height].
    split; [lia|]. split; [lia|]. vm_compute. reflexivity.
  - apply only_opaque. vm_compute. reflexivity.
  - exists d. split; [exact Hd|]. split; [|exact Hw].
    rewrite Hx. vm_compute. reflexivity.
Defined.

(** A mask of 100 by 2 pixels, opaque at (99, 1) only. *)
Lemma maskToBoundary_overflows_witness :
  exists d : RoomDetection,
    maskToBoundary read_raw (raw_mask 100 2 (fun x y => (x =? 99) && (y =? 1)))
      "office" (3 # 2) 3 0 [] = Normal (Some d) /\
    b_x (rd_boundary d) = lit (99 # 100) /\
    b_width (rd_boundary d) = lit (5 # 100) /\
    (1 < b_x (rd_boundary d) + b_width (rd_boundary d))%Q.
Proof.
  set (on := fun x y => (x =? 99) && (y =? 1)).
  destruct (maskToBoundary_overflows read_raw (raw_mask 100 2 on)
              (mkPNG 100 2 (drop 2 (raw_mask 100 2 on)))
              "office" (3 # 2) 3 0 [] 1)
    as [d [Hd [Hx [Hw Hsum]]]].
  - vm_compute. reflexivity.
  - cbn [png_width]. lia.
  - unfold opaque. cbn [png_width png_height].
    split; [lia|]. split; [lia|]. vm_compute. reflexivity.
  - cbn [png_width]. apply only_opaque. vm_compute. reflexivity.
  - exists d. split; [exact Hd|]. split; [|split; [exact Hw|exact Hsum]].
    rewrite Hx. vm_compute. reflexivity.
Defined.

(** A score of 1.5 on the same mask. *)
Lemma maskToBoundary_confidence_witness :
  exists d : RoomDetection,
    maskToBoundary read_raw (raw_mask 4 3 (fun x y => (x =? 2) && (y =? 1)))
      "Server Room" (3 # 2) 0 0 [] = Normal (Some d) /\
    rd_confidence d = Num (lit (99 # 100)).
Proof.
  destruct (maskToBoundary read_raw (raw_mask 4 3 (fun x y => (x =? 2) && (y =? 1)))
              "Server Room" (3 # 2) 0 0 []) as [[d|]|e] eqn:E;
    try (vm_compute in E; discriminate E).
  exists d. split; [reflexivity|].
  destruct (maskToBoundary_confidence read_raw _ _ _ _ _ _ d E) as [_ [H15 _]].
  apply H15. reflexivity.
Defined.

(** A buffer the decoder refuses, a mask without an opaque pixel, and a
    loop over three segments of which the second does not decode. *)
Lemma maskToBoundary_fails_closed_witness :
  maskToBoundary read_raw [1; 2; 3] "kitchen" (1 # 2) 0 0 [] = Normal None /\
  maskToBoundary read_raw (raw_mask 2 2 (fun _ _ => false)) "kitchen" (1 # 2) 0 0 []
  = Normal None /\
  exists found,
    analyzeSegments read_raw bytes_of [mkSegment None None None] 0 0 [] []
    = Normal found /\
    analyzeSegments read_raw bytes_of
      ([mkSegment None None None]
         ++ mkSegment (Some "not a png"%string) None None
         :: [mkSegment None (Some "hall"%string) None]) 0 0 [] []
    = analyzeSegments read_raw bytes_of
        [mkSegment None (Some "hall"%string) None] (1 + 1) 0 [] found.
Proof.
  destruct (maskToBoundary_fails_closed read_raw bytes_of) as [H1 [H2 [_ H4]]].
  split; [|split].
  - apply (H1 _ "Invalid file signature"%string). reflexivity.
  - apply (H2 _ (mkPNG 2 2 (drop 2 (raw_mask 2 2 (fun _ _ => false))))).
    + vm_compute. reflexivity.
    + apply nowhere_opaque. vm_compute. reflexivity.
  - apply (H4 [mkSegment None None None] _ _ "not a png"%string
              (bytes_of "not a png") "Invalid file signature"%string).
    + reflexivity.
    + vm_compute. reflexivity.
    + vm_compute. reflexivity.
Defined.

(** The mask of 2 by 2 pixels that is opaque everywhere: its box is
    (0, 0, 1/2, 1/2), and ends at 1/2 where the last column, which
    reaches to (1 + 1) / 2, begins. *)
Lemma maskToBoundary_misses_last_column :
  exists d : RoomDetection,
    maskToBoundary read_raw (raw_mask 2 2 (fun _ _ => true))
      "hall" (1 # 2) 0 0 [] = Normal (Some d) /\
    rd_boundary d = mkBoundary 0 0 (1 # 2) (1 # 2) /\
    opaque (mkPNG 2 2 (drop 2 (raw_mask 2 2 (fun _ _ => true)))) 1 1 /\
    (b_x (rd_boundary d) + b_width (rd_boundary d)
     < inject_Z (1 + 1) / inject_Z 2)%Q /\
    (b_y (rd_boundary d) + b_height (rd_boundary d)
     < inject_Z (1 + 1) / inject_Z 2)%Q.
Proof.
  eexists. split; [vm_compute; reflexivity|].
  split; [reflexivity|]. split.
  - unfold opaque. cbn [png_width png_height].
    split; [lia|]. split; [lia|]. vm_compute. reflexivity.
  - split; vm_compute; reflexivity.
Defined.

(* ================================================================= *)
(** * More facts about the generator and the mock detector *)

Section MockStructure.

Lemma foldSeed_range (seed : Z) :
  Z.rem seed 2147483647 <> -2147483646 -> 1 <= foldSeed seed < 2147483647.
Proof.
  intros Hs. unfold foldSeed. cbv zeta.
  pose proof (Z.rem_bound_abs seed 2147483647 ltac:(lia)) as Hb.
  change (Z.abs 2147483647) with 2147483647 in Hb.
  destruct (Z.leb_spec (Z.rem seed 2147483647) 0); lia.
Qed.

Lemma foldSeed_zero (seed : Z) :
  Z.rem seed 2147483647 = -2147483646 -> foldSeed seed = 0.
Proof. intros Hs. unfold foldSeed. rewrite Hs. reflexivity. Qed.

Lemma seededRandom_frame (seed : Z) (h : heap) :
  seededRandom seed h = (length h, h ++ [foldSeed seed]).
Proof. reflexivity. Qed.

(** The numbers drawn by [n] calls are those of the states passed. *)
Lemma draws_frame (n : nat) : forall (h0 : heap) (value : Z),
  draws (length h0) n (h0 ++ [value])
  = (map (fun k => draw (Nat.iter k step value)) (seq 0 n),
     h0 ++ [Nat.iter n step value]).
Proof.
  induction n as [|n IH]; intros h0 value; [reflexivity|].
  cbn [draws]. unfold bind at 1. rewrite call_frame.
  unfold bind at 1. rewrite IH. unfold ret.
  cbn [seq map Nat.iter]. rewrite <- seq_shift, map_map.
  f_equal.
  - f_equal. apply map_ext. intros k. rewrite <- Nat.iter_succ_r. reflexivity.
  - rewrite <- Nat.iter_succ_r. reflexivity.
Qed.


(** The callback written out: the room made from a state of the
    generator. *)
Lemma roomFrom_eq (pageIndex : Z) (classification : ConstructionType)
  (customTypes definitions : list RoomTypeDefinition) (idx : nat) (value : Z) :
  roomFrom pageIndex classification customTypes definitions idx value
  = let selectedType :=
      select_definition definitions
        (Math_floor (fmul (draw value)
                          (inject_Z (Z.of_nat (length definitions))))) in
    let biasMap :=
      match classification with
      | residential => residentialBias
      | commercial => commercialBias
      end in
    let confidenceBase :=
      fadd (lit (65 # 100)) (fmul (draw (Nat.iter 1 step value)) (lit (3 # 10))) in
    let width :=
      fadd (lit (25 # 100)) (fmul (draw (Nat.iter 2 step value)) (lit (45 # 100))) in
    let height :=
      fadd (lit (2 # 10)) (fmul (draw (Nat.iter 3 step value)) (lit (4 # 10))) in
    {| rd_id := roomId pageIndex idx;
       rd_label :=
         default (def_label selectedType)
                 (randomRoomNames !! (idx mod length randomRoomNames)%nat);
       rd_type := def_label selectedType;
       rd_confidence :=
         ntoFixed2 (nmin (Num (lit (99 # 100)))
                         (nmul (Num confidenceBase)
                               (bias_of biasMap (def_label selectedType))));
       rd_boundary :=
         mkBoundary (fmul (draw (Nat.iter 4 step value)) (fsub 1 width))
                    (fmul (draw (Nat.iter 5 step value)) (fsub 1 height))
                    width height;
       rd_color := getRoomColor (def_label selectedType) customTypes;
       rd_manual := None |}.
Proof.
  unfold roomFrom, mockRoom, bind, ret.
  change [value] with ([] ++ [value]).
  change (call 0) with (call (length (@nil Z))).
  do 6 (rewrite call_frame; cbv beta iota).
  reflexivity.
Qed.

Lemma mockRoom_run (pageIndex : Z) (classification : ConstructionType)
  (customTypes definitions : list RoomTypeDefinition) (idx : nat) (value : Z)
  (h0 : heap) :
  mockRoom (length h0) pageIndex classification customTypes definitions idx
    (h0 ++ [value])
  = (roomFrom pageIndex classification customTypes definitions idx value,
     h0 ++ [Nat.iter 6 step value]).
Proof.
  destruct (mockRoom_frame pageIndex classification customTypes definitions
              idx value) as [room [Hrun _]].
  rewrite Hrun. unfold roomFrom.
  change [value] with ([] ++ [value]).
  change (mockRoom 0) with (mockRoom (length (@nil Z))).
  rewrite Hrun. reflexivity.
Qed.

Lemma mapM_run (pageIndex : Z) (classification : ConstructionType)
  (customTypes definitions : list RoomTypeDefinition) (idxs : list nat) :
  forall (value : Z) (h0 : heap),
    mapM (mockRoom (length h0) pageIndex classification customTypes definitions)
      idxs (h0 ++ [value])
    = (roomsFrom pageIndex classification customTypes definitions idxs value,
       h0 ++ [Nat.iter (6 * length idxs) step value]).
Proof.
  induction idxs as [|idx idxs IH]; intros value h0; [reflexivity|].
  cbn [mapM roomsFrom]. unfold bind at 1. rewrite mockRoom_run.
  unfold bind at 1. rewrite IH. unfold ret.
  replace (6 * length (idx :: idxs))%nat with (6 * length idxs + 6)%nat
    by (cbn [length]; lia).
  rewrite Nat.iter_add. reflexivity.
Qed.

(** A run of the mock detector written out. *)
Lemma mockAnalyzeRooms_run (pageIndex : Z) (classification : ConstructionType)
  (customTypes : list RoomTypeDefinition) (h : heap) :
  mockAnalyzeRooms pageIndex classification customTypes h
  = (roomsFrom pageIndex classification customTypes (baseRoomTypes ++ customTypes)
       (seq 0 (roomCountOf pageIndex)) (step (foldSeed (pageIndex + 1))),
     h ++ [Nat.iter (6 * roomCountOf pageIndex) step
             (step (foldSeed (pageIndex + 1)))]).
Proof.
  unfold mockAnalyzeRooms. unfold bind at 1. rewrite seededRandom_frame.
  unfold bind at 1. rewrite call_frame. cbv zeta.
  rewrite mapM_run, length_seq. reflexivity.
Qed.

Lemma roomCountOf_range (pageIndex : Z) : (3 <= roomCountOf pageIndex <= 5)%nat.
Proof.
  unfold roomCountOf.
  pose proof (roomCount_range (foldSeed (pageIndex + 1))
                (seed_normalised (pageIndex + 1))) as H.
  lia.
Qed.

(** The room at a place of the list. *)
Lemma roomsFrom_lookup (pageIndex : Z) (classification : ConstructionType)
  (customTypes definitions : list RoomTypeDefinition) (idxs : list nat) :
  forall (value : Z) (i : nat) (room : RoomDetection),
    roomsFrom pageIndex classification customTypes definitions idxs value !! i
    = Some room ->
    exists idx,
      idxs !! i = Some idx /\
      room = roomFrom pageIndex classification customTypes definitions idx
               (Nat.iter (6 * i) step value).
Proof.
  induction idxs as [|idx idxs IH]; intros value i room Hl; [discriminate Hl|].
  destruct i as [|i]; cbn [roomsFrom] in Hl.
  - inversion Hl. exists idx. split; reflexivity.
  - cbn in Hl. destruct (IH _ _ _ Hl) as [idx' [Hi Hr]].
    exists idx'. split; [exact Hi|].
    rewrite Hr. f_equal.
    replace (6 * S i)%nat with (6 * i + 6)%nat by lia.
    rewrite Nat.iter_add. reflexivity.
Qed.

Lemma roomsFrom_length (pageIndex : Z) (classification : ConstructionType)
  (customTypes definitions : list RoomTypeDefinition) (idxs : list nat) :
  forall value : Z,
    length (roomsFrom pageIndex classification customTypes definitions idxs value)
    = length idxs.
Proof.
  induction idxs as [|idx idxs IH]; intros value; [reflexivity|].
  cbn [roomsFrom length]. rewrite IH. reflexivity.
Qed.

End MockStructure.

Section MockExtras.

#[local] Open Scope Q_scope.

(** Bias tables hold factors of at least 1. *)
Lemma bias_of_cases (classification : ConstructionType) (key : string) :
  let biasMap :=
    match classification with
    | residential => residentialBias
    | commercial => commercialBias
    end in
  (bias_of biasMap key = NaN /\ In key Object_prototype_keys) \/
  (exists b, bias_of biasMap key = Num b /\ 1 <= b).
Proof.
  cbv zeta. unfold bias_of.
  destruct (_ !! key) as [b|] eqn:Hl.
  - right. exists b. split; [reflexivity|].
    destruct classification; unfold residentialBias, commercialBias in Hl;
      repeat (apply lookup_insert_Some in Hl; destruct Hl as [[_ <-]|[_ Hl]];
              [apply Qle_bool_iff; vm_compute; reflexivity|]);
      apply lookup_singleton_Some in Hl; destruct Hl as [_ <-];
      apply Qle_bool_iff; vm_compute; reflexivity.
  - destruct (existsb (String.eqb key) Object_prototype_keys) eqn:He.
    + left. split; [reflexivity|].
      apply existsb_exists in He. destruct He as [k [Hin Hk]].
      apply String.eqb_eq in Hk. subst k. exact Hin.
    + right. exists 1. split; [reflexivity|]. apply Qle_refl.
Qed.

(** [Number(Math.min(0.99, (0.65 + rand() * 0.3) * bias).toFixed(2))] for a
    bias of at least 1 is a number of hundredths between 0.65 and 0.99. *)
Lemma confidence_range (r b : Q) :
  0 <= r <= 4294967295 # 4294967296 -> 1 <= b ->
  exists n : Z,
    (65 <= n <= 99)%Z /\
    toFixed2 (Math_min (lit (99 # 100))
                       (fmul (fadd (lit (65 # 100)) (fmul r (lit (3 # 10)))) b))
    = lit (n # 100).
Proof.
  intros [Hr0 Hr1] Hb.
  assert (Hc : 0 <= lit (3 # 10)) by (apply Qle_bool_iff; vm_compute; reflexivity).
  pose proof (fmul_nonneg r _ Hr0 Hc) as Hlo.
  apply (fadd_le_r _ _ (lit (65 # 100))) in Hlo.
  assert (E65 : fadd (lit (65 # 100)) 0 = lit (65 # 100)) by (vm_compute; reflexivity).
  rewrite E65 in Hlo.
  set (cb := fadd (lit (65 # 100)) (fmul r (lit (3 # 10)))) in *.
  assert (P65 : 65 # 100 <= lit (65 # 100)) by (apply Qle_bool_iff; vm_compute; reflexivity).
  assert (Hprod : lit (65 # 100) * 1 <= cb * b) by nra.
  apply round64_mono in Hprod. fold (fmul cb b) in Hprod.
  assert (E1 : round64 (lit (65 # 100) * 1) = lit (65 # 100)) by (vm_compute; reflexivity).
  rewrite E1 in Hprod.
  unfold Math_min. set (v := Qmin (lit (99 # 100)) (fmul cb b)).
  assert (Hv0 : lit (65 # 100) <= v).
  { unfold v. apply Q.min_glb; [|exact Hprod].
    apply Qle_bool_iff. vm_compute. reflexivity. }
  assert (Hv1 : v <= lit (99 # 100)) by apply Q.le_min_l.
  unfold toFixed2. cbv zeta.
  assert (Hpos : Qle_bool 0 v = true) by (apply Qle_bool_iff; lra).
  assert (Habs : Qfloor (100 * Qabs v + (1 # 2)) = Qfloor (100 * v + (1 # 2)))
    by (rewrite (Qabs_pos v) by lra; reflexivity).
  rewrite Hpos, Habs.
  exists (Qfloor (100 * v + (1 # 2))). split; [|reflexivity].
  assert (L : 100 * lit (65 # 100) + (1 # 2) <= 100 * v + (1 # 2)) by lra.
  assert (U : 100 * v + (1 # 2) <= 100 * lit (99 # 100) + (1 # 2)) by lra.
  apply Qfloor_resp_le in L, U.
  assert (EL : Qfloor (100 * lit (65 # 100) + (1 # 2)) = 65%Z) by (vm_compute; reflexivity).
  assert (EU : Qfloor (100 * lit (99 # 100) + (1 # 2)) = 99%Z) by (vm_compute; reflexivity).
  lia.
Qed.

(** The definition selected is one of the list, which is not empty. *)
Lemma select_definition_in (customTypes : list RoomTypeDefinition) (typeIndex : Z) :
  In (select_definition (baseRoomTypes ++ customTypes) typeIndex)
     (baseRoomTypes ++ customTypes).
Proof.
  unfold select_definition. cbv zeta.
  assert (Hfirst : In (List.hd (mkDef "Living Room" "#F97316")
                               (baseRoomTypes ++ customTypes))
                      (baseRoomTypes ++ customTypes)) by (left; reflexivity).
  destruct (typeIndex <? 0)%Z; [exact Hfirst|].
  destruct (_ !! Z.to_nat typeIndex) as [def|] eqn:Hl; [|exact Hfirst].
  cbn [default]. apply list_elem_of_In. eapply list_elem_of_lookup_2. exact Hl.
Qed.

(** [getRoomColor] looks the key up in the base types followed by the
    custom types. *)
Lemma getRoomColor_find (type : string) (customTypes : list RoomTypeDefinition) :
  getRoomColor type customTypes
  = match List.find (fun def => String.eqb (def_label def) type)
                    (baseRoomTypes ++ customTypes) with
    | Some def => def_color def
    | None => "#94A3B8"%string
    end.
Proof.
  unfold getRoomColor. cbv zeta.
  generalize baseRoomTypes as base. intros base.
  induction base as [|d base IH]; [reflexivity|].
  cbn [List.find app]. destruct (String.eqb (def_label d) type); [reflexivity|exact IH].
Qed.

Lemma iter_step_zero (n : nat) : Nat.iter n step 0%Z = 0%Z.
Proof. induction n as [|n IH]; [reflexivity|]. rewrite Nat.iter_succ, IH. reflexivity. Qed.


Section MockTheorems.

Variables (pageIndex : Z) (classification : ConstructionType).
Variable customTypes : list RoomTypeDefinition.

#[local] Abbreviation definitions := (baseRoomTypes ++ customTypes).

(** The identifiers and the labels of the rooms made for given indices. *)
Lemma roomsFrom_ids (idxs : list nat) : forall value : Z,
  map rd_id (roomsFrom pageIndex classification customTypes definitions idxs value)
  = map (roomId pageIndex) idxs.
Proof.
  induction idxs as [|idx idxs IH]; intros value; [reflexivity|].
  cbn [roomsFrom map]. rewrite IH, roomFrom_eq. reflexivity.
Qed.

Lemma roomsFrom_labels (n : nat) : forall (a : nat) (value : Z),
  (a + n <= length randomRoomNames)%nat ->
  map rd_label
    (roomsFrom pageIndex classification customTypes definitions (seq a n) value)
  = firstn n (skipn a randomRoomNames).
Proof.
  induction n as [|n IH]; intros a value Ha; [reflexivity|].
  cbn [seq roomsFrom map]. rewrite IH by lia. rewrite roomFrom_eq. cbv zeta.
  cbn [rd_label].
  assert (Hmod : (a mod length randomRoomNames = a)%nat) by (apply Nat.mod_small; lia).
  rewrite Hmod.
  destruct (randomRoomNames !! a) as [name|] eqn:Hl.
  - cbn [default]. clear IH.
    revert Hl. generalize randomRoomNames as names. revert a Ha Hmod.
    intros a _ _ names. revert a. induction names as [|x names IHn]; intros a Hl.
    + discriminate Hl.
    + destruct a as [|a].
      * inversion Hl. reflexivity.
      * cbn [skipn]. apply IHn. exact Hl.
  - apply lookup_ge_None in Hl. lia.
Qed.

End MockTheorems.

End MockExtras.

Section Identifiers.

Lemma append_inv_head (s a b : string) : (s ++ a = s ++ b)%string -> a = b.
Proof.
  induction s as [|c s IH]; cbn [String.append]; intros E; [exact E|].
  inversion E. apply IH. assumption.
Qed.

(** The text of an integer determines it. *)
Lemma of_Z_inj (a b : Z) : Str.of_Z a = Str.of_Z b -> a = b.
Proof.
  intros E. unfold Str.of_Z in E.
  assert (Hnz : forall z, Z.to_int z <> Decimal.Pos Decimal.Nil /\
                          Z.to_int z <> Decimal.Neg Decimal.Nil).
  { intros [|p|p]; cbn; split; try discriminate;
      intros Hc; inversion Hc as [Hp]; exact (DecimalPos.Unsigned.to_uint_nonnil p Hp). }
  destruct (Hnz a) as [A1 A2]. destruct (Hnz b) as [B1 B2].
  pose proof (NilZero.isi _ A1 A2) as Ia. pose proof (NilZero.isi _ B1 B2) as Ib.
  rewrite E in Ia. rewrite Ia in Ib. inversion Ib as [Hab].
  apply DecimalZ.to_int_inj. exact Hab.
Qed.

Lemma roomId_inj (pageIndex : Z) (i j : nat) :
  roomId pageIndex i = roomId pageIndex j -> i = j.
Proof.
  unfold roomId. intros E.
  apply append_inv_head, append_inv_head, append_inv_head in E.
  apply of_Z_inj in E. lia.
Qed.

End Identifiers.

(** What [find] finds is the first element that passes the test. *)
Lemma find_first {A} (f : A -> bool) (l : list A) (a : A) :
  List.find f l = Some a ->
  exists pre post,
    l = pre ++ a :: post /\ (forall d, In d pre -> f d = false) /\ f a = true.
Proof.
  induction l as [|x l IH]; intros F; [discriminate F|].
  cbn [List.find] in F. destruct (f x) eqn:Hx.
  - inversion F; subst x. exists [], l. repeat split; [intros ? []|exact Hx].
  - destruct (IH F) as [pre [post [E [Hpre Ha]]]].
    exists (x :: pre), post. rewrite E. repeat split; [|exact Ha].
    intros d [<-|Hd]; [exact Hx|apply Hpre; exact Hd].
Qed.

Section MockResults.

Variables (pageIndex : Z) (classification : ConstructionType).
Variable customTypes : list RoomTypeDefinition.

(** X4.  The rooms of a page are numbered from 0: room [i] has the
    identifier [room-<pageIndex>-<i>], so the identifiers are pairwise
    distinct, and its label is the [i]-th generic room name, whatever its
    type; the label never falls back to the type. *)
Theorem mockAnalyzeRooms_ids (h : heap) :
  let rooms := fst (mockAnalyzeRooms pageIndex classification customTypes h) in
  map rd_id rooms = map (roomId pageIndex) (seq 0 (length rooms)) /\
  List.NoDup (map rd_id rooms) /\
  map rd_label rooms = firstn (length rooms) randomRoomNames.
Proof.
  cbv zeta. rewrite mockAnalyzeRooms_run. cbn [fst].
  rewrite roomsFrom_length, length_seq.
  pose proof (roomCountOf_range pageIndex) as Hn.
  rewrite roomsFrom_ids. split; [reflexivity|]. split.
  - apply Finite.Injective_map_NoDup; [|apply List.seq_NoDup].
    intros i j. apply roomId_inj.
  - rewrite roomsFrom_labels by (cbn [length randomRoomNames]; lia). reflexivity.
Qed.

(** X5.  The type and the color of every room of the mock detector come
    from the palette: the type is the label of a definition among the
    base types followed by the custom types, and the color is that of
    the first definition with this label. *)
Theorem mockAnalyzeRooms_palette (h : heap) :
  Forall (fun room =>
            exists pre def post,
              baseRoomTypes ++ customTypes = pre ++ def :: post /\
              (forall d, In d pre -> def_label d <> rd_type room) /\
              rd_type room = def_label def /\
              rd_color room = def_color def)
         (fst (mockAnalyzeRooms pageIndex classification customTypes h)).
Proof.
  rewrite mockAnalyzeRooms_run. cbn [fst].
  apply List.Forall_forall. intros room Hin.
  apply list_elem_of_In, list_elem_of_lookup_1 in Hin. destruct Hin as [i Hl].
  apply roomsFrom_lookup in Hl. destruct Hl as [idx [_ ->]].
  rewrite roomFrom_eq. cbv zeta. cbn [rd_type rd_color].
  set (selected := select_definition _ _).
  pose proof (select_definition_in customTypes
                (Math_floor (fmul (draw (Nat.iter (6 * i) step
                                           (step (foldSeed (pageIndex + 1)))))
                                  (inject_Z (Z.of_nat
                                     (length (baseRoomTypes ++ customTypes)))))))
    as Hsel.
  fold selected in Hsel.
  rewrite getRoomColor_find.
  destruct (List.find _ (baseRoomTypes ++ customTypes)) as [def|] eqn:F.
  - destruct (find_first _ _ _ F) as [pre [post [E [Hpre Hdef]]]].
    apply String.eqb_eq in Hdef.
    exists pre, def, post. split; [exact E|]. split; [|split; [symmetry; exact Hdef|reflexivity]].
    intros d Hd. apply String.eqb_neq. apply Hpre. exact Hd.
  - exfalso. pose proof (List.find_none _ _ F selected Hsel) as Hn.
    cbv beta in Hn. rewrite String.eqb_refl in Hn. discriminate Hn.
Qed.

(** X3.  For a page index that is not negative, the confidence of every
    room of the mock detector is a number of hundredths from 0.65 to
    0.99, except that a room whose type is named like a member of
    [Object.prototype] has the confidence [NaN]. *)
Theorem mockAnalyzeRooms_confidence (h : heap) (room : RoomDetection) :
  0 <= pageIndex ->
  In room (fst (mockAnalyzeRooms pageIndex classification customTypes h)) ->
  (rd_confidence room = NaN /\ In (rd_type room) Object_prototype_keys) \/
  (exists n : Z, 65 <= n <= 99 /\ rd_confidence room = Num (lit (n # 100))).
Proof.
  intros Hp Hin. rewrite mockAnalyzeRooms_run in Hin. cbn [fst] in Hin.
  apply list_elem_of_In, list_elem_of_lookup_1 in Hin. destruct Hin as [i Hl].
  apply roomsFrom_lookup in Hl. destruct Hl as [idx [_ ->]].
  rewrite roomFrom_eq. cbv zeta. cbn [rd_type rd_confidence].
  assert (Hv : 1 <= step (foldSeed (pageIndex + 1)) < 2147483647).
  { apply step_in_range, foldSeed_range.
    pose proof (Z.rem_bound_pos (pageIndex + 1) 2147483647 ltac:(lia) ltac:(lia)). lia. }
  pose proof (draw_unit _ (iter_step_in_range 1 _
                             (iter_step_in_range (6 * i) _ Hv))) as Hr.
  destruct (bias_of_cases classification
              (def_label (select_definition (baseRoomTypes ++ customTypes)
                 (Math_floor (fmul (draw (Nat.iter (6 * i) step
                                            (step (foldSeed (pageIndex + 1)))))
                                   (inject_Z (Z.of_nat
                                      (length (baseRoomTypes ++ customTypes)))))))))
    as [[Hb Hk]|[b [Hb Hb1]]]; cbv zeta in Hb; rewrite Hb.
  - left. split; [reflexivity|exact Hk].
  - right. cbn [nmul nmin ntoFixed2].
    destruct (confidence_range _ b Hr Hb1) as [n [Hn En]].
    exists n. split; [exact Hn|]. rewrite <- En. reflexivity.
Qed.

End MockResults.

Section GeneratorExtras.

#[local] Open Scope Q_scope.

(** X1.  A generator made from a seed that is not folded to zero, which
    is every seed above -2147483646, draws numbers in [0, 1) only,
    however often it is called. *)
Theorem seededRandom_draws_unit (seed : Z) (n : nat) (h : heap) :
  Z.rem seed 2147483647 <> (-2147483646)%Z ->
  Forall (fun r => 0 <= r /\ r < 1)
         (fst (bind (seededRandom seed) (fun rand => draws rand n) h)).
Proof.
  intros Hs. unfold bind. rewrite seededRandom_frame, draws_frame. cbn [fst].
  apply List.Forall_forall. intros r Hin.
  apply in_map_iff in Hin. destruct Hin as [k [<- _]].
  pose proof (draw_unit _ (iter_step_in_range k _ (foldSeed_range seed Hs))) as [H0 H1].
  split; [exact H0|]. lra.
Qed.

Lemma seededRandom_draws_unit_witness :
  Forall (fun r => 0 <= r /\ r < 1)
         (fst (bind (seededRandom 1) (fun rand => draws rand 4) [])).
Proof.
  apply (seededRandom_draws_unit 1 4 []). vm_compute. discriminate.
Defined.

(** X2.  A page index one below a seed that is folded to zero, such as
    -2147483647, leaves the generator stuck at zero: the mock detector
    returns three rooms, each with a negative [x] and [y], a width below
    0.25 and a height below 0.2. *)
Theorem mockAnalyzeRooms_stuck (pageIndex : Z) (classification : ConstructionType)
  (customTypes : list RoomTypeDefinition) (h : heap) :
  Z.rem (pageIndex + 1) 2147483647 = (-2147483646)%Z ->
  length (fst (mockAnalyzeRooms pageIndex classification customTypes h)) = 3%nat /\
  Forall (fun room =>
            let b := rd_boundary room in
            b_x b < 0 /\ b_y b < 0 /\ b_width b < 25 # 100 /\ b_height b < 20 # 100)
         (fst (mockAnalyzeRooms pageIndex classification customTypes h)).
Proof.
  intros Hs. rewrite mockAnalyzeRooms_run. cbn [fst].
  assert (Hc : roomCountOf pageIndex = 3%nat).
  { unfold roomCountOf. rewrite (foldSeed_zero _ Hs). vm_compute. reflexivity. }
  rewrite roomsFrom_length, length_seq. split; [exact Hc|].
  rewrite (foldSeed_zero _ Hs).
  apply List.Forall_forall. intros room Hin.
  apply list_elem_of_In, list_elem_of_lookup_1 in Hin. destruct Hin as [i Hl].
  apply roomsFrom_lookup in Hl. destruct Hl as [idx [_ ->]].
  change (step 0) with 0%Z. rewrite iter_step_zero, roomFrom_eq.
  cbv zeta. cbn [rd_boundary b_x b_y b_width b_height].
  repeat split; apply Qlt_alt; vm_compute; reflexivity.
Qed.

Lemma mockAnalyzeRooms_stuck_witness :
  length (fst (mockAnalyzeRooms (-2147483647) residential [] [])) = 3%nat /\
  Forall (fun room =>
            let b := rd_boundary room in
            b_x b < 0 /\ b_y b < 0 /\ b_width b < 25 # 100 /\ b_height b < 20 # 100)
         (fst (mockAnalyzeRooms (-2147483647) residential [] [])).
Proof.
  apply (mockAnalyzeRooms_stuck (-2147483647) residential [] []).
  vm_compute. reflexivity.
Defined.

Lemma mockAnalyzeRooms_confidence_witness :
  Forall (fun room =>
            (rd_confidence room = NaN /\ In (rd_type room) Object_prototype_keys) \/
            (exists n : Z, (65 <= n <= 99)%Z /\ rd_confidence room = Num (lit (n # 100))))
         (fst (mockAnalyzeRooms 6 residential
                 [mkDef "constructor" "#123456"] [])).
Proof.
  apply List.Forall_forall. intros room Hin.
  apply (mockAnalyzeRooms_confidence 6 residential
           [mkDef "constructor" "#123456"] [] room); [lia|exact Hin].
Defined.

End GeneratorExtras.

Section MockLayout.

(** The boundaries of the rooms made for given indices depend on the
    state of the generator alone; their types and colors on the state and
    the custom types. *)
Lemma roomsFrom_boundaries (pageIndex : Z) (c c' : ConstructionType)
  (t t' : list RoomTypeDefinition) (idxs : list nat) :
  forall value : Z,
    map rd_boundary (roomsFrom pageIndex c t (baseRoomTypes ++ t) idxs value)
    = map rd_boundary (roomsFrom pageIndex c' t' (baseRoomTypes ++ t') idxs value).
Proof.
  induction idxs as [|idx idxs IH]; intros value; [reflexivity|].
  cbn [roomsFrom map]. rewrite IH, !roomFrom_eq. reflexivity.
Qed.

Lemma roomsFrom_types (pageIndex : Z) (c c' : ConstructionType)
  (t : list RoomTypeDefinition) (idxs : list nat) :
  forall value : Z,
    map (fun room => (rd_type room, rd_color room))
        (roomsFrom pageIndex c t (baseRoomTypes ++ t) idxs value)
    = map (fun room => (rd_type room, rd_color room))
          (roomsFrom pageIndex c' t (baseRoomTypes ++ t) idxs value).
Proof.
  induction idxs as [|idx idxs IH]; intros value; [reflexivity|].
  cbn [roomsFrom map]. rewrite IH, !roomFrom_eq. reflexivity.
Qed.

(** X8.  The layout the mock detector gives a page depends on the index
    of the page alone: the number of rooms and their boundaries are the
    same for either classification and for any custom types, and with the
    custom types unchanged the classification changes neither the types
    nor the colors, so that it can only change the confidences. *)
Theorem mockAnalyzeRooms_layout (pageIndex : Z) (c c' : ConstructionType)
  (t t' : list RoomTypeDefinition) (h h' : heap) :
  map rd_boundary (fst (mockAnalyzeRooms pageIndex c t h))
  = map rd_boundary (fst (mockAnalyzeRooms pageIndex c' t' h')) /\
  length (fst (mockAnalyzeRooms pageIndex c t h))
  = length (fst (mockAnalyzeRooms pageIndex c' t' h')) /\
  map (fun room => (rd_type room, rd_color room))
      (fst (mockAnalyzeRooms pageIndex c t h))
  = map (fun room => (rd_type room, rd_color room))
        (fst (mockAnalyzeRooms pageIndex c' t h')).
Proof.
  rewrite !mockAnalyzeRooms_run. cbn [fst].
  split; [apply roomsFrom_boundaries|].
  split; [rewrite !roomsFrom_length; reflexivity|apply roomsFrom_types].
Qed.

End MockLayout.

(* ================================================================= *)
(** * The mock detector on doubles and on whole numbers *)

Section DoublesFacts.

#[local] Open Scope Q_scope.

Lemma Qred_inject_Z (k : Z) : Qred (inject_Z k) = inject_Z k.
Proof. apply Qcanon.Qred_identity. cbn [Qnum Qden inject_Z]. apply Z.gcd_1_r. Qed.

Lemma round64_reduced (q : Q) : Qred (round64 q) = round64 q.
Proof. unfold round64. cbv zeta. apply Qred_complete, Qred_correct. Qed.

(** A whole number up to 2^53 is a double. *)
Lemma round64_int (q : Q) (k : Z) :
  q == inject_Z k -> (Z.abs k <= 2 ^ 53)%Z -> round64 q = inject_Z k.
Proof.
  intros E Hk. rewrite (round64_comp _ _ E).
  transitivity (Qred (round64 (inject_Z k))); [symmetry; apply round64_reduced|].
  transitivity (Qred (inject_Z k)); [|apply Qred_inject_Z].
  apply Qred_complete, round64_exact.
  change (2 ^ 53)%Z with 9007199254740992%Z in Hk.
  destruct (Z.eq_dec (Z.abs k) 9007199254740992%Z) as [Hmax|Hless].
  - exists (Z.sgn k * 4503599627370496)%Z, 1%Z.
    split; [change (2 ^ 53)%Z with 9007199254740992%Z; lia|]. split; [lia|].
    change (2 ^ 1) with (inject_Z 2). rewrite <- inject_Z_mult.
    apply inject_Z_injective. lia.
  - exists k, 0%Z.
    split; [change (2 ^ 53)%Z with 9007199254740992%Z; lia|]. split; [lia|].
    change (2 ^ 0) with 1. ring.
Qed.

(** The remainder of whole numbers. *)
Lemma frem_int (a : Z) :
  frem (inject_Z a) 2147483647 = inject_Z (Z.rem a 2147483647).
Proof.
  unfold frem. cbv zeta.
  transitivity (Qred (inject_Z (Z.rem a 2147483647))); [|apply Qred_inject_Z].
  apply Qred_complete.
  assert (Hq : Z.quot (Qnum (inject_Z a / 2147483647))
                      (Zpos (Qden (inject_Z a / 2147483647)))
               = Z.quot a 2147483647).
  { unfold Qdiv, Qinv, Qmult, inject_Z. cbn [Qnum Qden].
    rewrite Z.mul_1_r. reflexivity. }
  rewrite Hq.
  pose proof (Z.quot_rem' a 2147483647) as Hr.
  change (2147483647 : Q) with (inject_Z 2147483647).
  unfold Qminus. rewrite <- inject_Z_mult, <- inject_Z_opp, <- inject_Z_plus.
  apply inject_Z_injective. lia.
Qed.

Lemma Qle_bool_int (r : Z) : Qle_bool (inject_Z r) 0 = (r <=? 0)%Z.
Proof. unfold Qle_bool, inject_Z. cbn [Qnum Qden]. rewrite Z.mul_1_r. reflexivity. Qed.

(** On a cell that holds a whole number below the modulus the closure on
    doubles draws what the closure on whole numbers draws. *)
Lemma Doubles_call_frame (h0 : list Q) (value : Z) :
  (0 <= value < 2147483647)%Z ->
  Doubles.call (length h0) (h0 ++ [inject_Z value])
  = (draw value, h0 ++ [inject_Z (step value)]).
Proof.
  intros Hv. unfold Doubles.call.
  rewrite list_lookup_middle by reflexivity. cbv zeta.
  assert (Hm : fmul (inject_Z value) 16807 = inject_Z (value * 16807)).
  { unfold fmul. apply round64_int; [rewrite inject_Z_mult; reflexivity|lia]. }
  rewrite Hm, frem_int. fold (step value).
  pose proof (step_bounded value Hv) as Hs.
  assert (Hd : fsub (inject_Z (step value)) 1 = inject_Z (step value - 1)).
  { unfold fsub. apply round64_int; [|lia].
    unfold Zminus. rewrite inject_Z_plus, inject_Z_opp. reflexivity. }
  rewrite Hd. rewrite insert_app_r_alt by lia. rewrite Nat.sub_diag. reflexivity.
Qed.

Lemma Doubles_seededRandom_frame (seed : Z) (h : list Q) :
  Doubles.seededRandom (inject_Z seed) h
  = (length h, h ++ [inject_Z (foldSeed seed)]).
Proof.
  unfold Doubles.seededRandom, foldSeed. cbv zeta.
  rewrite frem_int, Qle_bool_int.
  pose proof (Z.rem_bound_abs seed 2147483647 ltac:(lia)) as Hb.
  change (Z.abs 2147483647) with 2147483647%Z in Hb.
  destruct (Z.rem seed 2147483647 <=? 0)%Z; [|reflexivity].
  f_equal. f_equal. f_equal. unfold fadd. apply round64_int; [|lia].
  rewrite inject_Z_plus. reflexivity.
Qed.

Section Detector.

Variable Number_toString : Q -> string.
Variables (pageIndex : Q) (classification : ConstructionType).
Variables (customTypes definitions : list RoomTypeDefinition).

(** The room the detector on doubles makes from a whole state is the room
    of the detector on whole numbers, but for the text of the page index
    in its identifier. *)
Lemma Doubles_mockRoom_run (idx : nat) (value : Z) (h0 : list Q) (index : Z) :
  (0 <= value < 2147483647)%Z ->
  Doubles.mockRoom Number_toString (length h0) pageIndex classification
    customTypes definitions idx (h0 ++ [inject_Z value])
  = (let room := roomFrom index classification customTypes definitions idx value in
     {| rd_id :=
          ("room-" ++ Number_toString pageIndex ++ "-"
             ++ Str.of_Z (Z.of_nat idx))%string;
        rd_label := rd_label room;
        rd_type := rd_type room;
        rd_confidence := rd_confidence room;
        rd_boundary := rd_boundary room;
        rd_color := rd_color room;
        rd_manual := rd_manual room |},
     h0 ++ [inject_Z (Nat.iter 6 step value)]).
Proof.
  intros Hv. unfold Doubles.mockRoom, Doubles.bind, Doubles.ret.
  do 6 (rewrite Doubles_call_frame by (repeat apply step_bounded; exact Hv);
        cbv beta iota).
  cbv zeta. rewrite roomFrom_eq. reflexivity.
Qed.

Lemma Doubles_mapM_run (idxs : list nat) (index : Z) :
  forall (value : Z) (h0 : list Q),
    (0 <= value < 2147483647)%Z ->
    exists rooms : list RoomDetection,
      Doubles.mapM
        (Doubles.mockRoom Number_toString (length h0) pageIndex classification
           customTypes definitions)
        idxs (h0 ++ [inject_Z value])
      = (rooms, h0 ++ [inject_Z (Nat.iter (6 * length idxs) step value)]) /\
      Forall2 (fun room room' =>
                 rd_label room = rd_label room' /\ rd_type room = rd_type room' /\
                 rd_confidence room = rd_confidence room' /\
                 rd_boundary room = rd_boundary room' /\
                 rd_color room = rd_color room')
              rooms
              (roomsFrom index classification customTypes definitions idxs value).
Proof.
  induction idxs as [|idx idxs IH]; intros value h0 Hv.
  - exists []. split; [reflexivity|constructor].
  - destruct (IH (Nat.iter 6 step value) h0 (iter_step_bounded 6 value Hv))
      as [rooms [Hrun Hsame]].
    eexists. split.
    + cbn [Doubles.mapM]. unfold Doubles.bind at 1.
      rewrite (Doubles_mockRoom_run idx value h0 index Hv).
      unfold Doubles.bind at 1. rewrite Hrun. unfold Doubles.ret.
      replace (6 * length (idx :: idxs))%nat with (6 * length idxs + 6)%nat
        by (cbn [length]; lia).
      rewrite Nat.iter_add. reflexivity.
    + cbn [roomsFrom]. constructor; [|exact Hsame].
      cbv zeta. cbn [rd_label rd_type rd_confidence rd_boundary rd_color].
      repeat split; reflexivity.
Qed.

End Detector.

(** A run of the detector on doubles for a whole page index with fewer
    than 54 bits: the rooms of the detector on whole numbers, but for
    their identifiers. *)
Lemma Doubles_mockAnalyzeRooms_run (Number_toString : Q -> string) (index : Z)
  (classification : ConstructionType) (customTypes : list RoomTypeDefinition)
  (h : list Q) :
  (Z.abs (index + 1) <= 2 ^ 53)%Z ->
  exists (rooms : list RoomDetection) (h' : list Q),
    Doubles.mockAnalyzeRooms Number_toString (inject_Z index) classification
      customTypes h = (rooms, h') /\
    Forall2 (fun room room' =>
               rd_label room = rd_label room' /\ rd_type room = rd_type room' /\
               rd_confidence room = rd_confidence room' /\
               rd_boundary room = rd_boundary room' /\
               rd_color room = rd_color room')
            rooms
            (fst (mockAnalyzeRooms index classification customTypes [])).
Proof.
  intros Hi. rewrite mockAnalyzeRooms_run. cbn [fst].
  unfold Doubles.mockAnalyzeRooms.
  assert (Hs : fadd (inject_Z index) 1 = inject_Z (index + 1)).
  { unfold fadd. apply round64_int; [rewrite inject_Z_plus; reflexivity|exact Hi]. }
  rewrite Hs. unfold Doubles.bind at 1. rewrite Doubles_seededRandom_frame.
  pose proof (seed_normalised (index + 1)) as Hv. fold (foldSeed (index + 1)) in Hv.
  unfold Doubles.bind at 1. rewrite (Doubles_call_frame h _ Hv). cbv zeta.
  fold (roomCountOf index).
  destruct (Doubles_mapM_run Number_toString (inject_Z index) classification
              customTypes (baseRoomTypes ++ customTypes)
              (seq 0 (roomCountOf index)) index
              (step (foldSeed (index + 1))) h (step_bounded _ Hv))
    as [rooms [Hrun Hsame]].
  exists rooms. eexists. split; [exact Hrun|exact Hsame].
Qed.

End DoublesFacts.

(* ================================================================= *)
(** * More facts about labels *)

Section LabelExtras.

#[local] Open Scope string_scope.

Ltac each_char c :=
  destruct c as [[] [] [] [] [] [] [] []]; reflexivity.

Lemma lower_upper_char (c : ascii) : Str.lower_char (Str.upper_char c) = Str.lower_char c.
Proof. each_char c. Qed.

Lemma upper_upper_char (c : ascii) : Str.upper_char (Str.upper_char c) = Str.upper_char c.
Proof. each_char c. Qed.

Lemma is_space_upper_char (c : ascii) : Str.is_space (Str.upper_char c) = Str.is_space c.
Proof. each_char c. Qed.

Lemma is_word_upper_char (c : ascii) : Str.is_word (Str.upper_char c) = Str.is_word c.
Proof. each_char c. Qed.

(** Title case changes the case of letters only, and changes nothing the
    second time. *)
Lemma toLowerCase_titleCaseFrom (s : string) : forall boundary,
  Str.toLowerCase (Str.titleCaseFrom boundary s) = Str.toLowerCase s.
Proof.
  induction s as [|c s IH]; intros boundary; [reflexivity|].
  cbn [Str.titleCaseFrom Str.toLowerCase]. rewrite IH. f_equal.
  destruct (boundary && Str.is_word c); [apply lower_upper_char|reflexivity].
Qed.

Lemma titleCaseFrom_idem (s : string) : forall boundary,
  Str.titleCaseFrom boundary (Str.titleCaseFrom boundary s)
  = Str.titleCaseFrom boundary s.
Proof.
  induction s as [|c s IH]; intros boundary; [reflexivity|].
  cbn [Str.titleCaseFrom].
  destruct (boundary && Str.is_word c) eqn:Hb.
  - rewrite is_word_upper_char, Hb, upper_upper_char, is_space_upper_char, IH.
    reflexivity.
  - rewrite Hb, IH. reflexivity.
Qed.

(** The type of a rule is a base type, and is its own type. *)
Lemma rule_type_fixed (rule : list string * string) :
  In rule labelRules ->
  labelToRoomType (snd rule) = snd rule /\
  exists def, In def baseRoomTypes /\ def_label def = snd rule.
Proof.
  intros Hin.
  assert (Hb : labelToRoomType (snd rule) = snd rule /\
               existsb (fun def => String.eqb (def_label def) (snd rule))
                       baseRoomTypes = true).
  { unfold labelRules in Hin. cbn [In] in Hin.
    repeat (destruct Hin as [<-|Hin]; [split; vm_compute; reflexivity|]).
    destruct Hin. }
  destruct Hb as [Hfix Hex]. split; [exact Hfix|].
  apply existsb_exists in Hex. destruct Hex as [def [Hdef Hl]].
  apply String.eqb_eq in Hl. exists def. split; assumption.
Qed.

(** X6.  [labelToRoomType] is idempotent: a type it returns is mapped to
    itself, so types read back from detections are stable. *)
Theorem labelToRoomType_idempotent (label : string) :
  labelToRoomType (labelToRoomType label) = labelToRoomType label.
Proof.
  rewrite (labelToRoomType_table label). unfold labelByRules.
  destruct (List.find _ labelRules) as [rule|] eqn:F.
  - apply List.find_some in F. destruct F as [Hin _].
    apply (rule_type_fixed rule Hin).
  - rewrite labelToRoomType_table. unfold labelByRules, Str.titleCase.
    rewrite toLowerCase_titleCaseFrom, F. apply titleCaseFrom_idem.
Qed.

(** X7.  When a rule matches the label, the type is the label of a base
    type and the color of the detection is the color of that base type,
    whatever the custom types: a custom type can only color a label that
    no rule matches. *)
Theorem labelToRoomType_base_color (label : string)
  (customTypes : list RoomTypeDefinition) :
  List.find (rule_matches (Str.toLowerCase label)) labelRules <> None ->
  In (mkDef (labelToRoomType label)
            (getRoomColor (labelToRoomType label) customTypes))
     baseRoomTypes.
Proof.
  intros Hsome. rewrite labelToRoomType_table. unfold labelByRules.
  destruct (List.find _ labelRules) as [rule|] eqn:F; [|congruence].
  apply List.find_some in F. destruct F as [Hin _].
  destruct (rule_type_fixed rule Hin) as [_ [def [Hdef Hl]]].
  rewrite <- Hl, (getRoomColor_base def customTypes Hdef).
  destruct def. exact Hdef.
Qed.

Lemma labelToRoomType_base_color_witness :
  In (mkDef (labelToRoomType "Main Hallway")
            (getRoomColor (labelToRoomType "Main Hallway")
                          [mkDef "Circulation" "#000000"]))
     baseRoomTypes.
Proof.
  apply (labelToRoomType_base_color "Main Hallway" [mkDef "Circulation" "#000000"]).
  vm_compute. discriminate.
Defined.

End LabelExtras.

(* ================================================================= *)
(** * More facts about the extractor *)

Section ScanExtras.

(** An image has an opaque pixel or has none. *)
Lemma opaque_or_none (png : PNG) :
  (exists x y, opaque png x y) \/ (forall x y, ~ opaque png x y).
Proof.
  destruct (scanned_all png) as [_ [[Hnone _]|[[y [Hin Hp]] _]]].
  - right. intros x y Ho. apply opaque_pos in Ho. destruct Ho as [Hi Hp].
    rewrite (Hnone x y Hi) in Hp. discriminate Hp.
  - left. exists (minX (scan png)), y. apply opaque_pos. split; assumption.
Qed.

(** Images of one size with the same opaque pixels have the same box. *)
Lemma scan_same_opaque (png1 png2 : PNG) :
  png_width png1 = png_width png2 ->
  png_height png1 = png_height png2 ->
  (forall x y, opaque png1 x y <-> opaque png2 x y) ->
  scan png1 = scan png2.
Proof.
  intros Hw Hh Hsame.
  destruct (opaque_or_none png1) as [Hex|Hno].
  - assert (Hex2 : exists x y, opaque png2 x y).
    { destruct Hex as [x [y Ho]]. exists x, y. apply Hsame. exact Ho. }
    apply (tight_unique png1); [apply scan_tight; exact Hex|].
    destruct (scan_tight png2 Hex2) as [A [[y1 L] [[y2 R] [[x3 T] [x4 B]]]]].
    split; [|repeat split].
    + intros x y Ho. apply A, Hsame. exact Ho.
    + exists y1. apply Hsame. exact L.
    + exists y2. apply Hsame. exact R.
    + exists x3. apply Hsame. exact T.
    + exists x4. apply Hsame. exact B.
  - rewrite (scan_empty png1 Hno).
    rewrite (scan_empty png2); [|intros x y Ho; apply (Hno x y), Hsame; exact Ho].
    unfold initialBox. rewrite Hw, Hh. reflexivity.
Qed.

(** More opaque pixels, a wider box. *)
Lemma scan_monotone (png1 png2 : PNG) :
  (forall x y, opaque png1 x y -> opaque png2 x y) ->
  (exists x y, opaque png1 x y) ->
  minX (scan png2) <= minX (scan png1) /\ maxX (scan png1) <= maxX (scan png2) /\
  minY (scan png2) <= minY (scan png1) /\ maxY (scan png1) <= maxY (scan png2).
Proof.
  intros Hsub Hex.
  assert (Hex2 : exists x y, opaque png2 x y).
  { destruct Hex as [x [y Ho]]. exists x, y. apply Hsub. exact Ho. }
  destruct (scan_tight png1 Hex) as [_ [[y1 L] [[y2 R] [[x3 T] [x4 B]]]]].
  destruct (scan_tight png2 Hex2) as [A _].
  pose proof (A _ _ (Hsub _ _ L)). pose proof (A _ _ (Hsub _ _ R)).
  pose proof (A _ _ (Hsub _ _ T)). pose proof (A _ _ (Hsub _ _ B)). lia.
Qed.

(** The box of an image with an opaque pixel lies in the image. *)
Lemma scan_in_image (png : PNG) :
  (exists x y, opaque png x y) ->
  0 <= minX (scan png) <= maxX (scan png) /\ maxX (scan png) < png_width png /\
  0 <= minY (scan png) <= maxY (scan png) /\ maxY (scan png) < png_height png.
Proof.
  intros Hex.
  destruct (scan_tight png Hex) as [A [[y1 L] [[y2 R] [[x3 T] [x4 B]]]]].
  pose proof (A _ _ L). pose proof (A _ _ T).
  destruct L as [? [? _]], R as [? [? _]], T as [? [? _]], B as [? [? _]]. lia.
Qed.

End ScanExtras.

Section AxisArithmetic.

#[local] Open Scope Q_scope.

(** One axis of the boundary: the origin is in [0, 1), and origin plus
    extent stay within 1 unless the extent was raised to 0.05. *)
Lemma axis_fits (lo hi size : Z) :
  (0 <= lo <= hi)%Z -> (hi < size)%Z -> (size < 2 ^ 32)%Z ->
  let origin := fdiv (inject_Z lo) (inject_Z size) in
  let extent :=
    Math_max (fdiv (inject_Z (hi - lo)) (inject_Z size)) (lit (5 # 100)) in
  0 <= origin /\ origin < 1 /\
  (origin + extent <= 1 \/ extent = lit (5 # 100)).
Proof.
  intros Hlo Hhi Hsize. cbv zeta.
  assert (Hs : 0 < inject_Z size)
    by (change 0 with (inject_Z 0); rewrite <- Zlt_Qlt; lia).
  set (s := inject_Z size) in *.
  set (u := / s).
  assert (Hu : 0 < u) by (apply Qinv_lt_0_compat; exact Hs).
  assert (Hsu : s * u == 1) by (unfold u; field; lra).
  assert (Hs32 : s <= 4294967296)
    by (unfold s; change 4294967296 with (inject_Z 4294967296);
        rewrite <- Zle_Qle; lia).
  assert (Hu32 : 1 # 4294967296 <= u) by nra.
  assert (Ql : 0 <= inject_Z lo)
    by (change 0 with (inject_Z 0); rewrite <- Zle_Qle; lia).
  assert (Qh : inject_Z hi <= s - 1).
  { unfold s, Qminus. change 1 with (inject_Z 1).
    rewrite <- inject_Z_opp, <- inject_Z_plus, <- Zle_Qle. lia. }
  assert (Qlh : inject_Z lo <= inject_Z hi) by (rewrite <- Zle_Qle; lia).
  assert (Qd : inject_Z (hi - lo) == inject_Z hi - inject_Z lo)
    by (unfold Z.sub; rewrite inject_Z_plus, inject_Z_opp; ring).
  assert (Xlo : 0 <= inject_Z lo / s) by (unfold Qdiv; fold u; nra).
  assert (Xhi : inject_Z lo / s <= 1 - u) by (unfold Qdiv; fold u; nra).
  assert (Dlo : 0 <= inject_Z (hi - lo) / s)
    by (rewrite Qd; unfold Qdiv; fold u; nra).
  assert (Dhi : inject_Z lo / s + inject_Z (hi - lo) / s <= 1 - u)
    by (rewrite Qd; unfold Qdiv; fold u; nra).
  unfold fdiv.
  pose proof (round64_err_unit _ Xlo ltac:(lra)) as [_ E1].
  pose proof (round64_err_unit _ Dlo ltac:(lra)) as [_ E2].
  split; [apply round64_nonneg; exact Xlo|]. split.
  - assert (Hm : inject_Z lo / s <= 4294967295 # 4294967296) by lra.
    apply round64_mono in Hm.
    assert (Hc : round64 (4294967295 # 4294967296) < 1)
      by (apply Qlt_alt; vm_compute; reflexivity).
    lra.
  - unfold Math_max, Qmax, GenericMinMax.gmax.
    destruct (Qcompare _ (lit (5 # 100))); [left; lra|right; reflexivity|left; lra].
Qed.

End AxisArithmetic.

Section ExtractorExtras.

Variable PNG_sync_read : Buffer -> completion PNG.
Variable Buffer_from_base64 : string -> Buffer.

#[local] Abbreviation extract := (maskToBoundary PNG_sync_read).

(** What a detection is made of. *)
Lemma maskToBoundary_inv (maskBuffer : Buffer) (label : string) (score : Q)
  (pageIndex idx : Z) (customTypes : list RoomTypeDefinition) (d : RoomDetection) :
  extract maskBuffer label score pageIndex idx customTypes = Normal (Some d) ->
  exists png,
    PNG_sync_read maskBuffer = Normal png /\
    (exists x y, opaque png x y) /\
    rd_id d = hfRoomId pageIndex idx /\
    rd_boundary d = boundaryOf png (scan png) /\
    rd_confidence d = Num (clampConfidence score).
Proof.
  intros Hd.
  destruct (PNG_sync_read maskBuffer) as [png|e] eqn:Hread.
  - exists png. split; [reflexivity|].
    destruct (opaque_or_none png) as [Hex|Hno].
    + rewrite (maskToBoundary_found PNG_sync_read _ png _ _ _ _ _ Hread Hex) in Hd.
      inversion Hd. repeat split; try reflexivity. exact Hex.
    + rewrite (maskToBoundary_empty PNG_sync_read _ png _ _ _ _ _ Hread Hno) in Hd.
      discriminate Hd.
  - rewrite (maskToBoundary_undecodable PNG_sync_read _ e _ _ _ _ _ Hread) in Hd.
    discriminate Hd.
Qed.

(** A detection is returned exactly when the buffer decodes to an
    image with a pixel of positive alpha. *)
Lemma maskToBoundary_some_iff (maskBuffer : Buffer) (label : string)
  (score : Q) (pageIndex idx : Z) (customTypes : list RoomTypeDefinition) :
  (exists d, extract maskBuffer label score pageIndex idx customTypes
             = Normal (Some d))
  <-> (exists png, PNG_sync_read maskBuffer = Normal png /\
                   exists x y, opaque png x y).
Proof.
  split.
  - intros [d Hd]. apply maskToBoundary_inv in Hd.
    destruct Hd as [png [Hread [Hex _]]]. exists png. split; assumption.
  - intros [png [Hread Hex]]. eexists.
    apply maskToBoundary_found; eassumption.
Qed.

(** X9.  The extractor reads the alpha channel only, and only whether it
    is positive: two buffers that decode to images of one size whose
    alpha is positive at the same pixels give the same result, whatever
    their color channels. *)
Theorem maskToBoundary_alpha_only (buffer1 buffer2 : Buffer) (png1 png2 : PNG)
  (label : string) (score : Q) (pageIndex idx : Z)
  (customTypes : list RoomTypeDefinition) :
  PNG_sync_read buffer1 = Normal png1 ->
  PNG_sync_read buffer2 = Normal png2 ->
  png_width png1 = png_width png2 ->
  png_height png1 = png_height png2 ->
  (forall x y, 0 <= x < png_width png1 -> 0 <= y < png_height png1 ->
               alpha_positive png1 x y = alpha_positive png2 x y) ->
  extract buffer1 label score pageIndex idx customTypes
  = extract buffer2 label score pageIndex idx customTypes.
Proof.
  intros H1 H2 Hw Hh Halpha.
  assert (Hsame : forall x y, opaque png1 x y <-> opaque png2 x y).
  { intros x y. unfold opaque. rewrite <- Hw, <- Hh. split.
    - intros [Hx [Hy Hp]]. rewrite <- (Halpha x y Hx Hy). split; [exact Hx|split; [exact Hy|exact Hp]].
    - intros [Hx [Hy Hp]]. rewrite (Halpha x y Hx Hy). split; [exact Hx|split; [exact Hy|exact Hp]]. }
  destruct (opaque_or_none png1) as [Hex|Hno].
  - assert (Hex2 : exists x y, opaque png2 x y).
    { destruct Hex as [x [y Ho]]. exists x, y. apply Hsame. exact Ho. }
    rewrite (maskToBoundary_found PNG_sync_read _ png1 _ _ _ _ _ H1 Hex).
    rewrite (maskToBoundary_found PNG_sync_read _ png2 _ _ _ _ _ H2 Hex2).
    unfold boundaryOf.
    rewrite (scan_same_opaque png1 png2 Hw Hh Hsame), Hw, Hh. reflexivity.
  - rewrite (maskToBoundary_empty PNG_sync_read _ png1 _ _ _ _ _ H1 Hno).
    rewrite (maskToBoundary_empty PNG_sync_read _ png2 _ _ _ _ _ H2); [reflexivity|].
    intros x y Ho. apply (Hno x y), Hsame. exact Ho.
Qed.

(** X10.  Opaque pixels added to a mask can only move the origin of the
    box towards the top left and make the box larger: [x] and [y] do not
    grow, the width and the height do not shrink. *)
Theorem maskToBoundary_monotone (buffer1 buffer2 : Buffer) (png1 png2 : PNG)
  (label : string) (score : Q) (pageIndex idx : Z)
  (customTypes : list RoomTypeDefinition) (d1 : RoomDetection) :
  PNG_sync_read buffer1 = Normal png1 ->
  PNG_sync_read buffer2 = Normal png2 ->
  png_width png1 = png_width png2 ->
  png_height png1 = png_height png2 ->
  (forall x y, opaque png1 x y -> opaque png2 x y) ->
  extract buffer1 label score pageIndex idx customTypes = Normal (Some d1) ->
  exists d2,
    extract buffer2 label score pageIndex idx customTypes = Normal (Some d2) /\
    (b_x (rd_boundary d2) <= b_x (rd_boundary d1))%Q /\
    (b_y (rd_boundary d2) <= b_y (rd_boundary d1))%Q /\
    (b_width (rd_boundary d1) <= b_width (rd_boundary d2))%Q /\
    (b_height (rd_boundary d1) <= b_height (rd_boundary d2))%Q.
Proof.
  intros H1 H2 Hw Hh Hsub Hd1.
  apply maskToBoundary_inv in Hd1.
  destruct Hd1 as [png [Hread [Hex [_ [Hb _]]]]].
  rewrite H1 in Hread. inversion Hread; subst png. clear Hread.
  assert (Hex2 : exists x y, opaque png2 x y).
  { destruct Hex as [x [y Ho]]. exists x, y. apply Hsub. exact Ho. }
  eexists. split; [apply maskToBoundary_found; eassumption|].
  cbn [rd_boundary]. rewrite Hb. unfold boundaryOf. cbn [b_x b_y b_width b_height].
  destruct (scan_monotone png1 png2 Hsub Hex) as [M1 [M2 [M3 M4]]].
  destruct (scan_in_image png1 Hex) as [I1 [I2 [I3 I4]]].
  rewrite Hw, Hh in *.
  repeat split.
  - apply fdiv_mono; lia.
  - apply fdiv_mono; lia.
  - apply Q.max_le_compat_r. apply fdiv_mono; lia.
  - apply Q.max_le_compat_r. apply fdiv_mono; lia.
Qed.

(** X11.  The boundary of a detection from an image less than 2^32
    pixels wide and high has its origin in [0, 1) on both axes; on each
    axis origin plus extent is at most 1 unless the extent was raised to
    the floor of 0.05, so the box leaves the page by less than the floor. *)
Theorem maskToBoundary_within (maskBuffer : Buffer) (png : PNG) (label : string)
  (score : Q) (pageIndex idx : Z) (customTypes : list RoomTypeDefinition)
  (d : RoomDetection) :
  PNG_sync_read maskBuffer = Normal png ->
  png_width png < 2 ^ 32 -> png_height png < 2 ^ 32 ->
  extract maskBuffer label score pageIndex idx customTypes = Normal (Some d) ->
  let b := rd_boundary d in
  ((0 <= b_x b /\ b_x b < 1) /\ (0 <= b_y b /\ b_y b < 1) /\
   (b_x b + b_width b <= 1 \/ b_width b = lit (5 # 100)) /\
   (b_y b + b_height b <= 1 \/ b_height b = lit (5 # 100)) /\
   b_x b + b_width b < 1 + lit (5 # 100) /\
   b_y b + b_height b < 1 + lit (5 # 100))%Q.
Proof.
  intros Hread Hw Hh Hd. cbv zeta.
  apply maskToBoundary_inv in Hd.
  destruct Hd as [png' [Hread' [Hex [_ [Hb _]]]]].
  rewrite Hread in Hread'. inversion Hread'; subst png'. clear Hread'.
  rewrite Hb. unfold boundaryOf. cbn [b_x b_y b_width b_height].
  destruct (scan_in_image png Hex) as [I1 [I2 [I3 I4]]].
  pose proof (axis_fits _ _ _ I1 I2 Hw) as [X0 [X1 X2]].
  pose proof (axis_fits _ _ _ I3 I4 Hh) as [Y0 [Y1 Y2]].
  assert (Hc : (0 < lit (5 # 100))%Q) by (apply Qlt_alt; vm_compute; reflexivity).
  repeat split; try assumption.
  - destruct X2 as [X2| ->]; lra.
  - destruct Y2 as [Y2| ->]; lra.
Qed.


(** The confidence grows with the score and stays between the doubles
    0.1 and 0.99. *)
Lemma clampConfidence_monotone (s s' : Q) :
  (s <= s')%Q ->
  (lit (10 # 100) <= clampConfidence s /\
   clampConfidence s <= clampConfidence s' /\
   clampConfidence s' <= lit (99 # 100))%Q.
Proof.
  intros Hs. rewrite !clampConfidence_spec. unfold lit, round2, clamp.
  set (v := Qmin (Qmax s (10 # 100)) (99 # 100)).
  set (v' := Qmin (Qmax s' (10 # 100)) (99 # 100)).
  assert (Hv : (10 # 100 <= v)%Q)
    by (unfold v; apply Q.min_glb; [apply Q.le_max_r|discriminate]).
  assert (Hvv : (v <= v')%Q)
    by (unfold v, v'; apply Q.min_le_compat_r, Q.max_le_compat_r; exact Hs).
  assert (Hv' : (v' <= 99 # 100)%Q) by apply Q.le_min_r.
  assert (F0 : (Qfloor (100 * (10 # 100) + (1 # 2)) <= Qfloor (100 * v + (1 # 2)))%Z)
    by (apply Qfloor_resp_le; lra).
  assert (F1 : (Qfloor (100 * v + (1 # 2)) <= Qfloor (100 * v' + (1 # 2)))%Z)
    by (apply Qfloor_resp_le; lra).
  assert (F2 : (Qfloor (100 * v' + (1 # 2)) <= Qfloor (100 * (99 # 100) + (1 # 2)))%Z)
    by (apply Qfloor_resp_le; lra).
  change (Qfloor (100 * (10 # 100) + (1 # 2))) with 10%Z in F0.
  change (Qfloor (100 * (99 # 100) + (1 # 2))) with 99%Z in F2.
  repeat split; apply round64_mono; unfold Qle; cbn [Qnum Qden]; lia.
Qed.

(** X12.  The confidence of a detection grows with the score given and
    lies between the doubles 0.1 and 0.99: a higher score never gives a
    lower confidence. *)
Theorem maskToBoundary_confidence_monotone (maskBuffer : Buffer)
  (label : string) (score score' : Q) (pageIndex idx : Z)
  (customTypes : list RoomTypeDefinition) (d d' : RoomDetection) :
  (score <= score')%Q ->
  extract maskBuffer label score pageIndex idx customTypes = Normal (Some d) ->
  extract maskBuffer label score' pageIndex idx customTypes = Normal (Some d') ->
  exists c c',
    rd_confidence d = Num c /\ rd_confidence d' = Num c' /\
    (lit (10 # 100) <= c /\ c <= c' /\ c' <= lit (99 # 100))%Q.
Proof.
  intros Hs Hd Hd'.
  apply maskToBoundary_inv in Hd, Hd'.
  destruct Hd as [_ [_ [_ [_ [_ Hc]]]]]. destruct Hd' as [_ [_ [_ [_ [_ Hc']]]]].
  exists (clampConfidence score), (clampConfidence score').
  split; [exact Hc|]. split; [exact Hc'|].
  apply clampConfidence_monotone. exact Hs.
Qed.

(** The text before the first comma, for a text without comma. *)
Lemma upto_comma_none (s : string) :
  Str.split_comma_1 s = None -> Str.upto_comma s = s.
Proof.
  induction s as [|c s IH]; [reflexivity|].
  cbn [Str.split_comma_1 Str.upto_comma].
  destruct (Ascii.eqb c ","); [discriminate|].
  intros Hn. rewrite (IH Hn). reflexivity.
Qed.

(** X13.  [toPngBuffer] gives [null] for the empty mask only, and reads a
    payload without comma, as base64 text is, the same with and without
    the prefix [data:image/png;base64,]. *)
Theorem toPngBuffer_forms (payload : string) :
  payload <> ""%string ->
  Str.split_comma_1 payload = None ->
  toPngBuffer Buffer_from_base64 ("data:image/png;base64," ++ payload)%string
  = Some (Buffer_from_base64 payload) /\
  toPngBuffer Buffer_from_base64 payload = Some (Buffer_from_base64 payload) /\
  forall mask, toPngBuffer Buffer_from_base64 mask = None <-> mask = ""%string.
Proof.
  intros Hne Hnc. split; [|split].
  - unfold toPngBuffer.
    assert (Hp : Str.startsWith ("data:image/png;base64," ++ payload)
                                "data:image/png;base64," = true)
      by (apply startsWith_spec; exists payload; reflexivity).
    rewrite Hp. cbv [String.append]. cbn. rewrite (upto_comma_none _ Hnc). reflexivity.
  - unfold toPngBuffer.
    destruct (String.eqb payload "") eqn:He; [apply String.eqb_eq in He; contradiction|].
    destruct (Str.startsWith payload "data:image/png;base64,") eqn:Hp; [|reflexivity].
    exfalso. apply startsWith_spec in Hp. destruct Hp as [post ->].
    cbv [String.append] in Hnc. cbn in Hnc. discriminate Hnc.
  - intros mask. unfold toPngBuffer. split.
    + destruct (String.eqb mask "") eqn:He; [intros _; apply String.eqb_eq; exact He|].
      destruct (Str.startsWith _ _); discriminate.
    + intros ->. reflexivity.
Qed.

(** The identifier of a detection names its segment. *)
Lemma hfRoomId_inj (pageIndex i j : Z) :
  hfRoomId pageIndex i = hfRoomId pageIndex j -> i = j.
Proof.
  unfold hfRoomId. intros E.
  apply append_inv_head, append_inv_head, append_inv_head in E.
  apply of_Z_inj. exact E.
Qed.

(** The loop adds at most one detection a segment, named after the index
    of its segment. *)
Lemma analyzeSegments_added (segments : list Segment) :
  forall (idx pageIndex : Z) (customTypes : list RoomTypeDefinition)
         (detections : list RoomDetection),
  exists (added : list RoomDetection) (idxs : list Z),
    analyzeSegments PNG_sync_read Buffer_from_base64 segments idx pageIndex
      customTypes detections = Normal (detections ++ added) /\
    map rd_id added = map (hfRoomId pageIndex) idxs /\
    Sorted.StronglySorted Z.lt idxs /\
    List.Forall (fun i => idx <= i < idx + Z.of_nat (length segments)) idxs /\
    (length added <= length segments)%nat.
Proof.
  induction segments as [|segment rest IH]; intros idx pageIndex customTypes detections.
  - exists [], []. rewrite app_nil_r.
    repeat split; try constructor; try reflexivity.
  - assert (Hskip : forall dets,
      exists added idxs,
        analyzeSegments PNG_sync_read Buffer_from_base64 rest (idx + 1) pageIndex
          customTypes dets = Normal (dets ++ added) /\
        map rd_id added = map (hfRoomId pageIndex) idxs /\
        Sorted.StronglySorted Z.lt idxs /\
        List.Forall (fun i => idx < i < idx + Z.of_nat (length (segment :: rest))) idxs /\
        (length added <= length rest)%nat).
    { intros dets. destruct (IH (idx + 1) pageIndex customTypes dets)
        as [added [idxs [Hrun [Hids [Hnd [Hrange Hlen]]]]]].
      exists added, idxs. repeat split; try assumption.
      eapply List.Forall_impl; [|exact Hrange]. cbn [length]. intros i Hi. cbv beta in Hi. lia. }
    assert (Hpass : exists added idxs,
        analyzeSegments PNG_sync_read Buffer_from_base64 rest (idx + 1) pageIndex
          customTypes detections = Normal (detections ++ added) /\
        map rd_id added = map (hfRoomId pageIndex) idxs /\
        Sorted.StronglySorted Z.lt idxs /\
        List.Forall (fun i => idx <= i < idx + Z.of_nat (length (segment :: rest))) idxs /\
        (length added <= length (segment :: rest))%nat).
    { destruct (Hskip detections) as [added [idxs [Hrun [Hids [Hnd [Hrange Hlen]]]]]].
      exists added, idxs. repeat split; try assumption.
      - eapply List.Forall_impl; [|exact Hrange]. intros i Hi. cbv beta in Hi. lia.
      - cbn [length]. lia. }
    cbn [analyzeSegments]. cbv zeta.
    destruct (seg_mask segment) as [mask|]; [|exact Hpass].
    destruct (toPngBuffer Buffer_from_base64 mask) as [maskBuffer|]; [|exact Hpass].
    destruct (length maskBuffer =? 0)%nat; [exact Hpass|].
    match goal with
    | |- context [maskToBoundary _ ?b ?l ?s ?p ?i ?c] =>
        destruct (maskToBoundary PNG_sync_read b l s p i c) as [[d|]|e] eqn:Hd
    end; cbn [cbind].
    + destruct (Hskip (detections ++ [d])) as [added [idxs [Hrun [Hids [Hnd [Hrange Hlen]]]]]].
      exists (d :: added), (idx :: idxs).
      split; [rewrite Hrun, <- app_assoc; reflexivity|].
      apply maskToBoundary_inv in Hd. destruct Hd as [_ [_ [_ [Hid _]]]].
      split; [cbn [map]; rewrite Hid, Hids; reflexivity|].
      split; [|split].
      * constructor; [exact Hnd|].
        eapply List.Forall_impl; [|exact Hrange]. intros i Hi. cbv beta in Hi. lia.
      * constructor; [cbn [length]; lia|].
        eapply List.Forall_impl; [|exact Hrange]. intros i Hi. cbv beta in Hi. lia.
      * cbn [length]. lia.
    + exact Hpass.
    + exfalso.
      match type of Hd with
      | maskToBoundary _ ?b ?l ?s ?p ?i ?c = _ =>
          destruct (maskToBoundary_returns PNG_sync_read b l s p i c) as [r Hr]
      end.
      rewrite Hr in Hd. discriminate Hd.
Qed.

Lemma StronglySorted_lt_NoDup (l : list Z) :
  Sorted.StronglySorted Z.lt l -> List.NoDup l.
Proof.
  induction 1 as [|a l Hs IH Ha]; constructor; [|exact IH].
  intros Hin. rewrite List.Forall_forall in Ha. specialize (Ha a Hin). lia.
Qed.

(** The segment loop returns at most one detection a segment, in the
    order of the segments; each detection is named after the page and the
    index of its segment. *)
Lemma analyzeSegments_distinct (segments : list Segment) (pageIndex : Z)
  (customTypes : list RoomTypeDefinition) :
  exists (found : list RoomDetection) (idxs : list Z),
    analyzeSegments PNG_sync_read Buffer_from_base64 segments 0 pageIndex
      customTypes [] = Normal found /\
    (length found <= length segments)%nat /\
    map rd_id found = map (hfRoomId pageIndex) idxs /\
    Sorted.StronglySorted Z.lt idxs /\
    List.Forall (fun i => 0 <= i < Z.of_nat (length segments)) idxs /\
    List.NoDup (map rd_id found).
Proof.
  destruct (analyzeSegments_added segments 0 pageIndex customTypes [])
    as [added [idxs [Hrun [Hids [Hnd [Hrange Hlen]]]]]].
  exists added, idxs. cbn [app] in Hrun.
  repeat split; try assumption.
  rewrite Hids. apply Finite.Injective_map_NoDup.
  - intros i j. apply hfRoomId_inj.
  - apply StronglySorted_lt_NoDup. exact Hnd.
Qed.

End ExtractorExtras.

(** Two masks of one pixel that differ in their color channels and in
    the value of their alpha. *)
Lemma maskToBoundary_alpha_only_witness :
  maskToBoundary read_raw [1; 1; 0; 0; 0; 255] "kitchen" (1 # 2) 0 0 []
  = maskToBoundary read_raw [1; 1; 9; 9; 9; 7] "kitchen" (1 # 2) 0 0 [].
Proof.
  apply (maskToBoundary_alpha_only read_raw [1; 1; 0; 0; 0; 255] [1; 1; 9; 9; 9; 7]
           (mkPNG 1 1 [0; 0; 0; 255]) (mkPNG 1 1 [9; 9; 9; 7])).
  - reflexivity.
  - reflexivity.
  - reflexivity.
  - reflexivity.
  - cbn [png_width png_height]. intros x y Hx Hy.
    assert (x = 0) as -> by lia. assert (y = 0) as -> by lia. reflexivity.
Defined.

(** A mask of two by two pixels with its last pixel opaque, and the mask
    with all four opaque. *)
Lemma maskToBoundary_monotone_witness :
  exists d1 d2 : RoomDetection,
    maskToBoundary read_raw (raw_mask 2 2 (fun x y => (x =? 1) && (y =? 1)))
      "hall" (1 # 2) 0 0 [] = Normal (Some d1) /\
    maskToBoundary read_raw (raw_mask 2 2 (fun _ _ => true))
      "hall" (1 # 2) 0 0 [] = Normal (Some d2) /\
    (b_x (rd_boundary d2) <= b_x (rd_boundary d1))%Q /\
    (b_y (rd_boundary d2) <= b_y (rd_boundary d1))%Q /\
    (b_width (rd_boundary d1) <= b_width (rd_boundary d2))%Q /\
    (b_height (rd_boundary d1) <= b_height (rd_boundary d2))%Q.
Proof.
  set (on := fun x y => (x =? 1) && (y =? 1)).
  assert (Hd1 : exists d1,
            maskToBoundary read_raw (raw_mask 2 2 on) "hall" (1 # 2) 0 0 []
            = Normal (Some d1)) by (eexists; vm_compute; reflexivity).
  destruct Hd1 as [d1 Hd1]. exists d1.
  destruct (maskToBoundary_monotone read_raw
              (raw_mask 2 2 on) (raw_mask 2 2 (fun _ _ => true))
              (mkPNG 2 2 (drop 2 (raw_mask 2 2 on)))
              (mkPNG 2 2 (drop 2 (raw_mask 2 2 (fun _ _ => true))))
              "hall" (1 # 2) 0 0 [] d1) as [d2 H2].
  - vm_compute. reflexivity.
  - vm_compute. reflexivity.
  - reflexivity.
  - reflexivity.
  - intros x y Ho.
    apply (only_opaque _ 1 1) in Ho; [|vm_compute; reflexivity].
    destruct Ho as [-> ->]. unfold opaque. cbn [png_width png_height].
    split; [lia|]. split; [lia|]. vm_compute. reflexivity.
  - exact Hd1.
  - exists d2. split; [exact Hd1|exact H2].
Defined.

(** The last pixel of a mask of 100 by 2 pixels. *)
Lemma maskToBoundary_within_witness :
  exists d : RoomDetection,
    maskToBoundary read_raw (raw_mask 100 2 (fun x y => (x =? 99) && (y =? 1)))
      "office" (3 # 2) 3 0 [] = Normal (Some d) /\
    ((0 <= b_x (rd_boundary d) /\ b_x (rd_boundary d) < 1) /\
     (0 <= b_y (rd_boundary d) /\ b_y (rd_boundary d) < 1) /\
     (b_x (rd_boundary d) + b_width (rd_boundary d) <= 1 \/
      b_width (rd_boundary d) = lit (5 # 100)) /\
     (b_y (rd_boundary d) + b_height (rd_boundary d) <= 1 \/
      b_height (rd_boundary d) = lit (5 # 100)) /\
     b_x (rd_boundary d) + b_width (rd_boundary d) < 1 + lit (5 # 100) /\
     b_y (rd_boundary d) + b_height (rd_boundary d) < 1 + lit (5 # 100))%Q.
Proof.
  set (on := fun x y => (x =? 99) && (y =? 1)).
  assert (Hd : exists d,
            maskToBoundary read_raw (raw_mask 100 2 on) "office" (3 # 2) 3 0 []
            = Normal (Some d)) by (eexists; vm_compute; reflexivity).
  destruct Hd as [d Hd]. exists d. split; [exact Hd|].
  apply (maskToBoundary_within read_raw (raw_mask 100 2 on)
           (mkPNG 100 2 (drop 2 (raw_mask 100 2 on))) "office" (3 # 2) 3 0 [] d).
  - vm_compute. reflexivity.
  - cbn [png_width]. lia.
  - cbn [png_height]. lia.
  - exact Hd.
Defined.

(** A score below the range and a score above it on one mask. *)
Lemma maskToBoundary_confidence_monotone_witness :
  exists (d d' : RoomDetection) (c c' : Q),
    maskToBoundary read_raw [1; 1; 0; 0; 0; 255] "bath" (1 # 50) 0 0 []
    = Normal (Some d) /\
    maskToBoundary read_raw [1; 1; 0; 0; 0; 255] "bath" (3 # 2) 0 0 []
    = Normal (Some d') /\
    rd_confidence d = Num c /\ rd_confidence d' = Num c' /\
    (lit (10 # 100) <= c /\ c <= c' /\ c' <= lit (99 # 100))%Q.
Proof.
  assert (Hd : exists d,
            maskToBoundary read_raw [1; 1; 0; 0; 0; 255] "bath" (1 # 50) 0 0 []
            = Normal (Some d)) by (eexists; vm_compute; reflexivity).
  assert (Hd' : exists d',
            maskToBoundary read_raw [1; 1; 0; 0; 0; 255] "bath" (3 # 2) 0 0 []
            = Normal (Some d')) by (eexists; vm_compute; reflexivity).
  destruct Hd as [d Hd]. destruct Hd' as [d' Hd'].
  destruct (maskToBoundary_confidence_monotone read_raw [1; 1; 0; 0; 0; 255]
              "bath" (1 # 50) (3 # 2) 0 0 [] d d') as [c [c' H]].
  - unfold Qle. cbn. lia.
  - exact Hd.
  - exact Hd'.
  - exists d, d', c, c'. split; [exact Hd|]. split; [exact Hd'|exact H].
Defined.

(** The start of the base64 text of a PNG file. *)
Lemma toPngBuffer_forms_witness :
  toPngBuffer bytes_of "data:image/png;base64,iVBORw0KGgo="
  = Some (bytes_of "iVBORw0KGgo=") /\
  toPngBuffer bytes_of "iVBORw0KGgo=" = Some (bytes_of "iVBORw0KGgo=") /\
  forall mask : string, toPngBuffer bytes_of mask = None <-> mask = ""%string.
Proof.
  apply (toPngBuffer_forms bytes_of "iVBORw0KGgo=").
  - discriminate.
  - reflexivity.
Defined.

(* ================================================================= *)
(** * Facts about the analyzer of a page *)

Section AnalyzerFacts.

Variable PNG_sync_read : Buffer -> completion PNG.
Variable Buffer_from_base64 : string -> Buffer.
Variable imageSegmentation : Buffer -> completion (option (list Segment)).
Variable HF_TOKEN : option string.

(** X14.  [analyzePageWithHf] fails only with the failure of the call of
    the remote model, which it makes only with a token and for the payload
    of the thumbnail; otherwise it returns detections named after the page
    and the index of their segment, in the order of the segments, so that
    their identifiers are pairwise distinct. *)
Theorem analyzePageWithHf_outcome (thumbnailDataUrl : string) (pageIndex : Z)
  (customTypes : list RoomTypeDefinition) :
  (exists (error : exn) (base64 : string),
     analyzePageWithHf PNG_sync_read Buffer_from_base64 imageSegmentation HF_TOKEN
       thumbnailDataUrl pageIndex customTypes = Throw error /\
     truthy HF_TOKEN = true /\
     Str.split_comma_1 thumbnailDataUrl = Some base64 /\
     imageSegmentation (Buffer_from_base64 base64) = Throw error) \/
  (exists (found : list RoomDetection) (idxs : list Z),
     analyzePageWithHf PNG_sync_read Buffer_from_base64 imageSegmentation HF_TOKEN
       thumbnailDataUrl pageIndex customTypes = Normal found /\
     map rd_id found = map (hfRoomId pageIndex) idxs /\
     Sorted.StronglySorted Z.lt idxs /\
     List.Forall (fun i => 0 <= i) idxs /\
     List.NoDup (map rd_id found)).
Proof.
  assert (Hnone : exists (found : list RoomDetection) (idxs : list Z),
            Normal [] = Normal found /\
            map rd_id found = map (hfRoomId pageIndex) idxs /\
            Sorted.StronglySorted Z.lt idxs /\
            List.Forall (fun i => 0 <= i) idxs /\
            List.NoDup (map rd_id found)).
  { exists [], []. repeat split; constructor. }
  unfold analyzePageWithHf, inference.
  destruct (truthy HF_TOKEN) eqn:Ht; cbn [negb]; [|right; exact Hnone].
  destruct (Str.split_comma_1 thumbnailDataUrl) as [base64|] eqn:Hs;
    [|right; exact Hnone].
  destruct (String.eqb base64 ""); [right; exact Hnone|].
  destruct (imageSegmentation (Buffer_from_base64 base64)) as [[segments|]|error] eqn:Hi;
    cbn [cbind].
  - right.
    destruct (analyzeSegments_distinct PNG_sync_read Buffer_from_base64 segments
                pageIndex customTypes)
      as [found [idxs [Hrun [_ [Hids [Hsorted [Hrange Hnd]]]]]]].
    exists found, idxs. split; [exact Hrun|]. split; [exact Hids|].
    split; [exact Hsorted|]. split; [|exact Hnd].
    eapply List.Forall_impl; [|exact Hrange]. intros i Hi'. cbv beta in Hi'. lia.
  - right. exact Hnone.
  - left. exists error, base64. repeat split; first [reflexivity | assumption].
Qed.

End AnalyzerFacts.

(* ================================================================= *)
(** * Facts about the route [/api/analysis] *)

Section AnalysisRouteFacts.

Import AnalysisRoute.

Variable Number_toString : Q -> string.

(** The types of the rooms of the mock detector are labels of the
    definitions. *)
Lemma mockAnalyzeRooms_types (pageIndex : Z) (classification : ConstructionType)
  (customTypes : list RoomTypeDefinition) (h : heap) (room : RoomDetection) :
  In room (fst (mockAnalyzeRooms pageIndex classification customTypes h)) ->
  In (rd_type room) (map def_label (baseRoomTypes ++ customTypes)).
Proof.
  intros Hin. rewrite mockAnalyzeRooms_run in Hin. cbn [fst] in Hin.
  apply list_elem_of_In, list_elem_of_lookup_1 in Hin. destruct Hin as [i Hl].
  apply roomsFrom_lookup in Hl. destruct Hl as [idx [_ ->]].
  rewrite roomFrom_eq. cbv zeta. cbn [rd_type].
  apply List.in_map. apply select_definition_in.
Qed.

(** The entries the filter keeps. *)
Lemma filterEntries_in (entries : list (option RoomTypeEntry))
  (def : RoomTypeDefinition) :
  In def (filterEntries entries) <->
  In (Some (mkEntry (Some (def_label def)) (Some (def_color def)))) entries /\
  trim (def_label def) <> ""%string.
Proof.
  unfold filterEntries. rewrite <- !list_elem_of_In, list_elem_of_omap. split.
  - intros [entry [Hin Hv]]. unfold validEntry in Hv.
    destruct entry as [[[label|] [color|]]|]; try discriminate Hv.
    destruct (trim label) eqn:Ht; cbn in Hv; [discriminate Hv|].
    inversion Hv. subst def. cbn [def_label def_color]. rewrite Ht.
    split; [exact Hin|discriminate].
  - intros [Hin Ht]. eexists. split; [exact Hin|].
    unfold validEntry. destruct (trim (def_label def)); [contradiction|].
    cbn. destruct def. reflexivity.
Qed.

(** The answer to a request that passes the checks. *)
Lemma POST_valid (body : AnalysisRequest) (pageIndex : Q)
  (classification : ConstructionType) (h : list Q) :
  bd_pageIndex body = Index pageIndex ->
  (0 <= pageIndex)%Q ->
  bd_classification body = Some classification ->
  bd_customRoomTypes body <> NotArray ->
  exists customTypes : list RoomTypeDefinition,
    (forall def, In def customTypes ->
       exists entries, bd_customRoomTypes body = Entries entries /\
                       In def (filterEntries entries)) /\
    POST Number_toString (Normal body) h
    = (mkResponse 200
         (RoomsBody (fst (Doubles.mockAnalyzeRooms Number_toString pageIndex
                            classification customTypes h))),
       snd (Doubles.mockAnalyzeRooms Number_toString pageIndex classification
              customTypes h)).
Proof.
  intros Hi Hp Hc Ht. unfold POST. rewrite Hi, Hc.
  apply Qle_bool_iff in Hp. rewrite Hp. cbn [negb].
  destruct (bd_customRoomTypes body) as [| |entries] eqn:He.
  - exists []. split; [intros def []|].
    unfold Doubles.bind, Doubles.ret.
    destruct (Doubles.mockAnalyzeRooms _ _ _ _ h). reflexivity.
  - contradiction.
  - exists (filterEntries entries). split.
    + intros def Hin. exists entries. split; [reflexivity|exact Hin].
    + unfold Doubles.bind, Doubles.ret.
      destruct (Doubles.mockAnalyzeRooms _ _ _ _ h). reflexivity.
Qed.

(** X18.  The route [/api/analysis] answers 200 exactly to a body whose
    page index is a number that is not negative, zero included, whose
    classification is one of the two, and whose custom types, when
    given, are an array; 400 exactly when the index or the
    classification is refused; 500 exactly when the body cannot be read,
    or the index and the classification pass and the custom types are no
    array. *)
Theorem analysis_POST_status (request_json : completion AnalysisRequest)
  (h : list Q) :
  let response := fst (POST Number_toString request_json h) in
  (resp_status response = 200 <->
   exists body pageIndex classification,
     request_json = Normal body /\
     bd_pageIndex body = Index pageIndex /\ (0 <= pageIndex)%Q /\
     bd_classification body = Some classification /\
     bd_customRoomTypes body <> NotArray) /\
  (resp_status response = 400 <->
   exists body,
     request_json = Normal body /\
     ((forall pageIndex, bd_pageIndex body = Index pageIndex -> (pageIndex < 0)%Q) \/
      bd_classification body = None)) /\
  (resp_status response = 500 <->
   (exists error, request_json = Throw error) \/
   (exists body pageIndex classification,
      request_json = Normal body /\
      bd_pageIndex body = Index pageIndex /\ (0 <= pageIndex)%Q /\
      bd_classification body = Some classification /\
      bd_customRoomTypes body = NotArray)).
Proof.
  cbv zeta. destruct request_json as [body|error].
  - destruct (bd_pageIndex body) as [|negative|pageIndex] eqn:Hi.
    + unfold POST. rewrite Hi. cbn. repeat split; try discriminate.
      * intros [b [p [c [[= <-] [H _]]]]]. rewrite Hi in H. discriminate H.
      * intros _. exists body. split; [reflexivity|]. left.
        intros p H. rewrite Hi in H. discriminate H.
      * intros [[e [=]]|[b [p [c [[= <-] [H _]]]]]]. rewrite Hi in H. discriminate H.
    + unfold POST. rewrite Hi. cbn. repeat split; try discriminate.
      * intros [b [p [c [[= <-] [H _]]]]]. rewrite Hi in H. discriminate H.
      * intros _. exists body. split; [reflexivity|]. left.
        intros p H. rewrite Hi in H. discriminate H.
      * intros [[e [=]]|[b [p [c [[= <-] [H _]]]]]]. rewrite Hi in H. discriminate H.
    + destruct (Qlt_le_dec pageIndex 0) as [Hlt|Hge].
      * assert (Hb : Qle_bool 0 pageIndex = false).
        { destruct (Qle_bool 0 pageIndex) eqn:E; [|reflexivity].
          apply Qle_bool_iff in E. exfalso. apply (Qlt_not_le _ _ Hlt E). }
        unfold POST. rewrite Hi, Hb. cbn.
        repeat split; try discriminate.
        -- intros [b [p [c [[= <-] [H [Hp _]]]]]]. rewrite Hi in H.
           inversion H. subst p. exfalso. apply (Qlt_not_le _ _ Hlt Hp).
        -- intros _. exists body. split; [reflexivity|]. left.
           intros p H. rewrite Hi in H. inversion H. subst p. exact Hlt.
        -- intros [[e [=]]|[b [p [c [[= <-] [H [Hp _]]]]]]]. rewrite Hi in H.
           inversion H. subst p. exfalso. apply (Qlt_not_le _ _ Hlt Hp).
      * assert (Hb : Qle_bool 0 pageIndex = true) by (apply Qle_bool_iff; exact Hge).
        destruct (bd_classification body) as [classification|] eqn:Hc.
        -- destruct (bd_customRoomTypes body) as [| |entries] eqn:He.
           ++ destruct (POST_valid body pageIndex classification h Hi Hge Hc)
                as [customTypes [_ ->]]; [rewrite He; discriminate|].
              cbn [fst resp_status]. repeat split; try discriminate.
              ** intros _. exists body, pageIndex, classification.
                 rewrite He. repeat split; try assumption. discriminate.
              ** intros [b [[= <-] [H|H]]]; [|rewrite Hc in H; discriminate H].
                 specialize (H pageIndex Hi). exfalso. apply (Qlt_not_le _ _ H Hge).
              ** intros [[e [=]]|[b [p [c [[= <-] [_ [_ [_ H]]]]]]]].
                 rewrite He in H. discriminate H.
           ++ unfold POST. rewrite Hi, Hc, He, Hb. cbn.
              repeat split; try discriminate.
              ** intros [b [p [c [[= <-] [_ [_ [_ H]]]]]]]. rewrite He in H.
                 contradiction.
              ** intros [b [[= <-] [H|H]]]; [|rewrite Hc in H; discriminate H].
                 specialize (H pageIndex Hi). exfalso. apply (Qlt_not_le _ _ H Hge).
              ** intros _. right. exists body, pageIndex, classification.
                 repeat split; assumption.
           ++ destruct (POST_valid body pageIndex classification h Hi Hge Hc)
                as [customTypes [_ ->]]; [rewrite He; discriminate|].
              cbn [fst resp_status]. repeat split; try discriminate.
              ** intros _. exists body, pageIndex, classification.
                 rewrite He. repeat split; try assumption. discriminate.
              ** intros [b [[= <-] [H|H]]]; [|rewrite Hc in H; discriminate H].
                 specialize (H pageIndex Hi). exfalso. apply (Qlt_not_le _ _ H Hge).
              ** intros [[e [=]]|[b [p [c [[= <-] [_ [_ [_ H]]]]]]]].
                 rewrite He in H. discriminate H.
        -- unfold POST. rewrite Hi, Hc, Hb. cbn.
           repeat split; try discriminate.
           ++ intros [b [p [c [[= <-] [_ [_ [H _]]]]]]]. rewrite Hc in H.
              discriminate H.
           ++ intros _. exists body. split; [reflexivity|]. right. exact Hc.
           ++ intros [[e [=]]|[b [p [c [[= <-] [_ [_ [H _]]]]]]]]. rewrite Hc in H.
              discriminate H.
  - cbn. repeat split; try discriminate.
    + intros [b [p [c [[=] _]]]].
    + intros [b [[=] _]].
    + intros _. left. exists error. reflexivity.
Qed.

(** X19.  To a request that passes its checks and whose page index is a
    whole number below 2^53 the route [/api/analysis] answers with three
    to five rooms, each of them within the page, and of a base type or of
    a custom type of the request whose label is a text with more than
    white space and whose color is a text: an entry that is refused gives
    no room.  The route accepts page indices that are not whole as well;
    for those the rooms need not lie within the page, see
    [analysis_POST_fraction]. *)
Theorem analysis_POST_rooms (body : AnalysisRequest) (index : Z)
  (classification : ConstructionType) (h : list Q) :
  bd_pageIndex body = Index (inject_Z index) ->
  0 <= index < 2 ^ 53 ->
  bd_classification body = Some classification ->
  bd_customRoomTypes body <> NotArray ->
  exists (rooms : list RoomDetection) (h' : list Q),
    POST Number_toString (Normal body) h = (mkResponse 200 (RoomsBody rooms), h') /\
    (3 <= length rooms <= 5)%nat /\
    Forall (fun room =>
              mock_boundary_ok (rd_boundary room) /\
              (In (rd_type room) (map def_label baseRoomTypes) \/
               exists entries color,
                 bd_customRoomTypes body = Entries entries /\
                 In (Some (mkEntry (Some (rd_type room)) (Some color))) entries /\
                 trim (rd_type room) <> ""%string))
           rooms.
Proof.
  intros Hi Hp Hc Ht.
  assert (Hq : (0 <= inject_Z index)%Q)
    by (change 0%Q with (inject_Z 0); rewrite <- Zle_Qle; lia).
  destruct (POST_valid body (inject_Z index) classification h Hi Hq Hc Ht)
    as [customTypes [Hcustom Hrun]].
  eexists. eexists. split; [exact Hrun|].
  assert (Habs : Z.abs (index + 1) <= 2 ^ 53)
    by (change (2 ^ 53) with 9007199254740992 in *; lia).
  destruct (Doubles_mockAnalyzeRooms_run Number_toString index classification
              customTypes h Habs) as [rooms [h' [Hd Hsame]]].
  rewrite Hd. cbn [fst].
  destruct (mockAnalyzeRooms_frame index classification customTypes)
    as [rooms' [value [Hframe [Hlen Hok]]]].
  pose proof (mockAnalyzeRooms_types index classification customTypes []) as Hty.
  rewrite Hframe in Hsame, Hty. cbn [fst] in Hsame, Hty.
  specialize (Hok ltac:(lia)). rewrite List.Forall_forall in Hok.
  split; [rewrite (Forall2_length _ _ _ Hsame); exact Hlen|].
  clear Hd Hrun Hframe Hlen.
  induction Hsame as [|room room' rooms rooms' [_ [Htype [_ [Hbound _]]]] Hrest IH];
    constructor.
  - rewrite Hbound, Htype. split; [apply Hok; left; reflexivity|].
    specialize (Hty room' (or_introl eq_refl)). rewrite List.map_app in Hty.
    apply List.in_app_or in Hty. destruct Hty as [Hb|Hcu]; [left; exact Hb|].
    right. apply List.in_map_iff in Hcu. destruct Hcu as [def [Hl Hd]].
    destruct (Hcustom def Hd) as [entries [He Hf]].
    apply filterEntries_in in Hf. destruct Hf as [Hf Htrim].
    exists entries, (def_color def). rewrite <- Hl.
    split; [exact He|]. split; [exact Hf|exact Htrim].
  - apply IH.
    + intros room0 Hin. apply Hok. right. exact Hin.
    + intros room0 Hin. apply Hty. right. exact Hin.
Qed.

End AnalysisRouteFacts.

(** A request for page 0 with two custom types, of which the one with a
    blank label is refused. *)
Lemma analysis_POST_rooms_witness :
  exists (rooms : list RoomDetection) (h' : list Q),
    AnalysisRoute.POST digits_of
      (Normal (AnalysisRoute.mkAnalysisRequest
                 (AnalysisRoute.Index (inject_Z 0)) (Some commercial)
                 (AnalysisRoute.Entries
                    [Some (AnalysisRoute.mkEntry (Some "  "%string)
                             (Some "#000000"%string));
                     None;
                     Some (AnalysisRoute.mkEntry (Some "Lab"%string)
                             (Some "#123456"%string))])))
      []
    = (AnalysisRoute.mkResponse 200 (AnalysisRoute.RoomsBody rooms), h') /\
    (3 <= length rooms <= 5)%nat /\
    Forall (fun room =>
              mock_boundary_ok (rd_boundary room) /\
              (In (rd_type room) (map def_label baseRoomTypes) \/
               exists entries color,
                 AnalysisRoute.Entries
                   [Some (AnalysisRoute.mkEntry (Some "  "%string)
                            (Some "#000000"%string));
                    None;
                    Some (AnalysisRoute.mkEntry (Some "Lab"%string)
                            (Some "#123456"%string))]
                 = AnalysisRoute.Entries entries /\
                 In (Some (AnalysisRoute.mkEntry (Some (rd_type room)) (Some color)))
                    entries /\
                 trim (rd_type room) <> ""%string))
           rooms.
Proof.
  apply (analysis_POST_rooms digits_of
           (AnalysisRoute.mkAnalysisRequest
              (AnalysisRoute.Index (inject_Z 0)) (Some commercial)
              (AnalysisRoute.Entries
                 [Some (AnalysisRoute.mkEntry (Some "  "%string)
                          (Some "#000000"%string));
                  None;
                  Some (AnalysisRoute.mkEntry (Some "Lab"%string)
                          (Some "#123456"%string))]))
           0 commercial []).
  - reflexivity.
  - lia.
  - reflexivity.
  - cbn. discriminate.
Defined.

(** A page index that is not whole passes the checks of the route as
    well: for 1815674870.5 the first room of the answer starts left of
    the page. *)
Example analysis_POST_fraction :
  exists (room : RoomDetection) (rooms : list RoomDetection) (h' : list Q),
    AnalysisRoute.POST digits_of
      (Normal (AnalysisRoute.mkAnalysisRequest
                 (AnalysisRoute.Index (3631349741 # 2)) (Some residential)
                 AnalysisRoute.Absent))
      []
    = (AnalysisRoute.mkResponse 200 (AnalysisRoute.RoomsBody (room :: rooms)), h') /\
    (b_x (rd_boundary room) < 0)%Q.
Proof.
  eexists. eexists. eexists. split; [vm_compute; reflexivity|].
  vm_compute. reflexivity.
Qed.

(* ================================================================= *)
(** * Facts about the handlers of the page *)

Section PageFacts.

Import Home.

Lemma take_app_take {A : Type} (l : list A) :
  forall (n m : nat) (k : list A),
    (n <= m)%nat -> take n (l ++ take m k) = take n (l ++ k).
Proof.
  induction l as [|a l IH]; intros n m k Hn.
  - cbn [app]. rewrite take_take. f_equal. lia.
  - destruct n as [|n]; [reflexivity|]. cbn [app take]. f_equal.
    apply IH. lia.
Qed.

Lemma pushLog_fold (messages : list string) :
  forall (message : string) (log : list string),
    foldl (fun log message => pushLog message log) (pushLog message log) messages
    = take maxLogEntries (rev messages ++ message :: log).
Proof.
  induction messages as [|m messages IH]; intros message log; [reflexivity|].
  cbn [foldl rev]. rewrite IH. unfold pushLog. cbv zeta.
  change (rev messages ++ m :: take maxLogEntries (message :: log))
    with (rev messages ++ [m] ++ take maxLogEntries (message :: log)).
  rewrite app_assoc, take_app_take by lia. rewrite <- app_assoc. reflexivity.
Qed.

(** X20.  The log shows the last five messages, the newest first: after
    any messages pushed to an empty log, and after any messages pushed to
    a log whatever it held. *)
Theorem pushLog_last_five (messages log : list string) (message : string) :
  foldl (fun log message => pushLog message log) [] messages
  = take 5 (rev messages) /\
  foldl (fun log message => pushLog message log) log (message :: messages)
  = take 5 (rev messages ++ message :: log) /\
  (length (foldl (fun log message => pushLog message log) log (message :: messages))
   <= 5)%nat.
Proof.
  assert (H2 : foldl (fun log message => pushLog message log) log (message :: messages)
               = take 5 (rev messages ++ message :: log))
    by (cbn [foldl]; apply pushLog_fold).
  split; [|split; [exact H2|]].
  - destruct messages as [|m messages]; [reflexivity|].
    cbn [foldl]. rewrite pushLog_fold. reflexivity.
  - rewrite H2, length_take. lia.
Qed.

(** X21.  Selecting a page twice restores the pages; selecting it once
    makes it the current page and changes the mark of the pages with that
    identifier and nothing else of any page. *)
Theorem togglePageSelection_twice (pageId : string) (s : State) :
  pages (togglePageSelection pageId (togglePageSelection pageId s)) = pages s /\
  selectedPageId (togglePageSelection pageId s) = Some pageId /\
  Forall2 (fun page page' =>
             pv_id page' = pv_id page /\ pv_rooms page' = pv_rooms page /\
             pv_status page' = pv_status page /\
             pv_selected page'
             = (if String.eqb (pv_id page) pageId
                then negb (pv_selected page) else pv_selected page))
          (pages s) (pages (togglePageSelection pageId s)).
Proof.
  split; [|split; [reflexivity|]].
  - unfold togglePageSelection. cbn [pages]. rewrite List.map_map.
    rewrite <- (List.map_id (pages s)) at 2. apply List.map_ext.
    intros page. destruct (String.eqb (pv_id page) pageId) eqn:E.
    + cbn [pv_id]. rewrite E. cbn [pv_index pv_thumbnail pv_width pv_height
                                   pv_status pv_selected pv_rooms].
      rewrite Bool.negb_involutive. destruct page. reflexivity.
    + rewrite E. reflexivity.
  - unfold togglePageSelection. cbn [pages].
    induction (pages s) as [|page l IH]; [constructor|].
    cbn [map]. constructor; [|exact IH].
    destruct (String.eqb (pv_id page) pageId); repeat split; reflexivity.
Qed.

Lemma overrideRoom_id (room : RoomDetection) (data : PartialRoom) :
  pr_id data = None -> rd_id (overrideRoom room data) = rd_id room.
Proof. intros E. unfold overrideRoom. rewrite E. reflexivity. Qed.

Lemma overrideRoom_twice (room : RoomDetection) (data : PartialRoom) :
  overrideRoom (overrideRoom room data) data = overrideRoom room data.
Proof.
  unfold overrideRoom. cbn [rd_id rd_label rd_type rd_confidence rd_boundary rd_color].
  destruct data as [[i|] [l|] [t|] [c|] [b|] [k|] m]; reflexivity.
Qed.

(** Two maps over the pages of the state, one after the other. *)
Lemma updateRoom_pages (roomId : string) (data : PartialRoom) (s : State) :
  pages (updateRoom roomId data s)
  = map (fun page =>
           if bool_decide (Some (pv_id page) = selectedPageId s) then
             mkPagePreview (pv_id page) (pv_index page) (pv_thumbnail page)
               (pv_width page) (pv_height page) (pv_status page) (pv_selected page)
               (map (fun room =>
                       if String.eqb (rd_id room) roomId
                       then overrideRoom room data else room)
                    (pv_rooms page))
           else page)
        (pages s).
Proof.
  unfold updateRoom. cbn [pages]. apply List.map_ext. intros page.
  destruct (bool_decide _); reflexivity.
Qed.

(** X22.  An edit of a room that names no new identifier keeps the
    identifiers of all rooms, is the same done once or twice, and
    commutes with an edit of another room. *)
Theorem updateRoom_edits (roomId roomId' : string) (data data' : PartialRoom)
  (s : State) :
  pr_id data = None -> pr_id data' = None -> roomId <> roomId' ->
  map (fun page => map rd_id (pv_rooms page)) (pages (updateRoom roomId data s))
  = map (fun page => map rd_id (pv_rooms page)) (pages s) /\
  updateRoom roomId data (updateRoom roomId data s) = updateRoom roomId data s /\
  updateRoom roomId data (updateRoom roomId' data' s)
  = updateRoom roomId' data' (updateRoom roomId data s).
Proof.
  intros Hd Hd' Hne.
  assert (Hstate : forall s1 s2 : State,
            pages s1 = pages s2 -> selectedPageId s1 = selectedPageId s2 ->
            customRoomTypes s1 = customRoomTypes s2 ->
            newRoomType s1 = newRoomType s2 -> logEntries s1 = logEntries s2 ->
            s1 = s2).
  { intros [] [] H1 H2 H3 H4 H5. cbn in *. congruence. }
  split; [|split].
  - rewrite updateRoom_pages, List.map_map. apply List.map_ext. intros page.
    destruct (bool_decide _); [|reflexivity]. cbn [pv_rooms].
    rewrite List.map_map. apply List.map_ext. intros room.
    destruct (String.eqb (rd_id room) roomId); [|reflexivity].
    apply overrideRoom_id. exact Hd.
  - apply Hstate; try reflexivity.
    rewrite (updateRoom_pages roomId data (updateRoom roomId data s)).
    rewrite (updateRoom_pages roomId data s), List.map_map.
    apply List.map_ext. intros page.
    change (selectedPageId (updateRoom roomId data s)) with (selectedPageId s).
    destruct (bool_decide (Some (pv_id page) = selectedPageId s)) eqn:E.
    + cbn [pv_id pv_index pv_thumbnail pv_width pv_height pv_status pv_selected
           pv_rooms]. rewrite E. f_equal.
      rewrite List.map_map. apply List.map_ext. intros room.
      destruct (String.eqb (rd_id room) roomId) eqn:Er.
      * rewrite (overrideRoom_id _ _ Hd), Er. apply overrideRoom_twice.
      * rewrite Er. reflexivity.
    + rewrite E. reflexivity.
  - apply Hstate; try reflexivity.
    rewrite (updateRoom_pages roomId data (updateRoom roomId' data' s)).
    rewrite (updateRoom_pages roomId' data' (updateRoom roomId data s)).
    rewrite (updateRoom_pages roomId data s), (updateRoom_pages roomId' data' s).
    rewrite !List.map_map. apply List.map_ext. intros page.
    change (selectedPageId (updateRoom roomId data s)) with (selectedPageId s).
    change (selectedPageId (updateRoom roomId' data' s)) with (selectedPageId s).
    destruct (bool_decide (Some (pv_id page) = selectedPageId s)) eqn:E.
    + cbn [pv_id pv_index pv_thumbnail pv_width pv_height pv_status pv_selected
           pv_rooms]. rewrite E. f_equal.
      rewrite !List.map_map. apply List.map_ext. intros room.
      destruct (String.eqb (rd_id room) roomId) eqn:Er;
        destruct (String.eqb (rd_id room) roomId') eqn:Er';
        rewrite ?(overrideRoom_id _ _ Hd), ?(overrideRoom_id _ _ Hd'), ?Er, ?Er';
        try reflexivity.
      apply String.eqb_eq in Er, Er'. congruence.
    + rewrite E. reflexivity.
Qed.

(** The first definition with a label in a list with one more at its end. *)
Lemma find_snoc {A : Type} (f : A -> bool) (l : list A) (a : A) :
  List.find f (l ++ [a])
  = match List.find f l with
    | Some b => Some b
    | None => if f a then Some a else None
    end.
Proof.
  induction l as [|b l IH]; cbn [List.find app]; [reflexivity|].
  destruct (f b); [reflexivity|exact IH].
Qed.

Lemma find_label_in (type : string) (l : list RoomTypeDefinition) :
  In type (map def_label l) ->
  exists def, List.find (fun def => String.eqb (def_label def) type) l = Some def.
Proof.
  intros Hin. apply List.in_map_iff in Hin. destruct Hin as [d [Hl Hd]].
  destruct (List.find _ l) as [def|] eqn:F; [exists def; reflexivity|].
  exfalso. apply (List.find_none _ _ F) in Hd. rewrite Hl, String.eqb_refl in Hd.
  discriminate Hd.
Qed.

Lemma find_label_out (type : string) (l : list RoomTypeDefinition) :
  ~ In type (map def_label l) ->
  List.find (fun def => String.eqb (def_label def) type) l = None.
Proof.
  intros Hn. destruct (List.find _ l) as [def|] eqn:F; [|reflexivity].
  exfalso. apply List.find_some in F. destruct F as [Hin He].
  apply String.eqb_eq in He. apply Hn. rewrite <- He. apply List.in_map. exact Hin.
Qed.

(** X23.  Saving a custom type does nothing when its label is blank;
    otherwise it changes the color of no type that a base or an earlier
    custom type already names, the new entry being shadowed, and gives
    its color to its trimmed label when that names no type yet; the color
    of every other type stays. *)
Theorem addCustomRoomType_colors (s : State) (type : string) :
  let label := trim (def_label (newRoomType s)) in
  let s' := addCustomRoomType s in
  (label = ""%string -> s' = s) /\
  (In type (map def_label (baseRoomTypes ++ customRoomTypes s)) ->
   getRoomColor type (customRoomTypes s') = getRoomColor type (customRoomTypes s)) /\
  (type <> label ->
   getRoomColor type (customRoomTypes s') = getRoomColor type (customRoomTypes s)) /\
  (label <> ""%string ->
   ~ In label (map def_label (baseRoomTypes ++ customRoomTypes s)) ->
   getRoomColor label (customRoomTypes s') = def_color (newRoomType s)).
Proof.
  cbv zeta. unfold addCustomRoomType.
  destruct (String.eqb_spec (trim (def_label (newRoomType s))) "") as [E|E].
  - split; [reflexivity|]. split; [reflexivity|]. split; [reflexivity|].
    intros H. contradiction.
  - cbn [customRoomTypes]. rewrite !getRoomColor_find.
    split; [intros H; contradiction|].
    rewrite !app_assoc, !find_snoc. cbn [def_label def_color].
    split; [|split].
    + intros Hin. destruct (find_label_in _ _ Hin) as [def ->]. reflexivity.
    + intros Hne. destruct (List.find _ _); [reflexivity|].
      destruct (String.eqb_spec (trim (def_label (newRoomType s))) type) as [H|H];
        [congruence|reflexivity].
    + intros _ Hout. rewrite (find_label_out _ _ Hout).
      rewrite String.eqb_refl. reflexivity.
Qed.

(** X24.  The percentage shown for a confidence of [n] hundredths, as the
    detectors and the slider give it, is [n]: the product with 100 in
    doubles rounds back to the number of hundredths. *)
Theorem confidencePercent_hundredths (n : Z) :
  0 <= n <= 100 -> confidencePercent (lit (n # 100)) = n.
Proof.
  intros Hn.
  assert (Hall : forallb (fun k => confidencePercent (lit (Z.of_nat k # 100))
                                   =? Z.of_nat k)
                         (seq 0 101) = true) by (vm_compute; reflexivity).
  rewrite List.forallb_forall in Hall.
  specialize (Hall (Z.to_nat n)). rewrite Z2Nat.id in Hall by lia.
  apply Z.eqb_eq, Hall. apply List.in_seq. lia.
Qed.

Lemma updateRoom_edits_witness :
  let s := mkState
             [mkPagePreview "page-1" 1 "" 10 10 processed true
                (fst (mockAnalyzeRooms 1 residential [] []))]
             (Some "page-1"%string) [] (mkDef "" "#6366F1") [] in
  let data := mkPartialRoom None (Some "Den"%string) None None None None None in
  let data' := mkPartialRoom None None None (Some (Num (lit (57 # 100)))) None None None in
  map (fun page => map rd_id (pv_rooms page)) (pages (updateRoom "room-1-0" data s))
  = map (fun page => map rd_id (pv_rooms page)) (pages s) /\
  updateRoom "room-1-0" data (updateRoom "room-1-0" data s)
  = updateRoom "room-1-0" data s /\
  updateRoom "room-1-0" data (updateRoom "room-1-1" data' s)
  = updateRoom "room-1-1" data' (updateRoom "room-1-0" data s).
Proof.
  intros s data data'.
  apply (updateRoom_edits "room-1-0" "room-1-1" data data' s);
    [reflexivity|reflexivity|discriminate].
Defined.

Lemma confidencePercent_hundredths_witness :
  confidencePercent (lit (57 # 100)) = 57.
Proof. apply (confidencePercent_hundredths 57). lia. Defined.

End PageFacts.
